(** * A model of the staleness-aware client cache of [app/ui/src/cache/cache.ts]

    The TypeScript module keeps one [CacheObject] per remote entity.  Every
    object owns a [BroadcastPromise] that coalesces concurrent loads, and a
    registry ([Cache], the module-level [CACHE]) hands the objects out by
    identity.

    The embedding follows the code.

    - Objects live in a heap and are referred to by location, so that two
      holders of the same object see each other's writes.
    - An [async] method is a resumption: it runs until it returns, throws or
      reaches an [await], where it stops with the promise it waits for and
      the rest of its body.  JavaScript runs one piece of code at a time, so
      the code between two stops is one step.
    - The wall clock and the transport are part of the world.  The clock is
      read by [now]; it changes when the transport answers, to whatever the
      answer says (wall-clock time need not be monotone).  Timestamps are
      integers far below 2^53, so [Z] stands for [number].
    - Every [load] in the module is one call of [NETWORK], followed by a
      constructor in all classes but [AnalysisDataCache] and
      [AnalysisPreferenceCache], which hand on the response as it is.  A
      response carries the constructed value, or for these two the raw one,
      which may be [null] or [undefined].
    - The dictionaries of the registry are object literals: a lookup sees
      their own properties and the members of [Object.prototype].
    - An [await] on a value that is already there lets no answer of the
      transport in; the model runs on without stopping. *)

From stdpp Require Import base list strings gmap.
From Stdlib Require Import ZArith Lia.

(** ** Entities and network traffic *)

(** Objects and promises are referred to by their index in the heap and in
    the table of promises. *)
Abbreviation loc := nat (only parsing).
Abbreviation promise := nat (only parsing).

Record Run := { run_uuid : string; run_rest : nat }.
Record Session := { session_uuid : string; session_rest : nat }.

(** What the typed constructors ([new RunsList(res)], [new Status(res)], ...)
    build from a raw response, or the raw response where there is no
    constructor.  [PUndefined] is a response that is [undefined] or [null];
    it is also the result of the calls whose value is not used. *)
Inductive payload :=
| PRunsList (runs : list Run)
| PSessionsList (sessions : list Session)
| PRun (r : Run)
| PSession (s : Session)
| PStatus (isRunning : bool)
| PUser (u : nat)
| PAnalysisData (d : nat)
| PAnalysisPreference (d : nat)
| PUndefined.

Inductive error :=
| NetworkError (code : nat)
| TypeError.

(** The calls on [NETWORK] that this module makes. *)
Inductive request :=
| getRuns (arg : option string)
| getSessions
| getRun (uuid : string)
| getSession (uuid : string)
| getRunStatus (uuid : string)
| getSessionStatus (uuid : string)
| getUser
| getAnalysis (url uuid : string)
| getPreferences (url uuid : string)
| deleteRuns (uuids : list string)
| deleteSessions (uuids : list string).

Definition result := (error + payload)%type.

(** A response of the transport: how the call ends and what the wall clock
    shows when it does. *)
Record response := { body : result; at_time : Z }.

(** ** Objects *)

Inductive pstate :=
| Pending
| Fulfilled (v : payload)
| Rejected (e : error).

Definition pstate_of (r : result) : pstate :=
  match r with inl e => Rejected e | inr v => Fulfilled v end.

(** [BroadcastPromise]: the [resolve] and [reject] callbacks of a promise
    are represented by the promise they settle. *)
Record BroadcastPromise := {
  isLoading : bool;
  resolvers : list promise;
  rejectors : list promise
}.

(** The classes derived from [CacheObject], with their [readonly] fields. *)
Inductive class :=
| RunsListCache
| SessionsListCache
| RunCache (uuid : string) (statusCache : loc)
| SessionCache (uuid : string)
| RunStatusCache (uuid : string)
| SessionStatusCache (uuid : string)
| UserCache
| AnalysisDataCache (uuid url : string) (statusCache : loc)
| AnalysisPreferenceCache (uuid url : string).

(** [data] is [None] for JavaScript's [undefined] and [null] alike: the code
    only tests it with [== null] and for truthiness. *)
Record CacheObject := {
  cls : class;
  lastUpdated : Z;
  data : option payload;
  broadcastPromise : BroadcastPromise;
  lastUsed : Z
}.

(** The names that an object literal inherits from [Object.prototype]. *)
Definition Object_prototype : list string :=
  ["constructor"; "__defineGetter__"; "__defineSetter__"; "hasOwnProperty";
   "__lookupGetter__"; "__lookupSetter__"; "isPrototypeOf"; "propertyIsEnumerable";
   "toString"; "valueOf"; "__proto__"; "toLocaleString"].

(** What [dict[key]] is when it is not [undefined]: an object that was stored
    under the key, or a member inherited from [Object.prototype]. *)
Inductive member :=
| Own (l : loc)
| Inherited (name : string).

(** [dict[key]] for a dictionary made by [{}]: the own properties first, then
    the prototype; [None] is [undefined]. *)
Definition dict_get (d : gmap string loc) (key : string) : option member :=
  match d !! key with
  | Some l => Some (Own l)
  | None => if bool_decide (key ∈ Object_prototype) then Some (Inherited key) else None
  end.

(** A [Set<string>], given by its elements in insertion order, which is the
    order of [Array.from]. *)
Record StringSet := {
  Set_entries : list string;
  Set_distinct : NoDup Set_entries
}.

Definition Set_has (s : StringSet) (x : string) : bool :=
  bool_decide (x ∈ Set_entries s).
Definition Array_from (s : StringSet) : list string := Set_entries s.

(** The registry.  The own properties of the objects used as dictionaries
    are finite maps. *)
Record Cache := {
  runs : gmap string loc;
  sessions : gmap string loc;
  runStatuses : gmap string loc;
  sessionStatuses : gmap string loc;
  user : option loc;
  runsList : option loc;
  sessionsList : option loc
}.

(** Where the outcome of a transport call goes: into the [then]/[catch]
    handlers that [BroadcastPromise.create] installs, or into the promise a
    method awaits directly. *)
Inductive sink :=
| SinkBroadcast (this : loc)
| SinkPromise (p : promise).

Record world := {
  heap : list CacheObject;
  promises : list pstate;
  inflight : list (request * sink);
  sent : list request;
  clock : Z;
  CACHE : Cache
}.

Definition set_heap (f : list CacheObject → list CacheObject) (w : world) : world :=
  {| heap := f (heap w); promises := promises w; inflight := inflight w;
     sent := sent w; clock := clock w; CACHE := CACHE w |}.
Definition set_promises (f : list pstate → list pstate) (w : world) : world :=
  {| heap := heap w; promises := f (promises w); inflight := inflight w;
     sent := sent w; clock := clock w; CACHE := CACHE w |}.
Definition set_inflight (f : list (request * sink) → list (request * sink))
    (w : world) : world :=
  {| heap := heap w; promises := promises w; inflight := f (inflight w);
     sent := sent w; clock := clock w; CACHE := CACHE w |}.
Definition set_sent (f : list request → list request) (w : world) : world :=
  {| heap := heap w; promises := promises w; inflight := inflight w;
     sent := f (sent w); clock := clock w; CACHE := CACHE w |}.
Definition set_clock (t : Z) (w : world) : world :=
  {| heap := heap w; promises := promises w; inflight := inflight w;
     sent := sent w; clock := t; CACHE := CACHE w |}.
Definition set_CACHE (f : Cache → Cache) (w : world) : world :=
  {| heap := heap w; promises := promises w; inflight := inflight w;
     sent := sent w; clock := clock w; CACHE := f (CACHE w) |}.

Definition with_data (d : option payload) (o : CacheObject) : CacheObject :=
  {| cls := cls o; lastUpdated := lastUpdated o; data := d;
     broadcastPromise := broadcastPromise o; lastUsed := lastUsed o |}.
Definition with_lastUpdated (t : Z) (o : CacheObject) : CacheObject :=
  {| cls := cls o; lastUpdated := t; data := data o;
     broadcastPromise := broadcastPromise o; lastUsed := lastUsed o |}.
Definition with_lastUsed (t : Z) (o : CacheObject) : CacheObject :=
  {| cls := cls o; lastUpdated := lastUpdated o; data := data o;
     broadcastPromise := broadcastPromise o; lastUsed := t |}.
Definition with_broadcastPromise (b : BroadcastPromise) (o : CacheObject) : CacheObject :=
  {| cls := cls o; lastUpdated := lastUpdated o; data := data o;
     broadcastPromise := b; lastUsed := lastUsed o |}.

(** ** Asynchronous methods

    A method runs until it returns, throws or reaches an [await]; there it
    stops with the promise it waits for and the rest of its body. *)
Inductive res (A : Type) : Type :=
| Ret (a : A) (w : world)
| Raise (e : error) (w : world)
| Await (p : promise) (w : world) (k : result → world → res A).
Arguments Ret {A} a w.
Arguments Raise {A} e w.
Arguments Await {A} p w k.

Definition async (A : Type) : Type := world → res A.

Fixpoint bind {A B} (m : res A) (f : A → async B) : res B :=
  match m with
  | Ret a w => f a w
  | Raise e w => Raise e w
  | Await p w k => Await p w (λ r w', bind (k r w') f)
  end.

Definition ret {A} (a : A) : async A := λ w, Ret a w.
Definition abind {A B} (m : async A) (f : A → async B) : async B :=
  λ w, bind (m w) f.

Declare Scope async_scope.
Delimit Scope async_scope with async.
Notation "x ← y ; z" := (abind y (λ x, z))
  (at level 20, y at level 100, z at level 200, only parsing) : async_scope.
Notation "y ;; z" := (abind y (λ _, z))
  (at level 100, z at level 200, only parsing, right associativity) : async_scope.
Local Open Scope async_scope.

Definition throw {A} (e : error) : async A := λ w, Raise e w.
Definition gets {A} (f : world → A) : async A := λ w, Ret (f w) w.
Definition modify (f : world → world) : async unit := λ w, Ret () (f w).

(** [await p] *)
Definition await (p : promise) : async payload :=
  λ w, Await p w (λ r w',
    match r with inl e => Raise e w' | inr v => Ret v w' end).

(** [(new Date()).getTime()] *)
Definition now : async Z := gets clock.

(** Short-circuit [||] and [&&] over conditions that read the world. *)
Definition orelse (a b : async bool) : async bool :=
  x ← a; if x then ret true else b.
Definition andalso (a b : async bool) : async bool :=
  x ← a; if x then b else ret false.
Infix "|||" := orelse (at level 50, left associativity).
Infix "&&&" := andalso (at level 40, left associativity).

Fixpoint for_of {A} (l : list A) (body : A → async unit) : async unit :=
  match l with
  | [] => ret ()
  | x :: l' => body x;; for_of l' body
  end.

(** The world a piece of code leaves behind when it stops. *)
Definition world_of {A} (m : res A) : world :=
  match m with Ret _ w | Raise _ w | Await _ w _ => w end.

(** ** Field access *)

(** A location always refers to an allocated object in a run of the
    program; reading a dangling one is a [TypeError] here. *)
Definition read (this : loc) : async CacheObject :=
  λ w, match heap w !! this with
       | Some o => Ret o w
       | None => Raise TypeError w
       end.

Definition update (this : loc) (f : CacheObject → CacheObject) : async unit :=
  o ← read this; modify (set_heap (<[this := f o]>)).

(** The constructors of [BroadcastPromise] and [CacheObject]; [data] has no
    initializer. *)
Definition new_BroadcastPromise : BroadcastPromise :=
  {| isLoading := false; resolvers := []; rejectors := [] |}.

Definition new_CacheObject (c : class) : CacheObject :=
  {| cls := c; lastUpdated := 0; data := None;
     broadcastPromise := new_BroadcastPromise; lastUsed := 0 |}.

(** [new C(...)] for a class [C] derived from [CacheObject] *)
Definition new_object (c : class) : async loc :=
  l ← gets (λ w, length (heap w));
  modify (set_heap (λ h, h ++ [new_CacheObject c]));;
  ret l.

(** ** Timeouts *)

Definition RELOAD_TIMEOUT : Z := (60 * 1000)%Z.
Definition FORCE_RELOAD_TIMEOUT : Z := (5 * 1000)%Z.

Definition isReloadTimeout (lastUpdated : Z) : async bool :=
  t ← now; ret (bool_decide (t - lastUpdated > RELOAD_TIMEOUT)%Z).

Definition isForceReloadTimeout (lastUpdated : Z) : async bool :=
  t ← now; ret (bool_decide (t - lastUpdated > FORCE_RELOAD_TIMEOUT)%Z).

(** ** The transport and promises *)

(** A call on [NETWORK]: the request leaves and its outcome will reach [to]. *)
Definition NETWORK (req : request) (to : sink) : async unit :=
  modify (λ w, set_inflight (λ l, l ++ [(req, to)]) (set_sent (λ l, l ++ [req]) w)).

(** [new Promise(...)] *)
Definition new_promise : async promise :=
  p ← gets (λ w, length (promises w));
  modify (set_promises (λ ps, ps ++ [Pending]));;
  ret p.

(** Calling the [resolve] or [reject] function of promise [p]; a promise
    settles once. *)
Definition settle (p : promise) (s : pstate) : async unit :=
  modify (set_promises (λ ps,
    match ps !! p with
    | Some Pending => <[p := s]> ps
    | _ => ps
    end)).

(** ** class BroadcastPromise *)

(** The state between two cycles, as the constructor leaves it. *)
Definition idle : BroadcastPromise := new_BroadcastPromise.

Definition get_bp (this : loc) : async BroadcastPromise :=
  o ← read this; ret (broadcastPromise o).

Definition set_bp (this : loc) (f : BroadcastPromise → BroadcastPromise) : async unit :=
  update this (λ o, with_broadcastPromise (f (broadcastPromise o)) o).

Definition BroadcastPromise_add (this : loc) (p : promise) : async unit :=
  set_bp this (λ b, {| isLoading := isLoading b;
                       resolvers := resolvers b ++ [p];
                       rejectors := rejectors b ++ [p] |}).

(** [create(load)].  Every [load] passed in this module is one transport
    call followed by a constructor, so it is given by its request; its
    [then] and [catch] handlers are the sink [SinkBroadcast this]. *)
Definition BroadcastPromise_create (this : loc) (load : request) : async promise :=
  p ← new_promise;
  BroadcastPromise_add this p;;
  b ← get_bp this;
  (if negb (isLoading b) then
     set_bp this (λ b, {| isLoading := true;
                          resolvers := resolvers b; rejectors := rejectors b |});;
     NETWORK load (SinkBroadcast this)
   else ret ());;
  ret p.

Definition BroadcastPromise_resolve (this : loc) (value : payload) : async unit :=
  b ← get_bp this;
  set_bp this (λ _, idle);;
  for_of (resolvers b) (λ r, settle r (Fulfilled value)).

Definition BroadcastPromise_reject (this : loc) (err : error) : async unit :=
  b ← get_bp this;
  set_bp this (λ _, idle);;
  for_of (rejectors b) (λ r, settle r (Rejected err)).

(** ** The event loop *)

(** The transport answers the [i]-th call in flight. *)
Definition deliver (i : nat) (r : response) (w : world) : world :=
  match inflight w !! i with
  | None => w
  | Some (_, to) =>
      let w1 := set_clock (at_time r) (set_inflight (delete i) w) in
      match to, body r with
      | SinkBroadcast this, inr v => world_of (BroadcastPromise_resolve this v w1)
      | SinkBroadcast this, inl e => world_of (BroadcastPromise_reject this e w1)
      | SinkPromise p, b => world_of (settle p (pstate_of b) w1)
      end
  end.

Inductive outcome (A : Type) : Type :=
| Returned (a : A)
| Threw (e : error)
| Waiting.
Arguments Returned {A} a.
Arguments Threw {A} e.
Arguments Waiting {A}.

(** One caller, nothing else going on: whenever the method waits, the
    transport answers the oldest call in flight.  The answer is a function of
    the calls made so far. *)
Definition transport := list request → response.

Fixpoint pump (net : transport) (p : promise) (fuel : nat) (w : world) : world :=
  match fuel with
  | O => w
  | S n =>
      match promises w !! p, inflight w with
      | Some Pending, _ :: _ => pump net p n (deliver 0 (net (sent w)) w)
      | _, _ => w
      end
  end.

Fixpoint run {A} (net : transport) (m : res A) : outcome A * world :=
  match m with
  | Ret a w => (Returned a, w)
  | Raise e w => (Threw e, w)
  | Await p w k =>
      let w' := pump net p (length (inflight w)) w in
      match promises w' !! p with
      | Some (Fulfilled v) => run net (k (inr v) w')
      | Some (Rejected e) => run net (k (inl e) w')
      | _ => (Waiting, w')
      end
  end.

(** ** class CacheObject and its subclasses *)

Definition get_data (this : loc) : async (option payload) :=
  o ← read this; ret (data o).
Definition get_lastUpdated (this : loc) : async Z :=
  o ← read this; ret (lastUpdated o).
Definition set_data (this : loc) (d : option payload) : async unit :=
  update this (with_data d).
Definition set_lastUpdated (this : loc) (t : Z) : async unit :=
  update this (with_lastUpdated t).
Definition set_lastUsed (this : loc) (t : Z) : async unit :=
  update this (with_lastUsed t).

(** [this.data == null] *)
Definition data_is_null (this : loc) : async bool :=
  d ← get_data this; ret (bool_decide (d = None)).

(** [load(...args)] of each class: all of them go through the object's
    [broadcastPromise]; only [RunsListCache.load] looks at [args[0]].  The
    function passed to [create] is given by its request; what it makes of
    the answer is [loaded] below. *)
Definition load (this : loc) (arg0 : option string) : async promise :=
  o ← read this;
  match cls o with
  | RunsListCache => BroadcastPromise_create this (getRuns arg0)
  | SessionsListCache => BroadcastPromise_create this getSessions
  | RunCache uuid _ => BroadcastPromise_create this (getRun uuid)
  | SessionCache uuid => BroadcastPromise_create this (getSession uuid)
  | RunStatusCache uuid => BroadcastPromise_create this (getRunStatus uuid)
  | SessionStatusCache uuid => BroadcastPromise_create this (getSessionStatus uuid)
  | UserCache => BroadcastPromise_create this getUser
  | AnalysisDataCache uuid url _ => BroadcastPromise_create this (getAnalysis url uuid)
  | AnalysisPreferenceCache uuid url => BroadcastPromise_create this (getPreferences url uuid)
  end.

Definition await_load (this : loc) (arg0 : option string) : async payload :=
  p ← load this arg0; await p.

(** The value that [load] of class [c] resolves with when the transport
    answers [v].  A [load] with a constructor resolves with the object built;
    [AnalysisDataCache.load] and [AnalysisPreferenceCache.load] resolve with
    the response itself, which is [null] or [undefined] when the answer is. *)
Definition loaded (c : class) (v : payload) : option payload :=
  match c, v with
  | (AnalysisDataCache _ _ _ | AnalysisPreferenceCache _ _), PUndefined => None
  | _, _ => Some v
  end.

(** [this.data = v] for the value [v] that [await this.load()] gave. *)
Definition set_loaded (this : loc) (v : payload) : async unit :=
  update this (λ o, with_data (loaded (cls o) v) o).

(** [CacheObject.get(isRefresh)] *)
Definition CacheObject_get (this : loc) (isRefresh : bool) : async (option payload) :=
  c ← (data_is_null this
       ||| (ret isRefresh &&& (lu ← get_lastUpdated this; isForceReloadTimeout lu))
       ||| (lu ← get_lastUpdated this; isReloadTimeout lu));
  (if c then
     v ← await_load this None;
     set_loaded this v;;
     t ← now;
     set_lastUpdated this t
   else ret ());;
  t ← now;
  set_lastUsed this t;;
  get_data this.

(** [CacheObject.invalidate_cache()] *)
Definition invalidate_cache (this : loc) : async unit :=
  set_data this None.

(** Truthiness of [args[0]], a string when it is given. *)
Definition truthy (arg0 : option string) : bool :=
  match arg0 with
  | Some s => negb (bool_decide (s = ""%string))
  | None => false
  end.

(** [RunsListCache.get(isRefresh, ...args)]; [RunsListCache.load] builds a
    [RunsList]. *)
Definition RunsListCache_get (this : loc) (isRefresh : bool) (arg0 : option string)
    : async (option payload) :=
  if truthy arg0 then
    v ← await_load this arg0; ret (Some v)
  else
    c ← (data_is_null this
         ||| (ret isRefresh &&& (lu ← get_lastUpdated this; isForceReloadTimeout lu))
         ||| (lu ← get_lastUpdated this; isReloadTimeout lu));
    (if c then
       v ← await_load this None;
       set_data this (Some v);;
       t ← now;
       set_lastUpdated this t
     else ret ());;
    get_data this.

(** [Array.prototype.includes] on strings *)
Definition includes (l : list string) (x : string) : bool := bool_decide (x ∈ l).

(** The loop of [deleteRuns]: [runs.push(run)] for every run whose uuid is
    not listed. *)
Definition keep_runs (runUUIDS : list string) (currentRuns : list Run) : list Run :=
  foldl (λ runs run,
           if negb (includes runUUIDS (run_uuid run)) then runs ++ [run] else runs)
        [] currentRuns.

(** [RunsListCache.deleteRuns(runUUIDS)] *)
Definition RunsListCache_deleteRuns (this : loc) (runUUIDS : list string) : async unit :=
  d ← get_data this;
  match d with
  | Some (PRunsList currentRuns) =>
      set_data this (Some (PRunsList (keep_runs runUUIDS currentRuns)))
  | Some _ => throw TypeError
  | None => ret ()
  end;;
  p ← new_promise;
  NETWORK (deleteRuns runUUIDS) (SinkPromise p);;
  await p;;
  ret ().

(** The loop of [deleteSessions], over a [Set<string>]. *)
Definition keep_sessions (sessionUUIDS : StringSet) (currentSessions : list Session)
    : list Session :=
  foldl (λ sessions session,
           if negb (Set_has sessionUUIDS (session_uuid session))
           then sessions ++ [session] else sessions)
        [] currentSessions.

(** [SessionsListCache.deleteSessions(sessionUUIDS)] *)
Definition SessionsListCache_deleteSessions (this : loc) (sessionUUIDS : StringSet)
    : async unit :=
  d ← get_data this;
  match d with
  | Some (PSessionsList currentSessions) =>
      set_data this (Some (PSessionsList (keep_sessions sessionUUIDS currentSessions)))
  | Some _ => throw TypeError
  | None => ret ()
  end;;
  p ← new_promise;
  NETWORK (deleteSessions (Array_from sessionUUIDS)) (SinkPromise p);;
  await p;;
  ret ().

(** [this.statusCache] of the two classes that have one. *)
Definition this_statusCache (this : loc) : async loc :=
  o ← read this;
  match cls o with
  | RunCache _ statusCache | AnalysisDataCache _ _ statusCache => ret statusCache
  | _ => throw TypeError
  end.

(** [status.isRunning], as a condition. *)
Definition status_isRunning (status : option payload) : async bool :=
  match status with
  | Some (PStatus isRunning) => ret isRunning
  | Some _ => ret false
  | None => throw TypeError
  end.

(** [RunCache.get(isRefresh)].  [RunStatusCache] inherits [get] from
    [CacheObject]. *)
Definition RunCache_get (this : loc) (isRefresh : bool) : async (option payload) :=
  statusCache ← this_statusCache this;
  status ← CacheObject_get statusCache false;
  c ← (data_is_null this
       ||| (status_isRunning status &&& (lu ← get_lastUpdated this; isReloadTimeout lu))
       ||| (ret isRefresh &&& (lu ← get_lastUpdated this; isForceReloadTimeout lu)));
  (if c then
     v ← await_load this None;
     set_loaded this v;;
     t ← now;
     set_lastUpdated this t;;
     c' ← ((status_isRunning status &&& (lu ← get_lastUpdated this; isReloadTimeout lu))
           ||| ret isRefresh);
     if c' then CacheObject_get statusCache true;; ret () else ret ()
   else ret ());;
  get_data this.

(** [AnalysisDataCache.get(isRefresh)]: the same text as [RunCache.get]. *)
Definition AnalysisDataCache_get (this : loc) (isRefresh : bool) : async (option payload) :=
  statusCache ← this_statusCache this;
  status ← CacheObject_get statusCache false;
  c ← (data_is_null this
       ||| (status_isRunning status &&& (lu ← get_lastUpdated this; isReloadTimeout lu))
       ||| (ret isRefresh &&& (lu ← get_lastUpdated this; isForceReloadTimeout lu)));
  (if c then
     v ← await_load this None;
     set_loaded this v;;
     t ← now;
     set_lastUpdated this t;;
     c' ← ((status_isRunning status &&& (lu ← get_lastUpdated this; isReloadTimeout lu))
           ||| ret isRefresh);
     if c' then CacheObject_get statusCache true;; ret () else ret ()
   else ret ());;
  get_data this.

(** Method lookup for [get]: three classes override it. *)
Definition get (this : loc) (isRefresh : bool) (arg0 : option string)
    : async (option payload) :=
  o ← read this;
  match cls o with
  | RunsListCache => RunsListCache_get this isRefresh arg0
  | RunCache _ _ => RunCache_get this isRefresh
  | AnalysisDataCache _ _ _ => AnalysisDataCache_get this isRefresh
  | SessionsListCache | SessionCache _ | RunStatusCache _ | SessionStatusCache _
  | UserCache | AnalysisPreferenceCache _ _ => CacheObject_get this isRefresh
  end.

(** ** class Cache *)

Definition with_runs (m : gmap string loc) (c : Cache) : Cache :=
  {| runs := m; sessions := sessions c; runStatuses := runStatuses c;
     sessionStatuses := sessionStatuses c; user := user c;
     runsList := runsList c; sessionsList := sessionsList c |}.
Definition with_sessions (m : gmap string loc) (c : Cache) : Cache :=
  {| runs := runs c; sessions := m; runStatuses := runStatuses c;
     sessionStatuses := sessionStatuses c; user := user c;
     runsList := runsList c; sessionsList := sessionsList c |}.
Definition with_runStatuses (m : gmap string loc) (c : Cache) : Cache :=
  {| runs := runs c; sessions := sessions c; runStatuses := m;
     sessionStatuses := sessionStatuses c; user := user c;
     runsList := runsList c; sessionsList := sessionsList c |}.
Definition with_sessionStatuses (m : gmap string loc) (c : Cache) : Cache :=
  {| runs := runs c; sessions := sessions c; runStatuses := runStatuses c;
     sessionStatuses := m; user := user c;
     runsList := runsList c; sessionsList := sessionsList c |}.
Definition with_user (u : option loc) (c : Cache) : Cache :=
  {| runs := runs c; sessions := sessions c; runStatuses := runStatuses c;
     sessionStatuses := sessionStatuses c; user := u;
     runsList := runsList c; sessionsList := sessionsList c |}.
Definition with_runsList (l : option loc) (c : Cache) : Cache :=
  {| runs := runs c; sessions := sessions c; runStatuses := runStatuses c;
     sessionStatuses := sessionStatuses c; user := user c;
     runsList := l; sessionsList := sessionsList c |}.
Definition with_sessionsList (l : option loc) (c : Cache) : Cache :=
  {| runs := runs c; sessions := sessions c; runStatuses := runStatuses c;
     sessionStatuses := sessionStatuses c; user := user c;
     runsList := runsList c; sessionsList := l |}.

(** [new Cache()] *)
Definition new_Cache : Cache :=
  {| runs := ∅; sessions := ∅; runStatuses := ∅; sessionStatuses := ∅;
     user := None; runsList := None; sessionsList := None |}.

(** The four lookups by uuid return [dict[uuid]] when it is not [null]; for
    a uuid that names a member of [Object.prototype] that is the inherited
    member, and nothing is created. *)
Definition Cache_getRunStatus (uuid : string) : async member :=
  c ← gets CACHE;
  match dict_get (runStatuses c) uuid with
  | Some m => ret m
  | None =>
      l ← new_object (RunStatusCache uuid);
      modify (set_CACHE (λ c, with_runStatuses (<[uuid := l]> (runStatuses c)) c));;
      ret (Own l)
  end.

Definition Cache_getSessionStatus (uuid : string) : async member :=
  c ← gets CACHE;
  match dict_get (sessionStatuses c) uuid with
  | Some m => ret m
  | None =>
      l ← new_object (SessionStatusCache uuid);
      modify (set_CACHE (λ c, with_sessionStatuses (<[uuid := l]> (sessionStatuses c)) c));;
      ret (Own l)
  end.

(** Where [getRun] calls [getRunStatus], [uuid] names no member of
    [Object.prototype], so what comes back is a [RunStatusCache]; the other
    case is not reached. *)
Definition Cache_getRun (uuid : string) : async member :=
  c ← gets CACHE;
  match dict_get (runs c) uuid with
  | Some m => ret m
  | None =>
      statusCache ← Cache_getRunStatus uuid;
      match statusCache with
      | Own sc =>
          l ← new_object (RunCache uuid sc);
          modify (set_CACHE (λ c, with_runs (<[uuid := l]> (runs c)) c));;
          ret (Own l)
      | Inherited _ => throw TypeError
      end
  end.

Definition Cache_getSession (uuid : string) : async member :=
  c ← gets CACHE;
  match dict_get (sessions c) uuid with
  | Some m => ret m
  | None =>
      l ← new_object (SessionCache uuid);
      modify (set_CACHE (λ c, with_sessions (<[uuid := l]> (sessions c)) c));;
      ret (Own l)
  end.

Definition Cache_getRunsList : async loc :=
  c ← gets CACHE;
  match runsList c with
  | Some l => ret l
  | None =>
      l ← new_object RunsListCache;
      modify (set_CACHE (with_runsList (Some l)));;
      ret l
  end.

Definition Cache_getSessionsList : async loc :=
  c ← gets CACHE;
  match sessionsList c with
  | Some l => ret l
  | None =>
      l ← new_object SessionsListCache;
      modify (set_CACHE (with_sessionsList (Some l)));;
      ret l
  end.

Definition Cache_getUser : async loc :=
  c ← gets CACHE;
  match user c with
  | Some l => ret l
  | None =>
      l ← new_object UserCache;
      modify (set_CACHE (with_user (Some l)));;
      ret l
  end.

(** [Cache.invalidateCache()] *)
Definition Cache_invalidateCache : async unit :=
  modify (set_CACHE (with_runs ∅));;
  modify (set_CACHE (with_sessions ∅));;
  modify (set_CACHE (with_runStatuses ∅));;
  modify (set_CACHE (with_sessionStatuses ∅));;
  c ← gets CACHE;
  match user c with
  | Some u => invalidate_cache u
  | None => ret ()
  end;;
  modify (set_CACHE (with_runsList None));;
  modify (set_CACHE (with_sessionsList None)).

(** ** Several callers

    Calls made one after the other before the transport answers.  Each runs
    up to its first [await] and is parked there; when an answer arrives, the
    parked calls whose promise has settled go on, oldest first. *)
Inductive task (A : Type) : Type :=
| Blocked (p : promise) (k : result → world → res A)
| Done (a : A)
| Failed (e : error).
Arguments Blocked {A} p k.
Arguments Done {A} a.
Arguments Failed {A} e.

Definition park {A} (m : res A) : task A * world :=
  match m with
  | Ret a w => (Done a, w)
  | Raise e w => (Failed e, w)
  | Await p w k => (Blocked p k, w)
  end.

Definition wake {A} (t : task A) (w : world) : task A * world :=
  match t with
  | Blocked p k =>
      match promises w !! p with
      | Some (Fulfilled v) => park (k (inr v) w)
      | Some (Rejected e) => park (k (inl e) w)
      | _ => (t, w)
      end
  | _ => (t, w)
  end.

Fixpoint wake_all {A} (ts : list (task A)) (w : world) : list (task A) * world :=
  match ts with
  | [] => ([], w)
  | t :: ts' =>
      let '(t', w1) := wake t w in
      let '(ts'', w2) := wake_all ts' w1 in
      (t' :: ts'', w2)
  end.

Definition call {A} (m : async A) (l : list (task A) * world) : list (task A) * world :=
  let '(t, w) := park (m l.2) in (l.1 ++ [t], w).

Definition calls {A} (ms : list (async A)) (w : world) : list (task A) * world :=
  foldl (λ l m, call m l) ([], w) ms.

Definition respond {A} (i : nat) (r : response) (l : list (task A) * world)
    : list (task A) * world :=
  wake_all l.1 (deliver i r l.2).

(** [N] calls of [create] on one [BroadcastPromise], with the [load] of each. *)
Fixpoint creates (this : loc) (loads : list request) : async (list promise) :=
  match loads with
  | [] => ret []
  | l :: ls =>
      p ← BroadcastPromise_create this l;
      ps ← creates this ls;
      ret (p :: ps)
  end.

(** ** Worlds used in the examples *)

Definition entry (c : class) (d : option payload) (updated : Z) : CacheObject :=
  {| cls := c; lastUpdated := updated; data := d; broadcastPromise := idle;
     lastUsed := updated |}.

Definition world0 (h : list CacheObject) (t : Z) : world :=
  {| heap := h; promises := []; inflight := []; sent := []; clock := t;
     CACHE := new_Cache |}.

Definition run_a : Run := {| run_uuid := "a"; run_rest := 1 |}.
Definition run_b : Run := {| run_uuid := "b"; run_rest := 2 |}.
Definition run_c : Run := {| run_uuid := "c"; run_rest := 3 |}.
Definition session_a : Session := {| session_uuid := "a"; session_rest := 1 |}.
Definition session_b : Session := {| session_uuid := "b"; session_rest := 2 |}.

(** A transport that knows one run and its status. *)
Definition backend : transport :=
  λ reqs,
    match last reqs with
    | Some (getRun _) => {| body := inr (PRun run_b); at_time := 61200 |}
    | Some (getRunStatus _) => {| body := inr (PStatus true); at_time := 61300 |}
    | _ => {| body := inl (NetworkError 404); at_time := 61000 |}
    end.

Definition answers (r : result) (t : Z) : transport :=
  λ _, {| body := r; at_time := t |}.

(** ** Auxiliary definitions for the statements *)

(** The state of a [BroadcastPromise] after a [create] that returned [p]. *)
Definition joined (p : promise) (b : BroadcastPromise) : BroadcastPromise :=
  {| isLoading := true; resolvers := resolvers b ++ [p]; rejectors := rejectors b ++ [p] |}.

(** The table of promises after one call of a [resolve] or [reject] function. *)
Definition settle_in (s : pstate) (tbl : list pstate) (p : promise) : list pstate :=
  match tbl !! p with
  | Some Pending => <[p := s]> tbl
  | _ => tbl
  end.

(** The request behind [load] of each class. *)
Definition load_request (c : class) (arg0 : option string) : request :=
  match c with
  | RunsListCache => getRuns arg0
  | SessionsListCache => getSessions
  | RunCache uuid _ => getRun uuid
  | SessionCache uuid => getSession uuid
  | RunStatusCache uuid => getRunStatus uuid
  | SessionStatusCache uuid => getSessionStatus uuid
  | UserCache => getUser
  | AnalysisDataCache uuid url _ => getAnalysis url uuid
  | AnalysisPreferenceCache uuid url => getPreferences url uuid
  end.

(** The refresh condition of [CacheObject.get], read at time [t]. *)
Definition needs_refresh (o : CacheObject) (isRefresh : bool) (t : Z) : bool :=
  bool_decide (data o = None)
  || isRefresh && bool_decide (t - lastUpdated o > FORCE_RELOAD_TIMEOUT)%Z
  || bool_decide (t - lastUpdated o > RELOAD_TIMEOUT)%Z.

(** What [get] does once the promise of [load] has settled. *)
Definition after_load (this : loc) (r : result) : async (option payload) :=
  match r with
  | inl e => throw e
  | inr v =>
      (set_loaded this v;;
       t ← now;
       set_lastUpdated this t);;
      t ← now;
      set_lastUsed this t;;
      get_data this
  end.

(** The world while the only call in flight is a coalesced load of the object
    at [this], started from a state with nothing in flight. *)
Definition loading (w : world) (this : loc) (o : CacheObject) (req : request) : world :=
  {| heap := <[this := with_broadcastPromise (joined (length (promises w)) idle) o]> (heap w);
     promises := promises w ++ [Pending];
     inflight := [(req, SinkBroadcast this)];
     sent := sent w ++ [req];
     clock := clock w;
     CACHE := CACHE w |}.

(** The world after the transport has answered the only call in flight, a
    coalesced load of the object at [this]. *)
Definition answered (w : world) (req : request) (r : response) : world :=
  {| heap := heap w;
     promises := promises w ++ [pstate_of (body r)];
     inflight := [];
     sent := sent w ++ [req];
     clock := at_time r;
     CACHE := CACHE w |}.

(** The world after a call of [load] has joined the load in flight of the
    object at [this], the only call in flight, and the transport has answered
    that load: the waiters and the promise of the new call are settled with
    the answer. *)
Definition joined_answered (w : world) (this : loc) (o : CacheObject) (r : response)
    : world :=
  {| heap := <[this := with_broadcastPromise idle o]> (heap w);
     promises := foldl (settle_in (pstate_of (body r))) (promises w ++ [Pending])
                   (match body r with
                    | inl _ => rejectors (broadcastPromise o) ++ [length (promises w)]
                    | inr _ => resolvers (broadcastPromise o) ++ [length (promises w)]
                    end);
     inflight := [];
     sent := sent w;
     clock := at_time r;
     CACHE := CACHE w |}.

(** Sets used in the examples. *)
Definition no_ids : StringSet := {| Set_entries := []; Set_distinct := NoDup_nil_2 |}.
Definition ids_a_c : StringSet :=
  {| Set_entries := ["a"; "c"]; Set_distinct := bool_decide_unpack (NoDup ["a"; "c"]) I |}.

(** [m], started in [w], stops at an [await] with heap [h'], having sent
    [req] as its last call; it waits for the outcome of that call, fails with
    the error of the transport without writing anything, and returns when the
    call succeeds. *)
Definition issues (m : async unit) (w : world) (h' : list CacheObject) (req : request)
    : Prop :=
  ∃ p w1 k,
    m w = Await p w1 k ∧
    heap w1 = h' ∧
    promises w1 !! p = Some Pending ∧
    inflight w1 = inflight w ++ [(req, SinkPromise p)] ∧
    sent w1 = sent w ++ [req] ∧
    (∀ e w', k (inl e) w' = Raise e w') ∧
    (∀ v w', k (inr v) w' = Ret () w').

(** A lookup that always returns an object of the heap. *)
Definition own (m : async loc) : async member := l ← m; ret (Own l).

(** The lookups of the registry other than [getUser]. *)
Definition Cache_lookups (uuid : string) : list (async member) :=
  [Cache_getRun uuid; Cache_getSession uuid; own Cache_getRunsList;
   own Cache_getSessionsList; Cache_getRunStatus uuid; Cache_getSessionStatus uuid].

(** The registry after [invalidateCache]: [user] is the one field kept. *)
Definition cleared (c : Cache) : Cache :=
  {| runs := ∅; sessions := ∅; runStatuses := ∅; sessionStatuses := ∅;
     user := user c; runsList := None; sessionsList := None |}.

(** The world while [n] callers wait for one coalesced load of the object at
    [this], started with the coalescer idle. *)
Definition loading_n (w : world) (this : loc) (o : CacheObject) (req : request)
    (n : nat) : world :=
  {| heap := <[this := with_broadcastPromise
                {| isLoading := true;
                   resolvers := seq (length (promises w)) n;
                   rejectors := seq (length (promises w)) n |} o]> (heap w);
     promises := promises w ++ replicate n Pending;
     inflight := inflight w ++ [(req, SinkBroadcast this)];
     sent := sent w ++ [req];
     clock := clock w;
     CACHE := CACHE w |}.

(** The parked calls of [CacheObject.get] on [this], one per promise. *)
Definition parked_gets (this : loc) (ps : list promise)
    (ts : list (task (option payload))) : Prop :=
  Forall2 (λ p t, ∃ k, t = Blocked p k ∧ ∀ r w', k r w' = after_load this r w') ps ts.

(** ** Further definitions: the registry *)

(** All the lookups of the registry. *)
Definition Cache_getters (uuid : string) : list (async member) :=
  own Cache_getUser :: Cache_lookups uuid.

Definition has_class (w : world) (l : loc) (c : class) : Prop :=
  ∃ o, heap w !! l = Some o ∧ cls o = c.

(** What the registry keeps true of its fields: each refers to an object of
    its class, made for its key, and a registered run is paired with the
    registered status of the same run. *)
Record registry_ok (w : world) : Prop := {
  ok_runs : ∀ u l, runs (CACHE w) !! u = Some l →
    ∃ sc, has_class w l (RunCache u sc) ∧ runStatuses (CACHE w) !! u = Some sc;
  ok_sessions : ∀ u l, sessions (CACHE w) !! u = Some l → has_class w l (SessionCache u);
  ok_runStatuses : ∀ u l, runStatuses (CACHE w) !! u = Some l →
    has_class w l (RunStatusCache u);
  ok_sessionStatuses : ∀ u l, sessionStatuses (CACHE w) !! u = Some l →
    has_class w l (SessionStatusCache u);
  ok_user : ∀ l, user (CACHE w) = Some l → has_class w l UserCache;
  ok_runsList : ∀ l, runsList (CACHE w) = Some l → has_class w l RunsListCache;
  ok_sessionsList : ∀ l, sessionsList (CACHE w) = Some l →
    has_class w l SessionsListCache
}.

(** ** Further definitions: status-coupled objects *)

(** The statements of [RunCache.get] and [AnalysisDataCache.get] that follow
    [let status = await this.statusCache.get()]. *)
Definition coupled_get_rest (this statusCache : loc) (status : option payload)
    (isRefresh : bool) : async (option payload) :=
  c ← (data_is_null this
       ||| (status_isRunning status &&& (lu ← get_lastUpdated this; isReloadTimeout lu))
       ||| (ret isRefresh &&& (lu ← get_lastUpdated this; isForceReloadTimeout lu)));
  (if c then
     v ← await_load this None;
     set_loaded this v;;
     t ← now;
     set_lastUpdated this t;;
     c' ← ((status_isRunning status &&& (lu ← get_lastUpdated this; isReloadTimeout lu))
           ||| ret isRefresh);
     if c' then CacheObject_get statusCache true;; ret () else ret ()
   else ret ());;
  get_data this.

(** The refresh condition of the two methods, for a status that says
    [isRunning], read at time [t]. *)
Definition coupled_needs_refresh (o : CacheObject) (isRunning isRefresh : bool) (t : Z)
    : bool :=
  bool_decide (data o = None)
  || isRunning && bool_decide (t - lastUpdated o > RELOAD_TIMEOUT)%Z
  || isRefresh && bool_decide (t - lastUpdated o > FORCE_RELOAD_TIMEOUT)%Z.

(** [o] is a [RunCache] or an [AnalysisDataCache] whose [statusCache] is [sc]. *)
Definition is_coupled (o : CacheObject) (sc : loc) : Prop :=
  (∃ uuid, cls o = RunCache uuid sc) ∨ (∃ uuid url, cls o = AnalysisDataCache uuid url sc).

(** ** Further definitions: loads in flight *)

(** The call in flight [x] is a load of the object at [this]. *)
Definition is_flight (this : loc) (x : request * sink) : bool :=
  match x.2 with
  | SinkBroadcast t => bool_decide (t = this)
  | SinkPromise _ => false
  end.

(** The number of loads of the object at [this] that are in flight. *)
Definition flights (w : world) (this : loc) : nat :=
  length (filter (λ x, is_flight this x) (inflight w)).

(** What holds of every [BroadcastPromise]: the two lists are the same,
    [isLoading] says whether they are non-empty, and exactly one load is in
    flight while it is set, none otherwise. *)
Definition coalescer_ok (w : world) : Prop :=
  ∀ this o, heap w !! this = Some o →
    let b := broadcastPromise o in
    resolvers b = rejectors b ∧
    (isLoading b = true ↔ resolvers b ≠ []) ∧
    flights w this = (if isLoading b then 1 else 0).

(** ** Further definitions: methods that call the transport themselves

    The methods below await a call on [NETWORK] directly, without a
    [BroadcastPromise], and some of them tell the user about a failure with
    [showError].  Their calls and messages are events of the method. *)

(** The calls on [NETWORK] other than the loads. *)
Inductive mutation :=
| addRun (uuid : string)
| claimRun (uuid : string)
| addSession (uuid : string)
| claimSession (uuid : string)
| startTensorBoard (computerUUID : string) (runUUIDs : list string)
| clearCheckPoints (computerUUID : string) (runUUIDs : list string)
| setRun (uuid : string) (r : Run)
| setSession (uuid : string) (s : Session)
| setUser (u : nat)
| setAnalysis (url uuid : string) (d : nat)
| updatePreferences (url uuid : string) (preference : nat)
| signIn (d : nat)
| signUp (d : nat)
| passwordReset (d : nat)
| signOut.

(** A response to such a call, with the two fields the module reads:
    [res.is_successful], tested for truthiness, and [res.error]. *)
Record reply := {
  is_successful : bool;
  reply_error : option string;
  reply_rest : nat
}.

(** [new Job(res)] *)
Inductive Job := new_Job (res : reply).

(** The argument of [showError]: [res.error], or the [errorDescription] of a
    [NetworkError], or [null]. *)
Inductive message :=
| ResponseError (text : option string)
| ErrorDescription (code : nat)
| NoMessage.

(** [ex instanceof NetworkError ? ex.errorDescription : null] *)
Definition describe (ex : error) : message :=
  match ex with
  | NetworkError code => ErrorDescription code
  | TypeError => NoMessage
  end.

(** A method that may also call the transport itself and show messages: it
    stops at an [await] of a promise, as before, or at the [await] of a call,
    with the call. *)
Inductive act (A : Type) : Type :=
| Return (a : A) (w : world)
| Throw (e : error) (w : world)
| Wait (p : promise) (w : world) (k : result → world → act A)
| Call (m : mutation) (w : world) (k : error + reply → world → act A)
| Show (msg : message) (rest : act A).
Arguments Return {A} a w.
Arguments Throw {A} e w.
Arguments Wait {A} p w k.
Arguments Call {A} m w k.
Arguments Show {A} msg rest.

Definition action (A : Type) : Type := world → act A.

Fixpoint act_bind {A B} (m : act A) (f : A → action B) : act B :=
  match m with
  | Return a w => f a w
  | Throw e w => Throw e w
  | Wait p w k => Wait p w (λ r w', act_bind (k r w') f)
  | Call c w k => Call c w (λ r w', act_bind (k r w') f)
  | Show msg rest => Show msg (act_bind rest f)
  end.

(** [try { m } catch (ex) { h ex }] *)
Fixpoint act_catch {A} (m : act A) (h : error → action A) : act A :=
  match m with
  | Return a w => Return a w
  | Throw e w => h e w
  | Wait p w k => Wait p w (λ r w', act_catch (k r w') h)
  | Call c w k => Call c w (λ r w', act_catch (k r w') h)
  | Show msg rest => Show msg (act_catch rest h)
  end.

(** The methods of the cache seen as such methods. *)
Fixpoint lift_res {A} (m : res A) : act A :=
  match m with
  | Ret a w => Return a w
  | Raise e w => Throw e w
  | Await p w k => Wait p w (λ r w', lift_res (k r w'))
  end.

Definition lift {A} (m : async A) : action A := λ w, lift_res (m w).
Definition action_ret {A} (a : A) : action A := λ w, Return a w.
Definition action_bind {A B} (m : action A) (f : A → action B) : action B :=
  λ w, act_bind (m w) f.
Definition try_catch {A} (m : action A) (h : error → action A) : action A :=
  λ w, act_catch (m w) h.

(** [await NETWORK.m(...)] *)
Definition await_NETWORK (m : mutation) : action reply :=
  λ w, Call m w (λ r w',
    match r with inl e => Throw e w' | inr res => Return res w' end).

(** [showError(msg)] *)
Definition showError (msg : message) : action unit :=
  λ w, Show msg (Return () w).

(** [this.uuid] and [this.url] of the classes that have them. *)
Definition this_uuid (this : loc) : async string :=
  o ← read this;
  match cls o with
  | RunCache uuid _ | SessionCache uuid | RunStatusCache uuid | SessionStatusCache uuid
  | AnalysisDataCache uuid _ _ | AnalysisPreferenceCache uuid _ => ret uuid
  | RunsListCache | SessionsListCache | UserCache => throw TypeError
  end.

Definition this_url (this : loc) : async string :=
  o ← read this;
  match cls o with
  | AnalysisDataCache _ url _ | AnalysisPreferenceCache _ url => ret url
  | _ => throw TypeError
  end.

Declare Scope action_scope.
Delimit Scope action_scope with action.
Notation "x ← y ; z" := (action_bind y (λ x, z))
  (at level 20, y at level 100, z at level 200, only parsing) : action_scope.
Notation "y ;; z" := (action_bind y (λ _, z))
  (at level 100, z at level 200, only parsing, right associativity) : action_scope.
Local Open Scope action_scope.

(** [RunsListCache.addRun(run)] and [claimRun(run)] *)
Definition RunsListCache_addRun (this : loc) (run : Run) : action unit :=
  await_NETWORK (addRun (run_uuid run));;
  lift (invalidate_cache this).

Definition RunsListCache_claimRun (this : loc) (run : Run) : action unit :=
  await_NETWORK (claimRun (run_uuid run));;
  lift (invalidate_cache this).

(** [RunsListCache.startTensorBoard] and [clearCheckPoints] *)
Definition RunsListCache_startTensorBoard (this : loc) (computerUUID : string)
    (runUUIDs : list string) : action Job :=
  res ← await_NETWORK (startTensorBoard computerUUID runUUIDs);
  action_ret (new_Job res).

Definition RunsListCache_clearCheckPoints (this : loc) (computerUUID : string)
    (runUUIDs : list string) : action Job :=
  res ← await_NETWORK (clearCheckPoints computerUUID runUUIDs);
  action_ret (new_Job res).

(** [SessionsListCache.addSession(session)] and [claimSession(session)] *)
Definition SessionsListCache_addSession (this : loc) (session : Session) : action unit :=
  await_NETWORK (addSession (session_uuid session));;
  lift (invalidate_cache this).

Definition SessionsListCache_claimSession (this : loc) (session : Session)
    : action unit :=
  await_NETWORK (claimSession (session_uuid session));;
  lift (invalidate_cache this).

(** [RunCache.setRun(run)] *)
Definition RunCache_setRun (this : loc) (run : Run) : action unit :=
  uuid ← lift (this_uuid this);
  await_NETWORK (setRun uuid run);;
  action_ret ().

(** [SessionCache.setSession(session)] *)
Definition SessionCache_setSession (this : loc) (session : Session) : action unit :=
  uuid ← lift (this_uuid this);
  await_NETWORK (setSession uuid session);;
  action_ret ().

(** [UserCache.setUser(user)] *)
Definition UserCache_setUser (this : loc) (u : nat) : action unit :=
  await_NETWORK (setUser u);;
  action_ret ().

(** [AnalysisDataCache.setAnalysis(data)] *)
Definition AnalysisDataCache_setAnalysis (this : loc) (d : nat) : action unit :=
  url ← lift (this_url this);
  uuid ← lift (this_uuid this);
  await_NETWORK (setAnalysis url uuid d);;
  action_ret ().

(** [AnalysisPreferenceCache.setPreference(preference)] *)
Definition AnalysisPreferenceCache_setPreference (this : loc) (preference : nat)
    : action unit :=
  url ← lift (this_url this);
  uuid ← lift (this_uuid this);
  await_NETWORK (updatePreferences url uuid preference);;
  action_ret ().

(** [UserCache.signIn(data)] *)
Definition UserCache_signIn (this : loc) (d : nat) : action bool :=
  try_catch
    (res ← await_NETWORK (signIn d);
     if negb (is_successful res) then
       showError (ResponseError (reply_error res));;
       action_ret false
     else
       lift (set_data this None);;
       lift Cache_invalidateCache;;
       lift (CacheObject_get this false);;
       action_ret true)
    (λ ex, showError (describe ex);; action_ret false).

(** [UserCache.signUp(data)] *)
Definition UserCache_signUp (this : loc) (d : nat) : action bool :=
  try_catch
    (res ← await_NETWORK (signUp d);
     if negb (is_successful res) then
       showError (ResponseError (reply_error res));;
       action_ret false
     else
       lift (set_data this None);;
       lift (CacheObject_get this false);;
       lift Cache_invalidateCache;;
       action_ret true)
    (λ ex, showError (describe ex);; action_ret false).

(** [UserCache.resetPassword(data)] *)
Definition UserCache_resetPassword (this : loc) (d : nat) : action bool :=
  try_catch
    (res ← await_NETWORK (passwordReset d);
     if negb (is_successful res) then
       showError (ResponseError (reply_error res));;
       action_ret false
     else
       lift (set_data this None);;
       lift Cache_invalidateCache;;
       action_ret true)
    (λ ex, showError (describe ex);; action_ret false).

(** [UserCache.signOut()] *)
Definition UserCache_signOut (this : loc) : action bool :=
  try_catch
    (res ← await_NETWORK signOut;
     if negb (is_successful res) then
       showError (ResponseError (reply_error res));;
       action_ret false
     else
       lift (invalidate_cache this);;
       lift Cache_invalidateCache;;
       action_ret true)
    (λ ex, action_ret false).

Local Close Scope action_scope.

(** What a method lets the outside see, in order. *)
Inductive event :=
| Called (m : mutation)
| Shown (msg : message).

(** How the transport answers the direct calls: the outcome and the time
    of the answer. *)
Definition service := mutation → (error + reply) * Z.

(** One caller, nothing else going on, as for [run]. *)
Fixpoint perform {A} (net : transport) (srv : service) (m : act A)
    : list event * (outcome A * world) :=
  match m with
  | Return a w => ([], (Returned a, w))
  | Throw e w => ([], (Threw e, w))
  | Wait p w k =>
      let w' := pump net p (length (inflight w)) w in
      match promises w' !! p with
      | Some (Fulfilled v) => perform net srv (k (inr v) w')
      | Some (Rejected e) => perform net srv (k (inl e) w')
      | _ => ([], (Waiting, w'))
      end
  | Call c w k =>
      let '(evs, out) := perform net srv (k (srv c).1 (set_clock (srv c).2 w)) in
      (Called c :: evs, out)
  | Show msg rest =>
      let '(evs, out) := perform net srv rest in
      (Shown msg :: evs, out)
  end.

(** The world at time [t] once the value of the user object at [this] is
    removed and the registry is emptied. *)
Definition invalidated (w : world) (this : loc) (o : CacheObject) (t : Z) : world :=
  {| heap := <[this := with_data None o]> (heap w);
     promises := promises w; inflight := inflight w; sent := sent w;
     clock := t; CACHE := cleared (CACHE w) |}.

(** * Proofs *)

(** ** Reading and writing the heap *)

Lemma world_eq (w w' : world) :
  heap w = heap w' → promises w = promises w' → inflight w = inflight w' →
  sent w = sent w' → clock w = clock w' → CACHE w = CACHE w' → w = w'.
Proof. destruct w, w'; cbn; intros; by subst. Qed.

Lemma read_eq w this o : heap w !! this = Some o → read this w = Ret o w.
Proof. intros H. unfold read. by rewrite H. Qed.

Lemma update_eq w this o f :
  heap w !! this = Some o → update this f w = Ret () (set_heap (<[this := f o]>) w).
Proof. intros H. unfold update, abind. rewrite (read_eq _ _ _ H). done. Qed.

(** ** The table of promises *)

Section SettleTable.
Context (s : pstate).

Lemma settle_in_other tbl p q : p ≠ q → settle_in s tbl p !! q = tbl !! q.
Proof.
  intros Hne. unfold settle_in. destruct (tbl !! p) as [[]|]; try done.
  by apply list_lookup_insert_ne.
Qed.

Lemma settle_all_other ps tbl q :
  q ∉ ps → foldl (settle_in s) tbl ps !! q = tbl !! q.
Proof.
  revert tbl. induction ps as [|p ps IH]; intros tbl Hq; cbn; [done|].
  rewrite IH by set_solver. apply settle_in_other. set_solver.
Qed.

Lemma settle_all_keeps ps tbl q :
  tbl !! q = Some s → foldl (settle_in s) tbl ps !! q = Some s.
Proof.
  revert tbl. induction ps as [|p ps IH]; intros tbl Hq; cbn; [done|].
  apply IH. destruct (decide (p = q)) as [Heq|Hne].
  - subst p. unfold settle_in. rewrite Hq. destruct s; try done.
    apply list_lookup_insert_eq. by eapply lookup_lt_Some.
  - by rewrite settle_in_other.
Qed.

Lemma settle_all_pending ps tbl q :
  q ∈ ps → tbl !! q = Some Pending → foldl (settle_in s) tbl ps !! q = Some s.
Proof.
  revert tbl. induction ps as [|p ps IH]; intros tbl Hin Hq; [set_solver|].
  cbn. destruct (decide (p = q)) as [Heq|Hne].
  - subst p. apply settle_all_keeps. unfold settle_in. rewrite Hq.
    apply list_lookup_insert_eq. by eapply lookup_lt_Some.
  - apply IH; [|by rewrite settle_in_other].
    apply elem_of_cons in Hin as [?|?]; [congruence|done].
Qed.

Lemma settle_all_length ps tbl : length (foldl (settle_in s) tbl ps) = length tbl.
Proof.
  revert tbl. induction ps as [|p ps IH]; intros tbl; cbn; [done|].
  rewrite IH. unfold settle_in. destruct (tbl !! p) as [[]|]; try done.
  apply length_insert.
Qed.

Lemma for_of_settle ps w :
  for_of ps (λ r, settle r s) w
  = Ret () (set_promises (λ tbl, foldl (settle_in s) tbl ps) w).
Proof.
  revert w. induction ps as [|p ps IH]; intros w; cbn.
  - unfold ret. f_equal. by apply world_eq.
  - unfold abind, settle, modify. cbn. rewrite IH. f_equal.
Qed.

End SettleTable.

(** ** class BroadcastPromise *)

Lemma create_eq w this o load :
  heap w !! this = Some o →
  BroadcastPromise_create this load w =
    Ret (length (promises w))
      (let p := length (promises w) in
       let w1 := set_heap
                   (<[this := with_broadcastPromise (joined p (broadcastPromise o)) o]>)
                   (set_promises (λ ps, ps ++ [Pending]) w) in
       if isLoading (broadcastPromise o) then w1
       else set_inflight (λ l, l ++ [(load, SinkBroadcast this)])
              (set_sent (λ l, l ++ [load]) w1)).
Proof.
  intros H. pose proof (lookup_lt_Some _ _ _ H) as Hlt.
  unfold BroadcastPromise_create, new_promise, BroadcastPromise_add, set_bp, get_bp,
    abind, gets, modify, ret.
  cbn.
  erewrite update_eq by exact H. cbn.
  erewrite read_eq by (cbn; by apply list_lookup_insert_eq). cbn.
  destruct (isLoading (broadcastPromise o)) eqn:Hl; cbn.
  - done.
  - erewrite update_eq by (cbn; by apply list_lookup_insert_eq). cbn.
    unfold NETWORK, modify, set_heap, set_inflight, set_sent; cbn.
    rewrite list_insert_insert_eq. unfold joined. done.
Qed.

Lemma resolve_eq w this o v :
  heap w !! this = Some o →
  BroadcastPromise_resolve this v w =
    Ret () (set_promises
              (λ tbl, foldl (settle_in (Fulfilled v)) tbl (resolvers (broadcastPromise o)))
             (set_heap (<[this := with_broadcastPromise idle o]>) w)).
Proof.
  intros H. unfold BroadcastPromise_resolve, get_bp, set_bp, abind.
  erewrite read_eq by exact H. cbn.
  erewrite update_eq by exact H. cbn.
  rewrite for_of_settle. done.
Qed.

Lemma reject_eq w this o e :
  heap w !! this = Some o →
  BroadcastPromise_reject this e w =
    Ret () (set_promises
              (λ tbl, foldl (settle_in (Rejected e)) tbl (rejectors (broadcastPromise o)))
             (set_heap (<[this := with_broadcastPromise idle o]>) w)).
Proof.
  intros H. unfold BroadcastPromise_reject, get_bp, set_bp, abind.
  erewrite read_eq by exact H. cbn.
  erewrite update_eq by exact H. cbn.
  rewrite for_of_settle. done.
Qed.

(** Once the fetch is on its way, further calls only join. *)
Lemma creates_loading this loads : ∀ w o,
  heap w !! this = Some o →
  isLoading (broadcastPromise o) = true →
  creates this loads w =
    Ret (seq (length (promises w)) (length loads))
      (set_heap (<[this := with_broadcastPromise
                    {| isLoading := true;
                       resolvers := resolvers (broadcastPromise o)
                                    ++ seq (length (promises w)) (length loads);
                       rejectors := rejectors (broadcastPromise o)
                                    ++ seq (length (promises w)) (length loads) |} o]>)
         (set_promises (λ ps, ps ++ replicate (length loads) Pending) w)).
Proof.
  induction loads as [|l ls IH]; intros w o H Hl; cbn [creates length seq].
  - unfold ret. f_equal. apply world_eq; cbn; try done.
    + rewrite !app_nil_r. symmetry. apply list_insert_id.
      rewrite H. f_equal. destruct o as [? ? ? [] ?]; cbn in *. by subst.
    + by rewrite app_nil_r.
  - unfold abind. erewrite create_eq by exact H. rewrite Hl. cbn.
    erewrite IH; cycle 1.
    { cbn. apply list_lookup_insert_eq. by eapply lookup_lt_Some. }
    { done. }
    cbn. unfold ret. f_equal.
    + rewrite length_app. cbn. by rewrite Nat.add_1_r.
    + apply world_eq; cbn; try done.
      * rewrite list_insert_insert_eq, length_app. cbn.
        rewrite Nat.add_1_r, <- !app_assoc. done.
      * by rewrite <- app_assoc.
Qed.

(** The first call of a cycle starts the fetch. *)
Lemma creates_idle this l ls w o :
  heap w !! this = Some o →
  broadcastPromise o = idle →
  creates this (l :: ls) w =
    Ret (seq (length (promises w)) (S (length ls)))
      {| heap := <[this := with_broadcastPromise
                    {| isLoading := true;
                       resolvers := seq (length (promises w)) (S (length ls));
                       rejectors := seq (length (promises w)) (S (length ls)) |} o]>
                 (heap w);
         promises := promises w ++ replicate (S (length ls)) Pending;
         inflight := inflight w ++ [(l, SinkBroadcast this)];
         sent := sent w ++ [l];
         clock := clock w;
         CACHE := CACHE w |}.
Proof.
  intros H Hidle. pose proof (lookup_lt_Some _ _ _ H) as Hlt.
  cbn [creates]. unfold abind. erewrite create_eq by exact H.
  rewrite Hidle. cbn [isLoading idle new_BroadcastPromise bind].
  erewrite creates_loading; cycle 1.
  { cbn. by apply list_lookup_insert_eq. }
  { done. }
  cbn. unfold ret. rewrite length_app, Nat.add_1_r. cbn. f_equal.
  apply world_eq; cbn; try done.
  - by rewrite list_insert_insert_eq.
  - by rewrite <- app_assoc.
Qed.

Lemma delete_last {A} (l : list A) (x : A) : delete (length l) (l ++ [x]) = l.
Proof. induction l as [|a l IH]; cbn; [done|]. by f_equal. Qed.

(** What the answer to a coalesced fetch does. *)
Lemma deliver_broadcast w i req this o r :
  inflight w !! i = Some (req, SinkBroadcast this) →
  heap w !! this = Some o →
  deliver i r w =
    {| heap := <[this := with_broadcastPromise idle o]> (heap w);
       promises := foldl (settle_in (pstate_of (body r))) (promises w)
                     match body r with
                     | inl _ => rejectors (broadcastPromise o)
                     | inr _ => resolvers (broadcastPromise o)
                     end;
       inflight := delete i (inflight w);
       sent := sent w;
       clock := at_time r;
       CACHE := CACHE w |}.
Proof.
  intros Hi H. unfold deliver. rewrite Hi.
  destruct (body r) as [e|v]; cbn [pstate_of].
  - erewrite reject_eq by exact H. done.
  - erewrite resolve_eq by exact H. done.
Qed.

(** ** The refresh condition and the two halves of [get] *)

Lemma refresh_condition w this o isRefresh :
  heap w !! this = Some o →
  (data_is_null this
   ||| (ret isRefresh &&& (lu ← get_lastUpdated this; isForceReloadTimeout lu))
   ||| (lu ← get_lastUpdated this; isReloadTimeout lu)) w
  = Ret (needs_refresh o isRefresh (clock w)) w.
Proof.
  intros H. unfold orelse, andalso, data_is_null, get_data, get_lastUpdated,
    isReloadTimeout, isForceReloadTimeout, now, gets, abind, needs_refresh.
  rewrite (read_eq _ _ _ H). cbn.
  destruct (data o) as [d|]; cbn; [|done].
  destruct isRefresh; cbn; rewrite ?(read_eq _ _ _ H); cbn.
  - destruct (bool_decide (clock w - lastUpdated o > FORCE_RELOAD_TIMEOUT)%Z); cbn; [done|].
    by rewrite (read_eq _ _ _ H).
  - done.
Qed.

Lemma needs_refresh_true o isRefresh t :
  needs_refresh o isRefresh t = true ↔
  data o = None ∨ (t - lastUpdated o > RELOAD_TIMEOUT)%Z
  ∨ (isRefresh = true ∧ (t - lastUpdated o > FORCE_RELOAD_TIMEOUT)%Z).
Proof.
  unfold needs_refresh.
  rewrite !orb_true_iff, andb_true_iff, !bool_decide_eq_true. tauto.
Qed.

Lemma load_eq w this o arg0 :
  heap w !! this = Some o →
  load this arg0 w = BroadcastPromise_create this (load_request (cls o) arg0) w.
Proof.
  intros H. unfold load, abind. rewrite (read_eq _ _ _ H). cbn.
  by destruct (cls o).
Qed.

Lemma CacheObject_get_fresh w this o isRefresh :
  heap w !! this = Some o →
  needs_refresh o isRefresh (clock w) = false →
  CacheObject_get this isRefresh w =
    Ret (data o) (set_heap (<[this := with_lastUsed (clock w) o]>) w).
Proof.
  intros H Hc. pose proof (lookup_lt_Some _ _ _ H) as Hlt.
  unfold CacheObject_get, abind at 1.
  rewrite (refresh_condition _ _ _ _ H), Hc. cbn.
  unfold now, gets, set_lastUsed, get_data, abind. cbn.
  erewrite update_eq by exact H. cbn.
  erewrite read_eq by (cbn; by apply list_lookup_insert_eq). done.
Qed.

Lemma CacheObject_get_stale w this o isRefresh :
  heap w !! this = Some o →
  needs_refresh o isRefresh (clock w) = true →
  ∃ k, CacheObject_get this isRefresh w =
         Await (length (promises w)) (world_of (load this None w)) k
       ∧ ∀ r w', k r w' = after_load this r w'.
Proof.
  intros H Hc. pose proof (lookup_lt_Some _ _ _ H) as Hlt.
  unfold CacheObject_get, abind at 1.
  rewrite (refresh_condition _ _ _ _ H), Hc. cbn.
  unfold await_load, abind.
  rewrite (load_eq _ _ _ _ H). erewrite create_eq by exact H. cbn.
  eexists. split; [reflexivity|].
  intros [e|v] w'; cbn; [done|].
  unfold after_load, abind. done.
Qed.

Lemma after_load_err this e w' : after_load this (inl e) w' = Raise e w'.
Proof. done. Qed.

Lemma set_loaded_eq w this o v :
  heap w !! this = Some o →
  set_loaded this v w = Ret () (set_heap (<[this := with_data (loaded (cls o) v) o]>) w).
Proof. intros H. unfold set_loaded. by rewrite (update_eq _ _ _ _ H). Qed.

Lemma loaded_None c v :
  loaded c v = None ↔
  v = PUndefined ∧ ((∃ uuid url sc, c = AnalysisDataCache uuid url sc)
                    ∨ (∃ uuid url, c = AnalysisPreferenceCache uuid url)).
Proof.
  split.
  - destruct c, v; try done; intros _; split; eauto.
  - intros [-> [(uuid & url & sc & ->)|(uuid & url & ->)]]; done.
Qed.

Lemma after_load_ok this v w' o' :
  heap w' !! this = Some o' →
  after_load this (inr v) w' =
    Ret (loaded (cls o') v)
      (set_heap (<[this := with_lastUsed (clock w')
                    (with_lastUpdated (clock w') (with_data (loaded (cls o') v) o'))]>) w').
Proof.
  intros H. pose proof (lookup_lt_Some _ _ _ H) as Hlt.
  unfold after_load, set_loaded, set_lastUpdated, set_lastUsed, get_data, now, gets, abind.
  erewrite update_eq by exact H. cbn.
  erewrite update_eq by (cbn; by apply list_lookup_insert_eq). cbn.
  erewrite update_eq by (cbn; rewrite list_insert_insert_eq; by apply list_lookup_insert_eq).
  cbn.
  erewrite read_eq by (cbn; rewrite !list_insert_insert_eq; by apply list_lookup_insert_eq).
  cbn. unfold ret. f_equal. apply world_eq; cbn; try done.
  by rewrite !list_insert_insert_eq.
Qed.

(** ** One caller at a time *)

Lemma run_bind {A B} net (m : res A) (f : A → async B) :
  run net (bind m f) =
    match run net m with
    | (Returned a, w') => run net (f a w')
    | (Threw e, w') => (Threw e, w')
    | (Waiting, w') => (Waiting, w')
    end.
Proof.
  induction m as [a w|e w|p w k IH]; cbn [bind run]; try done.
  destruct (promises _ !! p) as [[|v|e]|]; try done; apply IH.
Qed.

Lemma with_broadcastPromise_idle o b :
  broadcastPromise o = idle →
  with_broadcastPromise idle (with_broadcastPromise b o) = o.
Proof. destruct o; cbn. by intros ->. Qed.

Lemma load_idle w this o arg0 :
  heap w !! this = Some o →
  broadcastPromise o = idle →
  inflight w = [] →
  load this arg0 w =
    Ret (length (promises w)) (loading w this o (load_request (cls o) arg0)).
Proof.
  intros H Hidle Hq.
  rewrite (load_eq _ _ _ _ H). erewrite create_eq by exact H.
  rewrite Hidle. cbn. f_equal. apply world_eq; cbn; rewrite ?Hq; done.
Qed.

Lemma deliver_loading w this o req r :
  heap w !! this = Some o →
  broadcastPromise o = idle →
  deliver 0 r (loading w this o req) = answered w req r.
Proof.
  intros H Hidle. pose proof (lookup_lt_Some _ _ _ H) as Hlt.
  erewrite deliver_broadcast; cycle 1.
  { cbn. reflexivity. }
  { cbn. by apply list_lookup_insert_eq. }
  apply world_eq; cbn; try done.
  - rewrite list_insert_insert_eq, with_broadcastPromise_idle by done.
    by apply list_insert_id.
  - assert (Hs : foldl (settle_in (pstate_of (body r))) (promises w ++ [Pending])
                   [length (promises w)] = promises w ++ [pstate_of (body r)]).
    { cbn. unfold settle_in. rewrite lookup_app_r by lia.
      rewrite Nat.sub_diag. cbn.
      rewrite insert_app_r_alt by lia. by rewrite Nat.sub_diag. }
    by destruct (body r).
Qed.

Lemma run_load {A} net w this o arg0 (k : result → world → res A) :
  heap w !! this = Some o →
  broadcastPromise o = idle →
  inflight w = [] →
  let req := load_request (cls o) arg0 in
  let r := net (sent w ++ [req]) in
  run net (Await (length (promises w)) (world_of (load this arg0 w)) k) =
    run net (k (body r) (answered w req r)).
Proof.
  intros H Hidle Hq req r.
  rewrite (load_idle _ _ _ _ H Hidle Hq). fold req.
  cbn [world_of run].
  assert (Hpump : pump net (length (promises w))
                    (length (inflight (loading w this o req))) (loading w this o req)
                  = answered w req r).
  { cbn [loading inflight length pump promises].
    rewrite lookup_app_r by lia. rewrite Nat.sub_diag. cbn [lookup list_lookup].
    apply (deliver_loading _ _ _ _ _ H Hidle). }
  rewrite Hpump. clear Hpump.
  assert (Hp : promises (answered w req r) !! length (promises w)
               = Some (pstate_of (body r))).
  { cbn. rewrite lookup_app_r by lia. by rewrite Nat.sub_diag. }
  rewrite Hp. by destruct (body r).
Qed.

Lemma run_CacheObject_get net w this o isRefresh :
  heap w !! this = Some o →
  broadcastPromise o = idle →
  inflight w = [] →
  run net (CacheObject_get this isRefresh w) =
    if needs_refresh o isRefresh (clock w) then
      let req := load_request (cls o) None in
      let r := net (sent w ++ [req]) in
      match body r with
      | inl e => (Threw e, answered w req r)
      | inr v =>
          (Returned (loaded (cls o) v),
           set_heap (<[this := with_lastUsed (at_time r)
                         (with_lastUpdated (at_time r) (with_data (loaded (cls o) v) o))]>)
             (answered w req r))
      end
    else (Returned (data o), set_heap (<[this := with_lastUsed (clock w) o]>) w).
Proof.
  intros H Hidle Hq.
  destruct (needs_refresh o isRefresh (clock w)) eqn:Hc.
  - destruct (CacheObject_get_stale _ _ _ _ H Hc) as (k & -> & Hk).
    rewrite (run_load _ _ _ _ _ _ H Hidle Hq). cbn zeta.
    rewrite Hk. destruct (body _) as [e|v].
    + by rewrite after_load_err.
    + erewrite after_load_ok by (cbn; exact H). done.
  - by rewrite (CacheObject_get_fresh _ _ _ _ H Hc).
Qed.

(** ** A call that joins a load in flight *)

Lemma load_joins w this o arg0 :
  heap w !! this = Some o →
  isLoading (broadcastPromise o) = true →
  load this arg0 w =
    Ret (length (promises w))
      (set_heap (<[this := with_broadcastPromise
                    (joined (length (promises w)) (broadcastPromise o)) o]>)
         (set_promises (λ ps, ps ++ [Pending]) w)).
Proof.
  intros H Hl. rewrite (load_eq _ _ _ _ H). erewrite create_eq by exact H.
  by rewrite Hl.
Qed.

Lemma run_join {A} net w this o arg0 req (k : result → world → res A) :
  heap w !! this = Some o →
  isLoading (broadcastPromise o) = true →
  inflight w = [(req, SinkBroadcast this)] →
  let r := net (sent w) in
  run net (Await (length (promises w)) (world_of (load this arg0 w)) k) =
    run net (k (body r) (joined_answered w this o r)).
Proof.
  intros H Hl Hq r. pose proof (lookup_lt_Some _ _ _ H) as Hlt.
  rewrite (load_joins _ _ _ _ H Hl). cbn [world_of run].
  set (W1 := set_heap _ _).
  assert (Hp1 : promises W1 !! length (promises w) = Some Pending).
  { cbn. rewrite lookup_app_r by lia. by rewrite Nat.sub_diag. }
  assert (Hpump : pump net (length (promises w)) (length (inflight W1)) W1
                  = joined_answered w this o r).
  { change (inflight W1) with (inflight w). rewrite Hq. cbn [length pump].
    rewrite Hp1. change (inflight W1) with (inflight w). rewrite Hq.
    change (sent W1) with (sent w). fold r.
    erewrite (deliver_broadcast W1 0 req this); cycle 1.
    { change (inflight W1) with (inflight w). by rewrite Hq. }
    { cbn. by apply list_lookup_insert_eq. }
    apply world_eq; cbn; try done.
    - by rewrite list_insert_insert_eq.
    - by rewrite Hq. }
  rewrite Hpump.
  assert (Hp : promises (joined_answered w this o r) !! length (promises w)
               = Some (pstate_of (body r))).
  { cbn. apply settle_all_pending.
    - destruct (body r); apply elem_of_app; right; by left.
    - rewrite lookup_app_r by lia. by rewrite Nat.sub_diag. }
  rewrite Hp. by destruct (body r).
Qed.

Lemma run_CacheObject_get_joins net w this o isRefresh req :
  heap w !! this = Some o →
  isLoading (broadcastPromise o) = true →
  inflight w = [(req, SinkBroadcast this)] →
  needs_refresh o isRefresh (clock w) = true →
  let r := net (sent w) in
  run net (CacheObject_get this isRefresh w) =
    match body r with
    | inl e => (Threw e, joined_answered w this o r)
    | inr v =>
        (Returned (loaded (cls o) v),
         set_heap (<[this := with_lastUsed (at_time r)
                       (with_lastUpdated (at_time r)
                          (with_data (loaded (cls o) v) (with_broadcastPromise idle o)))]>)
           (joined_answered w this o r))
    end.
Proof.
  intros H Hl Hq Hc r. pose proof (lookup_lt_Some _ _ _ H) as Hlt.
  destruct (CacheObject_get_stale _ _ _ _ H Hc) as (k & -> & Hk).
  rewrite (run_join net w this o None req k H Hl Hq). fold r.
  rewrite Hk. destruct (body r) as [e|v] eqn:Hb.
  - by rewrite after_load_err.
  - erewrite after_load_ok by (cbn; by apply list_lookup_insert_eq). done.
Qed.

(** ** The lookups of the registry *)

Lemma dict_get_own d key l : d !! key = Some l → dict_get d key = Some (Own l).
Proof. intros H. unfold dict_get. by rewrite H. Qed.

Lemma dict_get_none d key :
  d !! key = None → key ∉ Object_prototype → dict_get d key = None.
Proof. intros H Hn. unfold dict_get. by rewrite H, bool_decide_eq_false_2. Qed.

Lemma dict_get_inherited d key :
  d !! key = None → key ∈ Object_prototype → dict_get d key = Some (Inherited key).
Proof. intros H Hn. unfold dict_get. by rewrite H, bool_decide_eq_true_2. Qed.

Local Ltac getter_eq :=
  intros; unfold Cache_getRun, Cache_getRunStatus, Cache_getSession,
    Cache_getSessionStatus, Cache_getRunsList, Cache_getSessionsList, Cache_getUser,
    new_object, abind, gets, modify, ret; cbn [bind];
  first [ erewrite dict_get_own by eassumption
        | erewrite dict_get_none by eassumption
        | erewrite dict_get_inherited by eassumption
        | idtac ];
  repeat match goal with H : _ = _ |- _ => rewrite H; cbn end; try done.

Lemma getRunStatus_hit w uuid l :
  runStatuses (CACHE w) !! uuid = Some l → Cache_getRunStatus uuid w = Ret (Own l) w.
Proof. getter_eq. Qed.

Lemma getRunStatus_miss w uuid :
  runStatuses (CACHE w) !! uuid = None →
  uuid ∉ Object_prototype →
  Cache_getRunStatus uuid w =
    Ret (Own (length (heap w)))
      (set_CACHE (λ c, with_runStatuses (<[uuid := length (heap w)]> (runStatuses c)) c)
         (set_heap (λ h, h ++ [new_CacheObject (RunStatusCache uuid)]) w)).
Proof. getter_eq. Qed.

Lemma getRunStatus_inherited w uuid :
  runStatuses (CACHE w) !! uuid = None →
  uuid ∈ Object_prototype →
  Cache_getRunStatus uuid w = Ret (Inherited uuid) w.
Proof. getter_eq. Qed.

Lemma getSessionStatus_hit w uuid l :
  sessionStatuses (CACHE w) !! uuid = Some l →
  Cache_getSessionStatus uuid w = Ret (Own l) w.
Proof. getter_eq. Qed.

Lemma getSessionStatus_miss w uuid :
  sessionStatuses (CACHE w) !! uuid = None →
  uuid ∉ Object_prototype →
  Cache_getSessionStatus uuid w =
    Ret (Own (length (heap w)))
      (set_CACHE (λ c, with_sessionStatuses
                         (<[uuid := length (heap w)]> (sessionStatuses c)) c)
         (set_heap (λ h, h ++ [new_CacheObject (SessionStatusCache uuid)]) w)).
Proof. getter_eq. Qed.

Lemma getSessionStatus_inherited w uuid :
  sessionStatuses (CACHE w) !! uuid = None →
  uuid ∈ Object_prototype →
  Cache_getSessionStatus uuid w = Ret (Inherited uuid) w.
Proof. getter_eq. Qed.

Lemma getSession_hit w uuid l :
  sessions (CACHE w) !! uuid = Some l → Cache_getSession uuid w = Ret (Own l) w.
Proof. getter_eq. Qed.

Lemma getSession_miss w uuid :
  sessions (CACHE w) !! uuid = None →
  uuid ∉ Object_prototype →
  Cache_getSession uuid w =
    Ret (Own (length (heap w)))
      (set_CACHE (λ c, with_sessions (<[uuid := length (heap w)]> (sessions c)) c)
         (set_heap (λ h, h ++ [new_CacheObject (SessionCache uuid)]) w)).
Proof. getter_eq. Qed.

Lemma getSession_inherited w uuid :
  sessions (CACHE w) !! uuid = None →
  uuid ∈ Object_prototype →
  Cache_getSession uuid w = Ret (Inherited uuid) w.
Proof. getter_eq. Qed.

Lemma getRunsList_hit w l :
  runsList (CACHE w) = Some l → Cache_getRunsList w = Ret l w.
Proof. getter_eq. Qed.

Lemma getRunsList_miss w :
  runsList (CACHE w) = None →
  Cache_getRunsList w =
    Ret (length (heap w))
      (set_CACHE (with_runsList (Some (length (heap w))))
         (set_heap (λ h, h ++ [new_CacheObject RunsListCache]) w)).
Proof. getter_eq. Qed.

Lemma getSessionsList_hit w l :
  sessionsList (CACHE w) = Some l → Cache_getSessionsList w = Ret l w.
Proof. getter_eq. Qed.

Lemma getSessionsList_miss w :
  sessionsList (CACHE w) = None →
  Cache_getSessionsList w =
    Ret (length (heap w))
      (set_CACHE (with_sessionsList (Some (length (heap w))))
         (set_heap (λ h, h ++ [new_CacheObject SessionsListCache]) w)).
Proof. getter_eq. Qed.

Lemma getUser_hit w l : user (CACHE w) = Some l → Cache_getUser w = Ret l w.
Proof. getter_eq. Qed.

Lemma getUser_miss w :
  user (CACHE w) = None →
  Cache_getUser w =
    Ret (length (heap w))
      (set_CACHE (with_user (Some (length (heap w))))
         (set_heap (λ h, h ++ [new_CacheObject UserCache]) w)).
Proof. getter_eq. Qed.

Lemma own_eq (m : async loc) w l w1 : m w = Ret l w1 → own m w = Ret (Own l) w1.
Proof. intros H. unfold own, abind. by rewrite H. Qed.

Lemma getRun_hit w uuid l :
  runs (CACHE w) !! uuid = Some l → Cache_getRun uuid w = Ret (Own l) w.
Proof. getter_eq. Qed.

Lemma getRun_inherited w uuid :
  runs (CACHE w) !! uuid = None →
  uuid ∈ Object_prototype →
  Cache_getRun uuid w = Ret (Inherited uuid) w.
Proof. getter_eq. Qed.

(** A run that is not registered: its status is looked up, or made, first. *)
Lemma getRun_miss w uuid :
  runs (CACHE w) !! uuid = None →
  uuid ∉ Object_prototype →
  ∃ sc w1,
    Cache_getRunStatus uuid w = Ret (Own sc) w1 ∧
    Cache_getRun uuid w =
      Ret (Own (length (heap w1)))
        (set_CACHE (λ c, with_runs (<[uuid := length (heap w1)]> (runs c)) c)
           (set_heap (λ h, h ++ [new_CacheObject (RunCache uuid sc)]) w1)).
Proof.
  intros H Hn. destruct (runStatuses (CACHE w) !! uuid) as [sc|] eqn:Hs.
  - exists sc, w. split; [by apply getRunStatus_hit|].
    unfold Cache_getRun. unfold abind at 1. unfold gets at 1. cbn [bind].
    rewrite (dict_get_none _ _ H Hn). unfold abind at 1.
    rewrite (getRunStatus_hit _ _ _ Hs). done.
  - eexists _, _. split; [by apply getRunStatus_miss|].
    unfold Cache_getRun. unfold abind at 1. unfold gets at 1. cbn [bind].
    rewrite (dict_get_none _ _ H Hn). unfold abind at 1.
    rewrite (getRunStatus_miss _ _ Hs Hn). done.
Qed.

(** * The claims *)

(** ** C1: one load for all concurrent calls of [create] *)

(** C1. Take [N >= 1] calls of [create] on an idle [BroadcastPromise], made
    before the transport answers, each with its own [load].  Only the [load]
    of the first call is run: one request is sent.  The calls return [N]
    distinct promises, all pending.  When the load settles, every one of
    them is settled with its value, or every one with its error, and the
    [BroadcastPromise] is idle again, with both lists empty.  The [create]
    that comes next runs its own [load] and is the only waiter of the new
    cycle. *)
Theorem create_coalesces (w : world) (this : loc) (o : CacheObject)
    (loads : list request) (r : response) :
  heap w !! this = Some o →
  broadcastPromise o = idle →
  length loads ≥ 1 →
  ∃ ps w1,
    creates this loads w = Ret ps w1 ∧
    length ps = length loads ∧ NoDup ps ∧
    sent w1 = sent w ++ take 1 loads ∧
    inflight w1 = inflight w ++ ((λ l, (l, SinkBroadcast this)) <$> take 1 loads) ∧
    (∀ p, p ∈ ps → promises w1 !! p = Some Pending) ∧
    (let w2 := deliver (length (inflight w)) r w1 in
    (∀ p, p ∈ ps → promises w2 !! p = Some (pstate_of (body r))) ∧
    broadcastPromise <$> heap w2 !! this = Some idle ∧
    sent w2 = sent w1 ∧ inflight w2 = inflight w ∧
    ∀ load', ∃ p' w3,
      BroadcastPromise_create this load' w2 = Ret p' w3 ∧
      (p' ∉ ps) ∧ promises w3 !! p' = Some Pending ∧
      sent w3 = sent w2 ++ [load'] ∧
      broadcastPromise <$> heap w3 !! this =
        Some {| isLoading := true; resolvers := [p']; rejectors := [p'] |}).
Proof.
  intros H Hidle Hn. destruct loads as [|l ls]; [cbn in Hn; lia|]. clear Hn.
  pose proof (lookup_lt_Some _ _ _ H) as Hlt.
  rewrite (creates_idle _ _ _ _ _ H Hidle).
  set (P := length (promises w)). set (n := S (length ls)).
  do 2 eexists. split; [reflexivity|]. cbn [sent inflight promises take fmap list_fmap].
  split. { by rewrite length_seq. }
  split. { apply NoDup_seq. }
  split; [done|]. split; [done|].
  assert (Hpend : ∀ p, p ∈ seq P n → (promises w ++ replicate n Pending) !! p = Some Pending).
  { intros p Hp. apply elem_of_seq in Hp.
    rewrite lookup_app_r by (unfold P in *; lia).
    apply lookup_replicate_2. unfold P in *. lia. }
  split; [exact Hpend|].
  erewrite deliver_broadcast; cycle 1.
  { cbn [inflight]. rewrite lookup_app_r by lia. by rewrite Nat.sub_diag. }
  { cbn [heap]. by apply list_lookup_insert_eq. }
  cbn [heap promises sent inflight broadcastPromise with_broadcastPromise
       resolvers rejectors].
  rewrite list_insert_insert_eq, delete_last.
  assert (Hsame : match body r with inl _ => seq P n | inr _ => seq P n end = seq P n)
    by (by destruct (body r)).
  rewrite Hsame. clear Hsame.
  split. { intros p Hp. apply settle_all_pending; auto. }
  split. { rewrite list_lookup_insert_eq by done. done. }
  split; [done|]. split; [done|].
  intros load'. erewrite create_eq; cycle 1.
  { cbn [heap]. by apply list_lookup_insert_eq. }
  cbn [broadcastPromise with_broadcastPromise idle new_BroadcastPromise isLoading promises].
  do 2 eexists. split; [reflexivity|].
  cbn [heap promises sent set_inflight set_sent set_heap set_promises].
  rewrite settle_all_length, length_app, length_replicate.
  split. { rewrite elem_of_seq. unfold P. lia. }
  split. { rewrite lookup_app_r by (rewrite settle_all_length, length_app, length_replicate; lia).
           rewrite settle_all_length, length_app, length_replicate.
           by rewrite Nat.sub_diag. }
  split; [done|].
  rewrite list_lookup_insert_eq by (by rewrite length_insert). done.
Qed.

Lemma create_coalesces_witness :
  let w := world0 [entry UserCache None 0] 0 in
  ∃ ps w1, creates 0 [getUser; getUser; getUser] w = Ret ps w1
           ∧ length ps = 3 ∧ sent w1 = [getUser].
Proof.
  intros w.
  destruct (create_coalesces w 0 (entry UserCache None 0) [getUser; getUser; getUser]
              {| body := inl (NetworkError 500); at_time := 10 |} eq_refl eq_refl)
    as (ps & w1 & H1 & H2 & _ & H3 & _).
  - cbn. lia.
  - exists ps, w1. repeat split; assumption.
Defined.

(** ** C2: when [CacheObject.get] refreshes *)

Lemma load_starts w this o arg0 :
  heap w !! this = Some o →
  ∃ w1, load this arg0 w = Ret (length (promises w)) w1 ∧
        sent w1 = (if isLoading (broadcastPromise o) then sent w
                   else sent w ++ [load_request (cls o) arg0]).
Proof.
  intros H. rewrite (load_eq _ _ _ _ H). erewrite create_eq by exact H.
  eexists. split; [reflexivity|]. by destruct (isLoading _).
Qed.

(** C2. [CacheObject.get(isRefresh)] calls [load] and waits for it exactly
    when the value is absent, or older than [RELOAD_TIMEOUT] (60 s), or
    [isRefresh] is set and it is older than [FORCE_RELOAD_TIMEOUT] (5 s).
    When the load succeeds the value it resolved with is stored and
    [lastUpdated] becomes the time read then.  In every other case [get]
    returns the stored value at once: no call is made and only [lastUsed]
    changes. *)
Theorem CacheObject_get_refresh_iff (w : world) (this : loc) (o : CacheObject)
    (isRefresh : bool) :
  heap w !! this = Some o →
  RELOAD_TIMEOUT = 60000%Z ∧ FORCE_RELOAD_TIMEOUT = 5000%Z ∧
  let stale :=
    data o = None
    ∨ (clock w - lastUpdated o > RELOAD_TIMEOUT)%Z
    ∨ (isRefresh = true ∧ (clock w - lastUpdated o > FORCE_RELOAD_TIMEOUT)%Z) in
  (stale →
     ∃ p w1 k,
       load this None w = Ret p w1 ∧
       CacheObject_get this isRefresh w = Await p w1 k ∧
       sent w1 = (if isLoading (broadcastPromise o) then sent w
                  else sent w ++ [load_request (cls o) None]) ∧
       ∀ v w' o', heap w' !! this = Some o' →
         k (inr v) w' =
           Ret (loaded (cls o') v)
             (set_heap (<[this := with_lastUsed (clock w')
                           (with_lastUpdated (clock w')
                              (with_data (loaded (cls o') v) o'))]>) w'))
  ∧ (¬ stale →
       CacheObject_get this isRefresh w =
         Ret (data o) (set_heap (<[this := with_lastUsed (clock w) o]>) w)
       ∧ sent (world_of (CacheObject_get this isRefresh w)) = sent w).
Proof.
  intros H. split; [done|]. split; [done|]. intros stale. split.
  - intros Hs. apply needs_refresh_true in Hs.
    destruct (CacheObject_get_stale _ _ _ _ H Hs) as (k & Hget & Hk).
    destruct (load_starts _ _ _ None H) as (w1 & Hload & Hsent).
    rewrite Hload in Hget. cbn in Hget.
    exists (length (promises w)), w1, k. repeat split; try done.
    intros v w' o' H'. rewrite Hk. by apply after_load_ok.
  - intros Hs.
    assert (Hc : needs_refresh o isRefresh (clock w) = false).
    { destruct (needs_refresh o isRefresh (clock w)) eqn:Hc; [|done].
      by apply needs_refresh_true in Hc. }
    rewrite (CacheObject_get_fresh _ _ _ _ H Hc). done.
Qed.

Lemma CacheObject_get_refresh_iff_witness :
  let w := world0 [entry UserCache (Some (PUser 7)) 0] 1000 in
  CacheObject_get 0 false w =
    Ret (Some (PUser 7)) (set_heap (<[0 := with_lastUsed 1000 (entry UserCache (Some (PUser 7)) 0)]>) w).
Proof.
  intros w.
  refine (proj1 (proj2 (proj2 (proj2
    (CacheObject_get_refresh_iff w 0 (entry UserCache (Some (PUser 7)) 0) false eq_refl))) _)).
  cbn. intros [Hd|[Ht|[Hr _]]]; [done|unfold RELOAD_TIMEOUT in Ht; lia|done].
Defined.

(** ** C5: a failed load with a value in store *)

(** C5, as it is written, fails: with a value in store that is older than
    [RELOAD_TIMEOUT], a failing load makes [get] fail; the stored value is
    not returned. *)
Lemma stale_value_not_served_on_error :
  let o := entry UserCache (Some (PUser 7)) 0 in
  let w := world0 [o] 61000 in
  let net := answers (inl (NetworkError 500)) 61500 in
  data o = Some (PUser 7) ∧
  (clock w - lastUpdated o > RELOAD_TIMEOUT)%Z ∧
  (run net (CacheObject_get 0 false w)).1 = Threw (NetworkError 500) ∧
  (run net (CacheObject_get 0 false w)).1 ≠ Returned (Some (PUser 7)).
Proof. cbn. repeat split; done. Qed.

(** C5, amended.  When [get] has to refresh and the load fails, [get] fails
    with the error of the load, whether a value is in store or not; the heap,
    and with it the stored value, is as before. *)
Theorem get_fails_when_load_fails (net : transport) (w : world) (this : loc)
    (o : CacheObject) (isRefresh : bool) (e : error) :
  heap w !! this = Some o →
  broadcastPromise o = idle →
  inflight w = [] →
  data o = None
    ∨ (clock w - lastUpdated o > RELOAD_TIMEOUT)%Z
    ∨ (isRefresh = true ∧ (clock w - lastUpdated o > FORCE_RELOAD_TIMEOUT)%Z) →
  body (net (sent w ++ [load_request (cls o) None])) = inl e →
  ∃ w', run net (CacheObject_get this isRefresh w) = (Threw e, w')
        ∧ heap w' = heap w
        ∧ sent w' = sent w ++ [load_request (cls o) None].
Proof.
  intros H Hidle Hq Hs He. apply needs_refresh_true in Hs.
  rewrite (run_CacheObject_get _ _ _ _ _ H Hidle Hq), Hs. cbn zeta. rewrite He.
  eexists. split; [reflexivity|]. done.
Qed.

Lemma get_fails_when_load_fails_witness :
  let w := world0 [entry UserCache (Some (PUser 7)) 0] 61000 in
  ∃ w', run (answers (inl (NetworkError 500)) 61500) (CacheObject_get 0 false w)
        = (Threw (NetworkError 500), w')
        ∧ heap w' = heap w ∧ sent w' = [getUser].
Proof.
  intros w.
  refine (get_fails_when_load_fails (answers (inl (NetworkError 500)) 61500) w 0
            (entry UserCache (Some (PUser 7)) 0) false (NetworkError 500)
            eq_refl eq_refl eq_refl _ eq_refl).
  right. left. cbn. unfold RELOAD_TIMEOUT. lia.
Defined.

(** ** C8: [invalidate_cache] *)

(** C8, as it is written, fails: a [get] that follows [invalidate_cache]
    while a load of the object is in flight performs no fetch.  It joins the
    load in flight, and both calls end with the answer to the request that
    was sent before the invalidation. *)
Lemma get_after_invalidate_joins_load :
  let o := entry UserCache (Some (PUser 1)) 0 in
  let w := world0 [o] 61000 in
  let l1 := calls [CacheObject_get 0 false] w in
  let w2 := world_of (invalidate_cache 0 l1.2) in
  let l3 := call (CacheObject_get 0 false) (l1.1, w2) in
  let l4 := respond 0 {| body := inr (PUser 2); at_time := 61200 |} l3 in
  sent l1.2 = [getUser] ∧
  data <$> heap w2 !! 0 = Some None ∧
  sent l3.2 = sent w2 ∧ inflight l3.2 = inflight w2 ∧
  l4.1 = [Done (Some (PUser 2)); Done (Some (PUser 2))] ∧
  sent l4.2 = [getUser].
Proof. vm_compute. repeat split; reflexivity. Qed.

(** C8, amended.  [invalidate_cache] writes [data] and nothing else:
    [lastUpdated], [lastUsed] and the rest of the world stay.  The [get]
    that follows calls [load] and waits for it, whatever the clock shows and
    whatever [lastUpdated] is.  That sends a request when no load of the
    object is in flight: with the coalescer idle it is exactly one call to
    the transport.  When a load is in flight the [get] joins it: nothing is
    sent, and the answer to the request in flight is what [get] returns and
    stores. *)
Theorem invalidate_then_get (net : transport) (w : world) (this : loc)
    (o : CacheObject) (isRefresh : bool) (t : Z) :
  heap w !! this = Some o →
  let o' := with_data None o in
  let w0 := set_heap (<[this := o']>) w in
  let req := load_request (cls o) None in
  let out := run net (CacheObject_get this isRefresh (set_clock t w0)) in
  invalidate_cache this w = Ret () w0 ∧
  (data o' = None ∧ lastUpdated o' = lastUpdated o ∧ lastUsed o' = lastUsed o
   ∧ broadcastPromise o' = broadcastPromise o ∧ cls o' = cls o) ∧
  (promises w0 = promises w ∧ inflight w0 = inflight w ∧ sent w0 = sent w
   ∧ clock w0 = clock w ∧ CACHE w0 = CACHE w
   ∧ ∀ l, l ≠ this → heap w0 !! l = heap w !! l) ∧
  (∃ p w1 k,
     load this None (set_clock t w0) = Ret p w1 ∧
     CacheObject_get this isRefresh (set_clock t w0) = Await p w1 k ∧
     sent w1 = (if isLoading (broadcastPromise o) then sent w else sent w ++ [req]) ∧
     inflight w1 = (if isLoading (broadcastPromise o) then inflight w
                    else inflight w ++ [(req, SinkBroadcast this)])) ∧
  (broadcastPromise o = idle → inflight w = [] → sent out.2 = sent w ++ [req]) ∧
  (isLoading (broadcastPromise o) = true →
   ∀ req0, inflight w = [(req0, SinkBroadcast this)] →
     sent out.2 = sent w ∧
     ∀ v, body (net (sent w)) = inr v →
       out.1 = Returned (loaded (cls o) v) ∧
       data <$> heap out.2 !! this = Some (loaded (cls o) v)).
Proof.
  intros H o' w0 req out. pose proof (lookup_lt_Some _ _ _ H) as Hlt.
  assert (H0 : heap (set_clock t w0) !! this = Some o')
    by (cbn; by apply list_lookup_insert_eq).
  assert (Hc : needs_refresh o' isRefresh (clock (set_clock t w0)) = true) by done.
  split. { unfold invalidate_cache, set_data. by erewrite update_eq. }
  split; [done|].
  split. { repeat split; try done. intros l Hl. cbn. by apply list_lookup_insert_ne. }
  split; [|split].
  - destruct (CacheObject_get_stale _ _ _ _ H0 Hc) as (k & Hget & _).
    rewrite (load_eq _ _ _ _ H0) in Hget |- *.
    erewrite create_eq in Hget |- * by exact H0.
    do 3 eexists. split; [reflexivity|]. split; [exact Hget|].
    cbn [broadcastPromise o' with_data].
    by destruct (isLoading (broadcastPromise o)).
  - intros Hidle Hq. subst out.
    rewrite (run_CacheObject_get net _ _ _ isRefresh H0 Hidle Hq), Hc. cbn zeta.
    by destruct (body _).
  - intros Hl req0 Hq. subst out.
    rewrite (run_CacheObject_get_joins net _ _ o' isRefresh req0 H0 Hl Hq Hc).
    cbn zeta. change (sent (set_clock t w0)) with (sent w).
    split; [by destruct (body _)|].
    intros v ->. split; [done|].
    cbn. rewrite list_lookup_insert_eq; [done|]. by rewrite !length_insert.
Qed.

Lemma invalidate_then_get_witness :
  let o := entry UserCache (Some (PUser 7)) 1000 in
  let w := world0 [o] 1000 in
  let w0 := set_heap (<[0 := with_data None o]>) w in
  let net := answers (inr (PUser 8)) 1002 in
  let o_l := with_broadcastPromise
               {| isLoading := true; resolvers := [0]; rejectors := [0] |} o in
  let w_l := loading_n w 0 o getUser 1 in
  let w0_l := set_heap (<[0 := with_data None o_l]>) w_l in
  invalidate_cache 0 w = Ret () w0 ∧
  sent (run net (CacheObject_get 0 false (set_clock 1001 w0))).2 = [getUser] ∧
  sent w_l = [getUser] ∧
  sent (run net (CacheObject_get 0 false (set_clock 1001 w0_l))).2 = [getUser].
Proof.
  intros o w w0 net o_l w_l w0_l.
  destruct (invalidate_then_get net w 0 o false 1001 eq_refl)
    as (H1 & _ & _ & _ & H5 & _).
  destruct (invalidate_then_get net w_l 0 o_l false 1001 eq_refl)
    as (_ & _ & _ & _ & _ & H6).
  split; [exact H1|]. split; [exact (H5 eq_refl eq_refl)|]. split; [reflexivity|].
  exact (proj1 (H6 eq_refl getUser eq_refl)).
Defined.

(** ** C7: optimistic removal *)

Lemma keep_runs_filter ids rs :
  keep_runs ids rs = filter (λ r, run_uuid r ∉ ids) rs.
Proof.
  unfold keep_runs.
  assert (Hg : ∀ acc, foldl (λ runs run,
             if negb (includes ids (run_uuid run)) then runs ++ [run] else runs) acc rs
           = acc ++ filter (λ r, run_uuid r ∉ ids) rs); [|apply Hg].
  induction rs as [|r rs IH]; intros acc; cbn [foldl].
  - by rewrite filter_nil, app_nil_r.
  - rewrite IH, filter_cons. unfold includes.
    destruct (decide (run_uuid r ∉ ids)) as [Hn|Hn].
    + rewrite bool_decide_eq_false_2 by done. cbn. by rewrite <- app_assoc.
    + rewrite bool_decide_eq_true_2 by (by apply dec_stable). done.
Qed.

Lemma keep_sessions_filter (ids : StringSet) ss :
  keep_sessions ids ss = filter (λ s, session_uuid s ∉ Set_entries ids) ss.
Proof.
  unfold keep_sessions.
  assert (Hg : ∀ acc, foldl (λ sessions session,
             if negb (Set_has ids (session_uuid session))
             then sessions ++ [session] else sessions) acc ss
           = acc ++ filter (λ s, session_uuid s ∉ Set_entries ids) ss); [|apply Hg].
  induction ss as [|s ss IH]; intros acc; cbn [foldl].
  - by rewrite filter_nil, app_nil_r.
  - rewrite IH, filter_cons. unfold Set_has.
    destruct (decide (session_uuid s ∉ Set_entries ids)) as [Hn|Hn].
    + rewrite bool_decide_eq_false_2 by done. cbn. by rewrite <- app_assoc.
    + rewrite bool_decide_eq_true_2 by (by apply dec_stable). done.
Qed.

Lemma await_call_issues (w : world) (req : request) :
  issues (p ← new_promise; NETWORK req (SinkPromise p);; await p;; ret ()) w (heap w) req.
Proof.
  unfold issues, new_promise, NETWORK, await, gets, modify, abind, ret. cbn.
  do 3 eexists. split; [reflexivity|]. cbn.
  repeat split; try done.
  - rewrite lookup_app_r by lia. by rewrite Nat.sub_diag.
Qed.

(** C7. With a collection in store, [deleteRuns] and [deleteSessions] first
    replace it by the collection without the listed items, in the same
    order, and then send the deletion, which carries the identifiers in the
    order of the array, or in the insertion order of the set: when the
    method stops at its [await] the store already holds the shortened
    collection and the call is still unanswered.  A failing call makes the
    method fail and writes nothing, so the removal stays; with nothing in
    store the heap is not touched. *)
Theorem delete_is_optimistic (w : world) (this : loc) (o : CacheObject)
    (runUUIDS : list string) (sessionUUIDS : StringSet) :
  heap w !! this = Some o →
  (∀ rs, data o = Some (PRunsList rs) →
     issues (RunsListCache_deleteRuns this runUUIDS) w
       (<[this := with_data (Some (PRunsList (filter (λ r, run_uuid r ∉ runUUIDS) rs))) o]>
          (heap w))
       (deleteRuns runUUIDS))
  ∧ (∀ ss, data o = Some (PSessionsList ss) →
     issues (SessionsListCache_deleteSessions this sessionUUIDS) w
       (<[this := with_data
            (Some (PSessionsList
                     (filter (λ s, session_uuid s ∉ Set_entries sessionUUIDS) ss))) o]>
          (heap w))
       (deleteSessions (Set_entries sessionUUIDS)))
  ∧ (data o = None →
     issues (RunsListCache_deleteRuns this runUUIDS) w (heap w) (deleteRuns runUUIDS)
     ∧ issues (SessionsListCache_deleteSessions this sessionUUIDS) w (heap w)
         (deleteSessions (Set_entries sessionUUIDS))).
Proof.
  intros H. split; [|split].
  - intros rs Hd.
    destruct (await_call_issues (set_heap (<[this := with_data
       (Some (PRunsList (filter (λ r, run_uuid r ∉ runUUIDS) rs))) o]>) w)
       (deleteRuns runUUIDS)) as (p & w1 & k & Hm & Hrest).
    exists p, w1, k. split; [|exact Hrest].
    unfold RunsListCache_deleteRuns, get_data, set_data, abind.
    rewrite (read_eq _ _ _ H). cbn [bind ret]. rewrite Hd.
    erewrite update_eq by exact H. cbn [bind]. rewrite keep_runs_filter. exact Hm.
  - intros ss Hd.
    destruct (await_call_issues (set_heap (<[this := with_data
       (Some (PSessionsList (filter (λ s, session_uuid s ∉ Set_entries sessionUUIDS) ss))) o]>) w)
       (deleteSessions (Set_entries sessionUUIDS))) as (p & w1 & k & Hm & Hrest).
    exists p, w1, k. split; [|exact Hrest].
    unfold SessionsListCache_deleteSessions, get_data, set_data, abind.
    rewrite (read_eq _ _ _ H). cbn [bind ret]. rewrite Hd.
    erewrite update_eq by exact H. cbn [bind]. rewrite keep_sessions_filter. exact Hm.
  - intros Hd. split.
    + destruct (await_call_issues w (deleteRuns runUUIDS)) as (p & w1 & k & Hm & Hrest).
      exists p, w1, k. split; [|exact Hrest].
      unfold RunsListCache_deleteRuns, get_data, abind.
      rewrite (read_eq _ _ _ H). cbn [bind ret]. rewrite Hd. exact Hm.
    + destruct (await_call_issues w (deleteSessions (Set_entries sessionUUIDS)))
        as (p & w1 & k & Hm & Hrest).
      exists p, w1, k. split; [|exact Hrest].
      unfold SessionsListCache_deleteSessions, get_data, abind.
      rewrite (read_eq _ _ _ H). cbn [bind ret]. rewrite Hd. exact Hm.
Qed.

Lemma delete_is_optimistic_witness :
  let o := entry RunsListCache (Some (PRunsList [run_a; run_b; run_c])) 0 in
  let so := entry SessionsListCache (Some (PSessionsList [session_a; session_b])) 0 in
  issues (RunsListCache_deleteRuns 0 ["b"%string]) (world0 [o] 10)
    [with_data (Some (PRunsList [run_a; run_c])) o] (deleteRuns ["b"%string])
  ∧ issues (SessionsListCache_deleteSessions 0 ids_a_c) (world0 [so] 10)
      [with_data (Some (PSessionsList [session_b])) so]
      (deleteSessions ["a"%string; "c"%string]).
Proof.
  intros o so. split.
  - exact (proj1 (delete_is_optimistic (world0 [o] 10) 0 o ["b"%string] no_ids eq_refl)
             [run_a; run_b; run_c] eq_refl).
  - exact (proj1 (proj2 (delete_is_optimistic (world0 [so] 10) 0 so [] ids_a_c eq_refl))
             [session_a; session_b] eq_refl).
Defined.

(** ** C10: [SessionCache] *)

(** C10. [SessionCache] has no [get] of its own: the call is
    [CacheObject.get], which refreshes on the conditions of C2 alone, among
    them an age above [RELOAD_TIMEOUT] whatever any status says.  No other
    object is read or written: with any object [s'] put in place of another
    one, in particular of the [SessionStatusCache] of the same uuid, the
    call ends the same way, it leaves that object as it was, and the only
    request it can send is [getSession]. *)
Theorem SessionCache_get_is_base (net : transport) (w : world) (this st : loc)
    (o s' : CacheObject) (uuid : string) (isRefresh : bool) (arg0 : option string) :
  heap w !! this = Some o →
  cls o = SessionCache uuid →
  get this isRefresh arg0 w = CacheObject_get this isRefresh w ∧
  ((clock w - lastUpdated o > RELOAD_TIMEOUT)%Z →
     ∃ p w1 k, load this None w = Ret p w1 ∧ get this isRefresh arg0 w = Await p w1 k) ∧
  (st ≠ this → broadcastPromise o = idle → inflight w = [] →
     let w_s := set_heap (<[st := s']>) w in
     (run net (get this isRefresh arg0 w_s)).1 = (run net (get this isRefresh arg0 w)).1 ∧
     (run net (get this isRefresh arg0 w_s)).2
       = set_heap (<[st := s']>) (run net (get this isRefresh arg0 w)).2 ∧
     heap (run net (get this isRefresh arg0 w)).2 !! st = heap w !! st ∧
     (sent (run net (get this isRefresh arg0 w)).2 = sent w
      ∨ sent (run net (get this isRefresh arg0 w)).2 = sent w ++ [getSession uuid])).
Proof.
  intros H Hcls.
  assert (Hget : ∀ w0, heap w0 !! this = Some o →
            get this isRefresh arg0 w0 = CacheObject_get this isRefresh w0).
  { intros w0 H0. unfold get, abind. rewrite (read_eq _ _ _ H0). cbn [bind].
    by rewrite Hcls. }
  split; [by apply Hget|]. split.
  - intros Hold. rewrite (Hget _ H).
    assert (Hc : needs_refresh o isRefresh (clock w) = true).
    { apply needs_refresh_true. tauto. }
    destruct (CacheObject_get_stale _ _ _ _ H Hc) as (k & Hk & _).
    destruct (load_starts _ _ _ None H) as (w1 & Hload & _).
    rewrite Hload in Hk. eauto.
  - intros Hne Hidle Hq w_s.
    assert (Hs : heap w_s !! this = Some o).
    { cbn. rewrite list_lookup_insert_ne by done. exact H. }
    rewrite (Hget _ H), (Hget _ Hs).
    rewrite (run_CacheObject_get net _ _ _ isRefresh H Hidle Hq).
    rewrite (run_CacheObject_get net _ _ _ isRefresh Hs Hidle Hq).
    cbn [clock w_s set_heap sent]. rewrite Hcls. cbn [load_request].
    destruct (needs_refresh o isRefresh (clock w)); cbn zeta.
    + destruct (body (net (sent w ++ [getSession uuid]))) as [e|v]; cbn [fst snd].
      * repeat split; try done. by right.
      * repeat split.
        -- apply world_eq; cbn; try done. by apply list_insert_insert_ne.
        -- cbn. by apply list_lookup_insert_ne.
        -- by right.
    + cbn [fst snd]. repeat split.
      * apply world_eq; cbn; try done. by apply list_insert_insert_ne.
      * cbn. by apply list_lookup_insert_ne.
      * by left.
Qed.

Lemma SessionCache_get_is_base_witness :
  let w := world_of ((Cache_getSession "s";; Cache_getSessionStatus "s") (world0 [] 100000)) in
  sessionStatuses (CACHE w) !! "s"%string = Some 1 ∧
  get 0 false None w = CacheObject_get 0 false w.
Proof.
  intros w. split; [vm_compute; reflexivity|].
  refine (proj1 (SessionCache_get_is_base (answers (inr PUndefined) 0) w 0 1
            (entry (SessionCache "s") None 0) (entry (SessionStatusCache "s") None 0)
            "s" false None _ eq_refl)).
  vm_compute. reflexivity.
Defined.

(** ** C4: [Cache.invalidateCache] *)

(** C4, as it is written, fails: a [RunsListCache] handed out by the registry
    and filled at 1200 ms still serves its value at 2000 ms, after
    [invalidateCache]; no call is made. *)
Lemma stale_reference_survives_invalidateCache :
  let net := answers (inr (PRunsList [run_a])) 1200 in
  let w1 := (run net ((l ← Cache_getRunsList; get l false None) (world0 [] 1000))).2 in
  let w2 := set_clock 2000 (world_of (Cache_invalidateCache w1)) in
  runsList (CACHE w1) = Some 0 ∧
  data <$> heap w1 !! 0 = Some (Some (PRunsList [run_a])) ∧
  sent w1 = [getRuns None] ∧
  runsList (CACHE w2) = None ∧
  run net (get 0 false None w2) = (Returned (Some (PRunsList [run_a])), w2) ∧
  sent w2 = [getRuns None].
Proof. vm_compute. repeat split; reflexivity. Qed.

Lemma new_object_eq c w :
  new_object c w = Ret (length (heap w)) (set_heap (λ h, h ++ [new_CacheObject c]) w).
Proof. done. Qed.

Lemma await_load_eq w this o arg0 :
  heap w !! this = Some o →
  ∃ w1 k, await_load this arg0 w = Await (length (promises w)) w1 k ∧
    load this arg0 w = Ret (length (promises w)) w1 ∧
    sent w1 = (if isLoading (broadcastPromise o) then sent w
               else sent w ++ [load_request (cls o) arg0]) ∧
    ∀ r w', k r w' = match r with inl e => Raise e w' | inr v => Ret v w' end.
Proof.
  intros H. destruct (load_starts _ _ _ arg0 H) as (w1 & Hload & Hsent).
  unfold await_load, abind. rewrite Hload. cbn.
  do 2 eexists. split; [reflexivity|]. repeat split; done.
Qed.

(** An object without a value, in no cycle: [get] waits for a call it has
    just sent. *)
Lemma get_empty_object w l o isRefresh arg0 :
  heap w !! l = Some o →
  data o = None →
  broadcastPromise o = idle →
  match cls o with
  | RunCache _ sc | AnalysisDataCache _ _ sc =>
      ∃ so, heap w !! sc = Some so ∧ data so = None ∧ broadcastPromise so = idle
  | _ => True
  end →
  ∃ p w1 k req, get l isRefresh arg0 w = Await p w1 k ∧ sent w1 = sent w ++ [req].
Proof.
  intros H Hd Hidle Hsc.
  assert (Hc : ∀ b, needs_refresh o b (clock w) = true).
  { intros b. apply needs_refresh_true. by left. }
  assert (Hbase : ∃ p w1 k req,
            CacheObject_get l isRefresh w = Await p w1 k ∧ sent w1 = sent w ++ [req]).
  { destruct (CacheObject_get_stale _ _ _ _ H (Hc isRefresh)) as (k & Hk & _).
    destruct (load_starts _ _ _ None H) as (w1 & Hload & Hsent).
    rewrite Hload in Hk. rewrite Hidle in Hsent. cbn in Hk, Hsent. eauto 10. }
  assert (Hcoupled : ∀ sc so, heap w !! sc = Some so → data so = None →
            broadcastPromise so = idle →
            ∀ f : option payload → async (option payload),
            ∃ p w1 k req,
              bind (CacheObject_get sc false w) f = Await p w1 k
              ∧ sent w1 = sent w ++ [req]).
  { intros sc so Hso Hsd Hsi f.
    assert (Hcs : needs_refresh so false (clock w) = true)
      by (apply needs_refresh_true; by left).
    destruct (CacheObject_get_stale _ _ _ _ Hso Hcs) as (k & Hk & _).
    destruct (load_starts _ _ _ None Hso) as (w1 & Hload & Hsent).
    rewrite Hload in Hk. rewrite Hsi in Hsent. cbn in Hk, Hsent. rewrite Hk. cbn. eauto 10. }
  unfold get, abind. rewrite (read_eq _ _ _ H). cbn [bind].
  destruct (cls o) eqn:Hcls; try exact Hbase.
  - unfold RunsListCache_get.
    destruct (await_load_eq _ _ _ arg0 H) as (w1 & k & Hk & _ & Hsent & _).
    destruct (await_load_eq _ _ _ None H) as (w1' & k' & Hk' & _ & Hsent' & _).
    rewrite Hidle in Hsent, Hsent'. cbn in Hsent, Hsent'.
    destruct (truthy arg0).
    + unfold abind. rewrite Hk. cbn. eauto 10.
    + unfold abind at 1. rewrite (refresh_condition _ _ _ _ H), Hc. cbn [bind].
      unfold abind. rewrite Hk'. cbn. eauto 10.
  - destruct Hsc as (so & Hso & Hsd & Hsi).
    unfold RunCache_get, this_statusCache, abind at 1 2.
    rewrite (read_eq _ _ _ H). cbn [bind]. rewrite Hcls. cbn [bind ret].
    unfold abind at 1. by eapply Hcoupled.
  - destruct Hsc as (so & Hso & Hsd & Hsi).
    unfold AnalysisDataCache_get, this_statusCache, abind at 1 2.
    rewrite (read_eq _ _ _ H). cbn [bind]. rewrite Hcls. cbn [bind ret].
    unfold abind at 1. by eapply Hcoupled.
Qed.

Lemma invalidateCache_eq w :
  (∀ u, user (CACHE w) = Some u → is_Some (heap w !! u)) →
  Cache_invalidateCache w =
    Ret () {| heap := match user (CACHE w) with
                      | Some u => match heap w !! u with
                                  | Some o => <[u := with_data None o]> (heap w)
                                  | None => heap w
                                  end
                      | None => heap w
                      end;
              promises := promises w; inflight := inflight w; sent := sent w;
              clock := clock w; CACHE := cleared (CACHE w) |}.
Proof.
  intros Hu. unfold Cache_invalidateCache, abind, modify, gets. cbn.
  destruct (user (CACHE w)) as [u|] eqn:Huser; cbn.
  - destruct (Hu u eq_refl) as [o Ho].
    unfold invalidate_cache, set_data. erewrite update_eq by (cbn; exact Ho).
    cbn. by rewrite Ho.
  - done.
Qed.

Local Ltac new_object_loads c Hnew :=
  match goal with
  | |- ∃ p w1 k req, get ?l ?b ?a ?W = _ ∧ _ =>
      let p := fresh "p" in let w1 := fresh "w1" in let k := fresh "k" in
      let req := fresh "req" in let Hget := fresh "Hget" in let Hsent := fresh "Hsent" in
      destruct (get_empty_object W l (new_CacheObject c) b a)
        as (p & w1 & k & req & Hget & Hsent);
      [..| exists p, w1, k, req; split; [exact Hget | exact Hsent]];
      try done; try (cbn; apply Hnew)
  end.

(** C4, amended.  [invalidateCache] empties the four dictionaries and drops
    the two lists; the one object it writes is the user's, whose value it
    removes.  So the [get] that follows on the user object handed out before
    always calls [load] and waits for it: it sends a [getUser] request,
    unless a load of the user is in flight, which it then joins.  What the
    registry hands out afterwards for a list, or for a run, session or
    status under a uuid that names no member of [Object.prototype], is a
    new object, and [get] on it sends a request; under a uuid that names
    such a member the registry hands out that member and creates nothing.
    Other objects handed out before are left as they were. *)
Theorem invalidateCache_drops_or_invalidates (w : world) :
  (∀ u, user (CACHE w) = Some u → ∃ o, heap w !! u = Some o ∧ cls o = UserCache) →
  ∃ w', Cache_invalidateCache w = Ret () w' ∧
    CACHE w' = cleared (CACHE w) ∧
    promises w' = promises w ∧ inflight w' = inflight w ∧ sent w' = sent w ∧
    clock w' = clock w ∧ length (heap w') = length (heap w) ∧
    (∀ l, user (CACHE w) ≠ Some l → heap w' !! l = heap w !! l) ∧
    (∀ u o, user (CACHE w) = Some u → heap w !! u = Some o →
       heap w' !! u = Some (with_data None o) ∧
       ∀ isRefresh arg0 t, ∃ p w1 k,
         get u isRefresh arg0 (set_clock t w') = Await p w1 k ∧
         load u None (set_clock t w') = Ret p w1 ∧
         sent w1 = (if isLoading (broadcastPromise o) then sent w
                    else sent w ++ [getUser]) ∧
         inflight w1 = (if isLoading (broadcastPromise o) then inflight w
                        else inflight w ++ [(getUser, SinkBroadcast u)])) ∧
    (∀ uuid g, g ∈ Cache_lookups uuid → uuid ∉ Object_prototype →
       ∃ l w'', g w' = Ret (Own l) w'' ∧ length (heap w) ≤ l ∧ sent w'' = sent w ∧
         ∀ isRefresh arg0 t, ∃ p w1 k req,
           get l isRefresh arg0 (set_clock t w'') = Await p w1 k ∧
           sent w1 = sent w ++ [req]) ∧
    (∀ uuid g, g ∈ [Cache_getRun uuid; Cache_getSession uuid;
                    Cache_getRunStatus uuid; Cache_getSessionStatus uuid] →
       uuid ∈ Object_prototype → g w' = Ret (Inherited uuid) w').
Proof.
  intros Hu.
  rewrite invalidateCache_eq by (intros u Hx; destruct (Hu u Hx) as (o & -> & _); eauto).
  eexists. split; [reflexivity|]. cbn [CACHE promises inflight sent clock heap].
  set (h' := match user (CACHE w) with
             | Some u => match heap w !! u with
                         | Some o => <[u := with_data None o]> (heap w)
                         | None => heap w
                         end
             | None => heap w
             end).
  assert (Hlen : length h' = length (heap w)).
  { unfold h'. destruct (user (CACHE w)) as [u|]; [|done].
    destruct (heap w !! u); [|done]. apply length_insert. }
  do 6 (split; [done|]).
  split; [|split; [|split]].
  - intros l Hl. unfold h'. destruct (user (CACHE w)) as [u|]; [|done].
    destruct (heap w !! u) eqn:Ho; [|done].
    apply list_lookup_insert_ne. congruence.
  - intros u o Huser Ho.
    assert (Hh : h' !! u = Some (with_data None o)).
    { unfold h'. rewrite Huser, Ho. apply list_lookup_insert_eq.
      by eapply lookup_lt_Some. }
    split; [exact Hh|]. intros isRefresh arg0 t.
    destruct (Hu u Huser) as (o1 & Ho1 & Hcls).
    assert (o1 = o) by congruence. subst o1.
    set (w' := set_clock t _).
    assert (H' : heap w' !! u = Some (with_data None o)) by exact Hh.
    assert (Hc : needs_refresh (with_data None o) isRefresh (clock w') = true) by done.
    destruct (CacheObject_get_stale _ _ _ _ H' Hc) as (k & Hk & _).
    rewrite (load_eq _ _ _ _ H') in Hk |- *.
    erewrite create_eq in Hk |- * by exact H'.
    cbn [cls with_data] in Hk |- *. rewrite Hcls in Hk |- *. cbn [load_request] in Hk |- *.
    do 3 eexists. split; [|split; [reflexivity|]].
    + unfold get, abind. rewrite (read_eq _ _ _ H'). cbn [bind cls with_data].
      rewrite Hcls. exact Hk.
    + cbn [broadcastPromise with_data]. by destruct (isLoading (broadcastPromise o)).
  - intros uuid g Hg Hn. unfold Cache_lookups in Hg.
    set (w' := {| heap := h'; promises := promises w; inflight := inflight w;
                  sent := sent w; clock := clock w; CACHE := cleared (CACHE w) |}).
    assert (Hnew : ∀ (h : list CacheObject) c, (h ++ [new_CacheObject c]) !! length h
                                               = Some (new_CacheObject c)).
    { intros h c. rewrite lookup_app_r by lia. by rewrite Nat.sub_diag. }
    repeat (apply elem_of_cons in Hg as [->|Hg]); [..|by apply elem_of_nil in Hg].
    + (* getRun *)
      destruct (getRun_miss w' uuid (lookup_empty _) Hn) as (sc & w1 & Hs & ->).
      rewrite (getRunStatus_miss w' uuid (lookup_empty _) Hn) in Hs.
      injection Hs as <- <-.
      do 2 eexists. split; [reflexivity|]. cbn [heap set_heap set_CACHE sent].
      change (heap w') with h'. change (sent w') with (sent w).
      rewrite length_app. cbn [length].
      split; [lia|]. split; [done|]. intros isRefresh arg0 t.
      new_object_loads (RunCache uuid (length h')) Hnew.
      * cbn. replace (length h' + 1)
          with (length (h' ++ [new_CacheObject (RunStatusCache uuid)]))
          by (rewrite length_app; cbn; lia).
        apply Hnew.
      * cbn. exists (new_CacheObject (RunStatusCache uuid)). split; [|done].
        rewrite lookup_app_l by (rewrite length_app; cbn; lia). apply Hnew.
    + (* getSession *)
      rewrite (getSession_miss w' uuid (lookup_empty _) Hn).
      do 2 eexists. split; [reflexivity|]. cbn [heap set_heap set_CACHE sent].
      change (heap w') with h'. change (sent w') with (sent w).
      split; [lia|]. split; [done|]. intros isRefresh arg0 t.
      new_object_loads (SessionCache uuid) Hnew.
    + rewrite (own_eq _ _ _ _ (getRunsList_miss w' eq_refl)).
      do 2 eexists. split; [reflexivity|]. cbn [heap set_heap set_CACHE sent].
      change (heap w') with h'. change (sent w') with (sent w).
      split; [lia|]. split; [done|]. intros isRefresh arg0 t.
      new_object_loads (RunsListCache) Hnew.
    + rewrite (own_eq _ _ _ _ (getSessionsList_miss w' eq_refl)).
      do 2 eexists. split; [reflexivity|]. cbn [heap set_heap set_CACHE sent].
      change (heap w') with h'. change (sent w') with (sent w).
      split; [lia|]. split; [done|]. intros isRefresh arg0 t.
      new_object_loads (SessionsListCache) Hnew.
    + rewrite (getRunStatus_miss w' uuid (lookup_empty _) Hn).
      do 2 eexists. split; [reflexivity|]. cbn [heap set_heap set_CACHE sent].
      change (heap w') with h'. change (sent w') with (sent w).
      split; [lia|]. split; [done|]. intros isRefresh arg0 t.
      new_object_loads (RunStatusCache uuid) Hnew.
    + rewrite (getSessionStatus_miss w' uuid (lookup_empty _) Hn).
      do 2 eexists. split; [reflexivity|]. cbn [heap set_heap set_CACHE sent].
      change (heap w') with h'. change (sent w') with (sent w).
      split; [lia|]. split; [done|]. intros isRefresh arg0 t.
      new_object_loads (SessionStatusCache uuid) Hnew.
  - intros uuid g Hg Hin.
    repeat (apply elem_of_cons in Hg as [->|Hg]); [..|by apply elem_of_nil in Hg].
    + by apply getRun_inherited; [apply lookup_empty|].
    + by apply getSession_inherited; [apply lookup_empty|].
    + by apply getRunStatus_inherited; [apply lookup_empty|].
    + by apply getSessionStatus_inherited; [apply lookup_empty|].
Qed.

Lemma invalidateCache_drops_or_invalidates_witness :
  let w := world_of (Cache_getUser (world0 [] 0)) in
  ∃ w' p w1 k,
    Cache_invalidateCache w = Ret () w' ∧ CACHE w' = cleared (CACHE w) ∧
    get 0 false None (set_clock 5 w') = Await p w1 k ∧ sent w1 = [getUser].
Proof.
  intros w.
  destruct (invalidateCache_drops_or_invalidates w) as (w' & H1 & H2 & _ & _ & _ & _ & _ & _ & H9 & _).
  { intros u Hu. exists (new_CacheObject UserCache).
    injection Hu as <-. split; reflexivity. }
  destruct (H9 0 (new_CacheObject UserCache) eq_refl eq_refl) as [_ Hget].
  destruct (Hget false None 5%Z) as (p & w1 & k & Hk & _ & Hsent & _).
  exists w', p, w1, k. repeat split; assumption.
Defined.

(** ** C6: a failed load and its waiters *)

Lemma get_first w this o isRefresh :
  heap w !! this = Some o →
  broadcastPromise o = idle →
  needs_refresh o isRefresh (clock w) = true →
  ∃ k, CacheObject_get this isRefresh w =
         Await (length (promises w)) (loading_n w this o (load_request (cls o) None) 1) k
       ∧ ∀ r w', k r w' = after_load this r w'.
Proof.
  intros H Hidle Hc.
  destruct (CacheObject_get_stale _ _ _ _ H Hc) as (k & Hk & Hk').
  exists k. split; [|done]. rewrite Hk. f_equal.
  rewrite (load_eq _ _ _ _ H). erewrite create_eq by exact H.
  rewrite Hidle. cbn. apply world_eq; cbn; try done.
Qed.

Lemma get_joins w this o req n isRefresh :
  heap w !! this = Some o →
  needs_refresh o isRefresh (clock w) = true →
  ∃ k, CacheObject_get this isRefresh (loading_n w this o req (S n)) =
         Await (length (promises w) + S n) (loading_n w this o req (S (S n))) k
       ∧ ∀ r w', k r w' = after_load this r w'.
Proof.
  intros H Hc. pose proof (lookup_lt_Some _ _ _ H) as Hlt.
  set (o1 := with_broadcastPromise
               {| isLoading := true;
                  resolvers := seq (length (promises w)) (S n);
                  rejectors := seq (length (promises w)) (S n) |} o).
  assert (H1 : heap (loading_n w this o req (S n)) !! this = Some o1).
  { cbn -[seq]. by apply list_lookup_insert_eq. }
  assert (Hc1 : needs_refresh o1 isRefresh (clock (loading_n w this o req (S n))) = true)
    by exact Hc.
  destruct (CacheObject_get_stale _ _ _ _ H1 Hc1) as (k & Hk & Hk').
  exists k. split; [|done]. rewrite Hk.
  assert (Hlen : length (promises (loading_n w this o req (S n)))
                 = length (promises w) + S n).
  { cbn -[seq]. rewrite length_app. cbn. by rewrite length_replicate. }
  rewrite Hlen. f_equal.
  rewrite (load_eq _ _ _ _ H1). erewrite create_eq by exact H1.
  rewrite Hlen. cbn -[seq replicate]. apply world_eq; cbn -[seq replicate]; try done.
  - rewrite list_insert_insert_eq. unfold joined, o1. cbn -[seq].
    rewrite <- seq_S. done.
  - rewrite <- app_assoc. f_equal.
    change (Pending :: replicate n Pending) with (replicate (S n) Pending).
    by rewrite <- replicate_S_end.
Qed.

(** Further calls while the load is on its way. *)
Lemma calls_join w this o req (flags : list bool) : ∀ n ts,
  heap w !! this = Some o →
  (∀ f, f ∈ flags → needs_refresh o f (clock w) = true) →
  parked_gets this (seq (length (promises w)) (S n)) ts →
  ∃ ts', foldl (λ l m, call m l) (ts, loading_n w this o req (S n))
           (CacheObject_get this <$> flags)
         = (ts', loading_n w this o req (S n + length flags))
    ∧ parked_gets this (seq (length (promises w)) (S n + length flags)) ts'.
Proof.
  induction flags as [|f flags IH]; intros n ts H Hc Hts.
  - cbn [fmap list_fmap foldl length]. rewrite Nat.add_0_r. eauto.
  - cbn [fmap list_fmap foldl length].
    destruct (get_joins w this o req n f H) as (k & Hk & Hk').
    { apply Hc. by left. }
    unfold call at 2. cbn [fst snd]. rewrite Hk. cbn [park].
    destruct (IH (S n) (ts ++ [Blocked (length (promises w) + S n) k]) H) as (ts' & Hf & Hp).
    { intros f' Hf'. apply Hc. by right. }
    { rewrite seq_S. apply Forall2_app; [done|].
      constructor; [|constructor]. eauto. }
    exists ts'. rewrite Hf. split.
    + f_equal. f_equal. lia.
    + replace (S n + S (length flags)) with (S (S n) + length flags) by lia. done.
Qed.

Lemma calls_from_idle w this o (f : bool) (flags : list bool) :
  heap w !! this = Some o →
  broadcastPromise o = idle →
  (∀ f', f' ∈ f :: flags → needs_refresh o f' (clock w) = true) →
  ∃ ts, calls (CacheObject_get this <$> f :: flags) w
        = (ts, loading_n w this o (load_request (cls o) None) (S (length flags)))
    ∧ parked_gets this (seq (length (promises w)) (S (length flags))) ts.
Proof.
  intros H Hidle Hc. unfold calls. cbn [fmap list_fmap foldl].
  destruct (get_first w this o f H Hidle) as (k & Hk & Hk').
  { apply Hc. by left. }
  unfold call at 2. cbn [fst snd]. rewrite Hk. cbn [park app].
  apply calls_join; [done| |].
  - intros f' Hf'. apply Hc. by right.
  - cbn. constructor; [|constructor]. eauto.
Qed.

(** When every promise waited for is rejected, every parked call fails and
    the world stays. *)
Lemma wake_all_rejected this e w ps ts :
  parked_gets this ps ts →
  (∀ p, p ∈ ps → promises w !! p = Some (Rejected e)) →
  wake_all ts w = (replicate (length ts) (Failed e), w).
Proof.
  induction 1 as [|p t ps ts (k & -> & Hk) _ IH]; intros Hp; [done|].
  cbn [wake_all wake length replicate].
  rewrite (Hp p) by (by left). rewrite Hk. cbn [after_load throw park].
  rewrite IH; [done|]. intros q Hq. apply Hp. by right.
Qed.

(** C6. Calls of [get] that have to refresh, made while nothing has been
    answered, wait for one load.  When it fails, each of them fails with the
    error of the transport, and the heap is what it was before the calls:
    value, [lastUpdated] and [lastUsed] of the object are unchanged and its
    coalescer is idle again.  The failure branch of [get] writes nothing in
    any world, and a [get] after which [lastUpdated] differs is one whose
    load succeeded. *)
Theorem failed_load_reaches_every_waiter (w : world) (this : loc) (o : CacheObject)
    (flags : list bool) (r : response) (e : error) :
  heap w !! this = Some o →
  broadcastPromise o = idle →
  length flags ≥ 1 →
  (∀ f, f ∈ flags → needs_refresh o f (clock w) = true) →
  body r = inl e →
  let l1 := calls (CacheObject_get this <$> flags) w in
  let l2 := respond (length (inflight w)) r l1 in
  (inflight w = [] → ∀ (net : transport) (isRefresh : bool),
     lastUpdated <$> heap (run net (CacheObject_get this isRefresh w)).2 !! this
       ≠ Some (lastUpdated o) →
     ∃ v, body (net (sent w ++ [load_request (cls o) None])) = inr v
          ∧ (run net (CacheObject_get this isRefresh w)).1
            = Returned (loaded (cls o) v)) ∧
  sent l1.2 = sent w ++ [load_request (cls o) None] ∧
  length l1.1 = length flags ∧
  (∀ t, t ∈ l1.1 → ∃ p k, t = Blocked p k ∧ ∀ e' w', k (inl e') w' = Raise e' w') ∧
  lastUpdated <$> heap l1.2 !! this = Some (lastUpdated o) ∧
  l2.1 = replicate (length flags) (Failed e) ∧
  heap l2.2 = heap w ∧
  sent l2.2 = sent l1.2.
Proof.
  intros H Hidle Hn Hc He l1 l2. pose proof (lookup_lt_Some _ _ _ H) as Hlt.
  split.
  { intros Hq net isRefresh.
    rewrite (run_CacheObject_get net _ _ _ isRefresh H Hidle Hq).
    destruct (needs_refresh o isRefresh (clock w)); cbn zeta.
    - destruct (body (net (sent w ++ [load_request (cls o) None]))) as [e0|v] eqn:Hb;
        cbn [fst snd]; [|eauto].
      intros Hch. exfalso. apply Hch. cbn [answered heap]. by rewrite H.
    - cbn. rewrite list_lookup_insert_eq by done. done. }
  destruct flags as [|f flags]; [cbn in Hn; lia|]. clear Hn.
  destruct (calls_from_idle w this o f flags H Hidle Hc) as (ts & Hcalls & Hts).
  set (req := load_request (cls o) None) in *.
  set (n := S (length flags)) in *.
  assert (Hlen : length ts = n).
  { apply Forall2_length in Hts. rewrite length_seq in Hts. done. }
  subst l2. subst l1. rewrite Hcalls. unfold respond. cbn [fst snd].
  split; [done|]. split; [by rewrite Hlen|].
  split.
  { intros t Ht. apply list_elem_of_lookup in Ht as [i Ht].
    destruct (Forall2_lookup_r _ _ _ _ _ Hts Ht) as (p & _ & k & -> & Hk).
    exists p, k. split; [done|]. intros e' w'. by rewrite Hk. }
  split.
  { cbn -[seq]. by rewrite list_lookup_insert_eq. }
  erewrite deliver_broadcast; cycle 1.
  { cbn -[seq]. rewrite lookup_app_r by lia. by rewrite Nat.sub_diag. }
  { cbn -[seq]. by apply list_lookup_insert_eq. }
  rewrite He. cbn -[seq replicate].
  erewrite (wake_all_rejected this e _ _ ts Hts); cycle 1.
  { intros p Hp. cbn -[seq replicate]. apply settle_all_pending; [done|].
    apply elem_of_seq in Hp. rewrite lookup_app_r by lia.
    apply lookup_replicate_2. lia. }
  cbn -[seq replicate]. rewrite Hlen. split; [done|]. split; [|done].
  rewrite list_insert_insert_eq, with_broadcastPromise_idle by done.
  by apply list_insert_id.
Qed.

Lemma failed_load_reaches_every_waiter_witness :
  let w := world0 [entry UserCache None 0] 1000 in
  let r := {| body := inl (NetworkError 503); at_time := 1500 |} in
  (respond 0 r (calls (CacheObject_get 0 <$> [false; true; false; false; true]) w)).1
    = replicate 5 (Failed (NetworkError 503)).
Proof.
  intros w r.
  refine (proj1 (proj2 (proj2 (proj2 (proj2 (proj2
    (failed_load_reaches_every_waiter w 0 (entry UserCache None 0)
       [false; true; false; false; true] r (NetworkError 503)
       eq_refl eq_refl _ _ eq_refl))))))).
  - cbn. lia.
  - intros f _. reflexivity.
Defined.

(** ** C9: [RunsListCache.get] with a filter *)

(** With nothing in flight the filtered call does what C9 says: one call
    scoped to the argument, its result returned, nothing stored. *)
Lemma RunsListCache_get_filtered_quiet net w this o isRefresh arg0 :
  heap w !! this = Some o →
  cls o = RunsListCache →
  broadcastPromise o = idle →
  inflight w = [] →
  truthy arg0 = true →
  let r := net (sent w ++ [getRuns arg0]) in
  run net (RunsListCache_get this isRefresh arg0 w) =
    (match body r with inl e => Threw e | inr v => Returned (Some v) end,
     answered w (getRuns arg0) r).
Proof.
  intros H Hcls Hidle Hq Ht r. unfold RunsListCache_get. rewrite Ht.
  destruct (await_load_eq _ _ _ arg0 H) as (w1 & k & Hk & Hload & _ & Hk').
  unfold abind. rewrite Hk. cbn [bind].
  replace w1 with (world_of (load this arg0 w)) by (by rewrite Hload).
  rewrite (run_load net _ _ _ _ _ H Hidle Hq). rewrite Hcls. cbn [load_request].
  fold r. rewrite Hk'. by destruct (body r).
Qed.

(** C9 fails when a load of the same object is in flight.  The filtered
    call then only joins the waiters: no request carrying its argument is
    sent, and it returns whatever the load in flight brings. *)
Theorem filtered_get_joins_load_in_flight (w : world) (this : loc) (o : CacheObject)
    (isRefresh : bool) (arg0 : option string) :
  heap w !! this = Some o →
  isLoading (broadcastPromise o) = true →
  truthy arg0 = true →
  ∃ p w1 k,
    RunsListCache_get this isRefresh arg0 w = Await p w1 k ∧
    sent w1 = sent w ∧ inflight w1 = inflight w ∧
    heap w1 !! this = Some (with_broadcastPromise (joined p (broadcastPromise o)) o) ∧
    ∀ v w', k (inr v) w' = Ret (Some v) w'.
Proof.
  intros H Hl Ht. pose proof (lookup_lt_Some _ _ _ H) as Hlt.
  unfold RunsListCache_get. rewrite Ht.
  unfold await_load, abind. rewrite (load_eq _ _ _ _ H).
  erewrite create_eq by exact H. rewrite Hl. cbn.
  do 3 eexists. split; [reflexivity|]. cbn.
  repeat split; try done. by apply list_lookup_insert_eq.
Qed.

Lemma filtered_get_joins_load_in_flight_witness :
  let o := entry RunsListCache None 0 in
  let w := loading_n (world0 [o] 1000) 0 o (getRuns None) 1 in
  ∃ p w1 k,
    RunsListCache_get 0 false (Some "tag"%string) w = Await p w1 k ∧
    sent w1 = [getRuns None] ∧ inflight w1 = [(getRuns None, SinkBroadcast 0)] ∧
    ∀ v w', k (inr v) w' = Ret (Some v) w'.
Proof.
  intros o w.
  destruct (filtered_get_joins_load_in_flight w 0
              (with_broadcastPromise {| isLoading := true; resolvers := [0]; rejectors := [0] |} o)
              false (Some "tag"%string) eq_refl eq_refl eq_refl)
    as (p & w1 & k & H1 & H2 & H3 & _ & H5).
  exists p, w1, k. repeat split; assumption.
Defined.

(** The two orders of an unfiltered and a filtered call before the
    transport answers.  Filtered second: one request, without the filter,
    and the filtered call returns the full list.  Filtered first: the
    unfiltered call stores the filtered list as the value of the object. *)
Lemma filtered_get_scenario :
  let o := entry RunsListCache None 0 in
  let w := world0 [o] 1000 in
  let all := PRunsList [run_a; run_b; run_c] in
  let tagged := PRunsList [run_b] in
  let l1 := calls [RunsListCache_get 0 false None;
                   RunsListCache_get 0 false (Some "tag"%string)] w in
  let l2 := respond 0 {| body := inr all; at_time := 1200 |} l1 in
  let m1 := calls [RunsListCache_get 0 false (Some "tag"%string);
                   RunsListCache_get 0 false None] w in
  let m2 := respond 0 {| body := inr tagged; at_time := 1200 |} m1 in
  sent l1.2 = [getRuns None] ∧
  l2.1 = [Done (Some all); Done (Some all)] ∧
  sent l2.2 = [getRuns None] ∧
  sent m1.2 = [getRuns (Some "tag"%string)] ∧
  m2.1 = [Done (Some tagged); Done (Some tagged)] ∧
  sent m2.2 = [getRuns (Some "tag"%string)] ∧
  data <$> heap m2.2 !! 0 = Some (Some tagged) ∧
  lastUpdated <$> heap m2.2 !! 0 = Some 1200%Z.
Proof. vm_compute. repeat split; reflexivity. Qed.

(** ** C3: the cascade of [RunCache.get] and [AnalysisDataCache.get] *)

Lemma get_data_eq w this o : heap w !! this = Some o → get_data this w = Ret (data o) w.
Proof. intros H. unfold get_data, abind. by rewrite (read_eq _ _ _ H). Qed.

Lemma get_lastUpdated_eq w this o :
  heap w !! this = Some o → get_lastUpdated this w = Ret (lastUpdated o) w.
Proof. intros H. unfold get_lastUpdated, abind. by rewrite (read_eq _ _ _ H). Qed.

(** Right after [lastUpdated] has been set from the clock, the object is
    not older than [RELOAD_TIMEOUT]: without [isRefresh] the condition of the
    cascade is false. *)
Lemma cascade_condition_after_refresh w this o status (isRefresh : bool) :
  heap w !! this = Some o →
  lastUpdated o = clock w →
  ((status_isRunning (Some (PStatus status))
      &&& (lu ← get_lastUpdated this; isReloadTimeout lu))
   ||| ret isRefresh) w = Ret isRefresh w.
Proof.
  intros H Hlu. unfold orelse, andalso, status_isRunning, isReloadTimeout, now, gets,
    abind, ret. cbn.
  destruct status; cbn; [|done].
  rewrite (get_lastUpdated_eq _ _ _ H). cbn. rewrite Hlu, Z.sub_diag.
  rewrite bool_decide_eq_false_2 by (unfold RELOAD_TIMEOUT; lia). done.
Qed.

(** The statements of [RunCache.get] between the [await] of [load] and the
    final [return], for [isRefresh = false]. *)
Lemma store_without_cascade w this o sc status v :
  heap w !! this = Some o →
  (set_loaded this v;;
   t ← now;
   set_lastUpdated this t;;
   c' ← ((status_isRunning (Some (PStatus status))
            &&& (lu ← get_lastUpdated this; isReloadTimeout lu))
         ||| ret false);
   if c' then CacheObject_get sc true;; ret () else ret ()) w
  = Ret () (set_heap (<[this := with_lastUpdated (clock w)
                                  (with_data (loaded (cls o) v) o)]>) w).
Proof.
  intros H. pose proof (lookup_lt_Some _ _ _ H) as Hlt.
  unfold set_loaded, set_lastUpdated, now, gets.
  unfold abind at 1. erewrite update_eq by exact H. cbn [bind].
  unfold abind at 1. cbn [bind].
  unfold abind at 1. erewrite update_eq by (cbn; by apply list_lookup_insert_eq).
  cbn [bind]. unfold abind at 1.
  erewrite cascade_condition_after_refresh; cycle 1.
  { cbn. rewrite list_insert_insert_eq. by apply list_lookup_insert_eq. }
  { done. }
  cbn. unfold ret. f_equal. apply world_eq; cbn; try done.
  by rewrite list_insert_insert_eq.
Qed.

Lemma coupled_condition_running w this o (isRefresh : bool) :
  heap w !! this = Some o →
  (clock w - lastUpdated o > RELOAD_TIMEOUT)%Z →
  (data_is_null this
   ||| (status_isRunning (Some (PStatus true))
          &&& (lu ← get_lastUpdated this; isReloadTimeout lu))
   ||| (ret isRefresh &&& (lu ← get_lastUpdated this; isForceReloadTimeout lu))) w
  = Ret true w.
Proof.
  intros H Hold. unfold orelse, andalso, data_is_null, status_isRunning,
    isReloadTimeout, now, gets.
  unfold abind. rewrite (get_data_eq _ _ _ H). cbn.
  destruct (data o); cbn; [|done].
  rewrite (get_lastUpdated_eq _ _ _ H). cbn.
  by rewrite bool_decide_eq_true_2.
Qed.

Local Ltac coupled_get_steps this o H Hcls Hso Hne Hidle Hsidle Hq Hsd Hfresh Hold Hv :=
  unfold this_statusCache, abind at 1 2;
  rewrite (read_eq _ _ _ H); cbn [bind]; rewrite Hcls; cbn [bind ret];
  unfold abind at 1;
  rewrite (CacheObject_get_fresh _ _ _ _ Hso Hfresh); cbn [bind];
  rewrite Hsd;
  match goal with
  | |- context [set_heap ?f ?w0] =>
      let w1 := fresh "w1" in
      set (w1 := set_heap f w0) in *;
      assert (H1 : heap w1 !! this = Some o)
        by (cbn; rewrite list_lookup_insert_ne by done; exact H);
      assert (Hq1 : inflight w1 = []) by exact Hq;
      unfold abind at 1;
      rewrite (coupled_condition_running w1 this o false H1 Hold); cbn [bind];
      destruct (await_load_eq w1 this o None H1) as (w2 & k & Hk & Hload & _ & Hk');
      unfold abind at 1 2; rewrite Hk; cbn [bind];
      replace w2 with (world_of (load this None w1)) by (by rewrite Hload);
      rewrite (run_load _ _ _ _ _ _ H1 Hidle Hq1); cbn zeta;
      change (sent w1) with (sent w0); rewrite Hv, Hk'; cbn [bind];
      erewrite store_without_cascade by (cbn; exact H1); cbn [bind];
      erewrite get_data_eq
        by (cbn; apply list_lookup_insert_eq; rewrite length_insert;
            by eapply lookup_lt_Some);
      rewrite ?Hcls; reflexivity
  end.

(** C3 fails on the code: for a running status and an object older than
    [RELOAD_TIMEOUT], [get()] without [isRefresh] loads the object and stops
    there.  The transport sees the one request of the object; the status
    object is as the first [statusCache.get()] left it, used last when
    [get] was called, and [statusCache.get(true)] is not called. *)
Theorem coupled_get_skips_cascade (net : transport) (w : world) (this sc : loc)
    (o so : CacheObject) (uuid url : string) (v : payload) :
  heap w !! this = Some o →
  heap w !! sc = Some so →
  sc ≠ this →
  broadcastPromise o = idle →
  broadcastPromise so = idle →
  inflight w = [] →
  data so = Some (PStatus true) →
  needs_refresh so false (clock w) = false →
  (clock w - lastUpdated o > RELOAD_TIMEOUT)%Z →
  let req := load_request (cls o) None in
  let r := net (sent w ++ [req]) in
  body r = inr v →
  let d := loaded (cls o) v in
  let w' := set_heap (<[this := with_lastUpdated (at_time r) (with_data d o)]>)
              (answered (set_heap (<[sc := with_lastUsed (clock w) so]>) w) req r) in
  (cls o = RunCache uuid sc →
     run net (RunCache_get this false w) = (Returned d, w') ∧ d = Some v) ∧
  (cls o = AnalysisDataCache uuid url sc →
     run net (AnalysisDataCache_get this false w) = (Returned d, w')) ∧
  sent w' = sent w ++ [req] ∧
  heap w' !! sc = Some (with_lastUsed (clock w) so).
Proof.
  intros H Hso Hne Hidle Hsidle Hq Hsd Hfresh Hold req r Hv d w'.
  subst w' d r req.
  pose proof (lookup_lt_Some _ _ _ H) as Hlt.
  pose proof (lookup_lt_Some _ _ _ Hso) as Hslt.
  split; [|split; [|split]].
  - intros Hcls. split; [|by rewrite Hcls]. unfold RunCache_get.
    coupled_get_steps this o H Hcls Hso Hne Hidle Hsidle Hq Hsd Hfresh Hold Hv.
  - intros Hcls. unfold AnalysisDataCache_get.
    coupled_get_steps this o H Hcls Hso Hne Hidle Hsidle Hq Hsd Hfresh Hold Hv.
  - done.
  - cbn. rewrite list_lookup_insert_ne by done. by apply list_lookup_insert_eq.
Qed.

Lemma coupled_get_skips_cascade_witness :
  let o := entry (RunCache "a" 1) (Some (PRun run_a)) 0 in
  let so := entry (RunStatusCache "a") (Some (PStatus true)) 51000 in
  let w := world0 [o; so] 61000 in
  ∃ w', run backend (RunCache_get 0 false w) = (Returned (Some (PRun run_b)), w')
        ∧ sent w' = [getRun "a"]
        ∧ heap w' !! 1 = Some (with_lastUsed 61000 so).
Proof.
  intros o so w.
  destruct (coupled_get_skips_cascade backend w 0 1 o so "a" "" (PRun run_b))
    as (H1 & _ & H3 & H4); try reflexivity.
  - clear. lia.
  - eexists. split; [exact (proj1 (H1 eq_refl))|]. split; [exact H3|exact H4].
Defined.

(** The same call with [isRefresh]: the status is asked for again, after
    the run. *)
Lemma cascade_with_isRefresh :
  let o := entry (RunCache "a" 1) (Some (PRun run_a)) 0 in
  let so := entry (RunStatusCache "a") (Some (PStatus true)) 51000 in
  let w := world0 [o; so] 61000 in
  sent (run backend (RunCache_get 0 true w)).2 = [getRun "a"; getRunStatus "a"] ∧
  sent (run backend (RunCache_get 0 false w)).2 = [getRun "a"].
Proof. vm_compute. split; reflexivity. Qed.

(** ** Waiters of a load that succeeds *)

Lemma stored_is_stable (d : option payload) (t : Z) (o : CacheObject) :
  let o1 := with_lastUsed t (with_lastUpdated t (with_data d o)) in
  with_lastUsed t (with_lastUpdated t (with_data d o1)) = o1.
Proof. done. Qed.

Lemma wake_all_stored this v w ps ts o1 :
  parked_gets this ps ts →
  (∀ p, p ∈ ps → promises w !! p = Some (Fulfilled v)) →
  heap w !! this = Some o1 →
  with_lastUsed (clock w) (with_lastUpdated (clock w)
                             (with_data (loaded (cls o1) v) o1)) = o1 →
  wake_all ts w = (replicate (length ts) (Done (loaded (cls o1) v)), w).
Proof.
  induction 1 as [|p t ps ts (k & -> & Hk) _ IH]; intros Hp H Hfix; [done|].
  cbn [wake_all wake length replicate].
  rewrite (Hp p) by (by left). rewrite Hk.
  rewrite (after_load_ok _ _ _ _ H), Hfix. cbn [park].
  assert (Hw : set_heap (<[this := o1]>) w = w).
  { apply world_eq; cbn; try done. by apply list_insert_id. }
  rewrite Hw, IH; [done| |done|done].
  intros q Hq. apply Hp. by right.
Qed.

(** Calls of [get] that have to refresh, made before the transport answers,
    share one load; when it succeeds each of them returns its value, which
    is stored with the time of the answer. *)
Lemma succeeded_load_reaches_every_waiter (w : world) (this : loc) (o : CacheObject)
    (flags : list bool) (r : response) (v : payload) :
  heap w !! this = Some o →
  broadcastPromise o = idle →
  length flags ≥ 1 →
  (∀ f, f ∈ flags → needs_refresh o f (clock w) = true) →
  body r = inr v →
  let l1 := calls (CacheObject_get this <$> flags) w in
  let l2 := respond (length (inflight w)) r l1 in
  sent l2.2 = sent w ++ [load_request (cls o) None] ∧
  l2.1 = replicate (length flags) (Done (loaded (cls o) v)) ∧
  heap l2.2 = <[this := with_lastUsed (at_time r)
                  (with_lastUpdated (at_time r) (with_data (loaded (cls o) v) o))]>
                (heap w).
Proof.
  intros H Hidle Hn Hc Hv l1 l2. pose proof (lookup_lt_Some _ _ _ H) as Hlt.
  destruct flags as [|f flags]; [cbn in Hn; lia|]. clear Hn.
  destruct (calls_from_idle w this o f flags H Hidle Hc) as (ts & Hcalls & Hts).
  set (req := load_request (cls o) None) in *.
  set (n := S (length flags)) in *.
  assert (Hlen : length ts = n).
  { apply Forall2_length in Hts. rewrite length_seq in Hts. done. }
  subst l2. subst l1. rewrite Hcalls. unfold respond. cbn [fst snd].
  erewrite deliver_broadcast; cycle 1.
  { cbn -[seq]. rewrite lookup_app_r by lia. by rewrite Nat.sub_diag. }
  { cbn -[seq]. by apply list_lookup_insert_eq. }
  rewrite Hv. cbn -[seq replicate].
  rewrite list_insert_insert_eq, with_broadcastPromise_idle by done.
  rewrite (list_insert_id (heap w) this o H).
  set (W0 := {| heap := heap w;
                promises := foldl (settle_in (Fulfilled v))
                              (promises w ++ replicate n Pending)
                              (seq (length (promises w)) n);
                inflight := delete (length (inflight w))
                              (inflight w ++ [(req, SinkBroadcast this)]);
                sent := sent w ++ [req];
                clock := at_time r;
                CACHE := CACHE w |}).
  assert (Hset : ∀ q, q ∈ seq (length (promises w)) n →
            promises W0 !! q = Some (Fulfilled v)).
  { intros q Hq. cbn -[seq replicate]. apply settle_all_pending; [done|].
    apply elem_of_seq in Hq. rewrite lookup_app_r by lia.
    apply lookup_replicate_2. lia. }
  unfold n in Hts, Hlen, Hset. cbn [seq] in Hts, Hset.
  inversion Hts as [|p t ps ts' (k & -> & Hk) Hts' Hps Hts0]; subst.
  cbn [wake_all wake].
  rewrite (Hset (length (promises w))) by (by left). rewrite Hk.
  erewrite after_load_ok by (cbn; exact H). cbn [park].
  erewrite (wake_all_stored this v _ _ ts' _ Hts'); cycle 1.
  { intros q Hq. apply (Hset q). by right. }
  { cbn. by apply list_lookup_insert_eq. }
  { done. }
  cbn in Hlen. cbn. injection Hlen as ->. done.
Qed.

Lemma succeeded_load_example :
  let w := world0 [entry UserCache None 0] 1000 in
  let r := {| body := inr (PUser 7); at_time := 1500 |} in
  let l2 := respond 0 r (calls (CacheObject_get 0 <$> [false; true; false]) w) in
  l2.1 = replicate 3 (Done (Some (PUser 7))) ∧ sent l2.2 = [getUser].
Proof. vm_compute. split; reflexivity. Qed.

(** * Further properties *)

(** ** The registry *)

Lemma has_class_alloc w l c (h : list CacheObject) :
  has_class w l c → has_class (set_heap (λ h0, h0 ++ h) w) l c.
Proof.
  intros (o & Ho & Hc). exists o. split; [|done].
  cbn. rewrite lookup_app_l; [done|]. by eapply lookup_lt_Some.
Qed.

Lemma has_class_new w c :
  has_class (set_heap (λ h, h ++ [new_CacheObject c]) w) (length (heap w)) c.
Proof.
  exists (new_CacheObject c). split; [|done].
  cbn. rewrite lookup_app_r by lia. by rewrite Nat.sub_diag.
Qed.

Local Ltac each_getter Hg :=
  unfold Cache_getters, Cache_lookups in Hg;
  repeat (apply elem_of_cons in Hg as [->|Hg]); [..|by apply elem_of_nil in Hg].

(** X1. Lookup-or-create: every lookup of the registry returns a value, and
    the same lookup made again returns the same value and leaves the world
    as it is.  The value is an object of the heap, unless the uuid names a
    member of [Object.prototype] under which nothing is registered: the
    lookup then returns that member and changes nothing. *)
Theorem Cache_lookup_memoized (w : world) (uuid : string) (g : async member) :
  g ∈ Cache_getters uuid →
  ∃ m w1, g w = Ret m w1 ∧ g w1 = Ret m w1 ∧
    ((∃ l, m = Own l) ∨ (m = Inherited uuid ∧ uuid ∈ Object_prototype ∧ w1 = w)) ∧
    (uuid ∉ Object_prototype → ∃ l, m = Own l).
Proof.
  intros Hg. each_getter Hg.
  - destruct (user (CACHE w)) as [l|] eqn:H.
    + exists (Own l), w. rewrite (own_eq _ _ _ _ (getUser_hit _ _ H)). eauto 10.
    + rewrite (own_eq _ _ _ _ (getUser_miss _ H)). eexists _, _. split; [done|].
      split; [by apply own_eq, getUser_hit|]. eauto.
  - destruct (runs (CACHE w) !! uuid) as [l|] eqn:H.
    + exists (Own l), w. rewrite (getRun_hit _ _ _ H). eauto 10.
    + destruct (decide (uuid ∈ Object_prototype)) as [Hin|Hn].
      * exists (Inherited uuid), w. rewrite (getRun_inherited _ _ H Hin).
        split; [done|]. split; [done|]. split; [by right|done].
      * destruct (getRun_miss _ _ H Hn) as (sc & w1 & _ & ->).
        eexists _, _. split; [done|].
        split; [apply getRun_hit; cbn; apply lookup_insert_eq|]. eauto.
  - destruct (sessions (CACHE w) !! uuid) as [l|] eqn:H.
    + exists (Own l), w. rewrite (getSession_hit _ _ _ H). eauto 10.
    + destruct (decide (uuid ∈ Object_prototype)) as [Hin|Hn].
      * exists (Inherited uuid), w. rewrite (getSession_inherited _ _ H Hin).
        split; [done|]. split; [done|]. split; [by right|done].
      * rewrite (getSession_miss _ _ H Hn). eexists _, _. split; [done|].
        split; [apply getSession_hit; cbn; apply lookup_insert_eq|]. eauto.
  - destruct (runsList (CACHE w)) as [l|] eqn:H.
    + exists (Own l), w. rewrite (own_eq _ _ _ _ (getRunsList_hit _ _ H)). eauto 10.
    + rewrite (own_eq _ _ _ _ (getRunsList_miss _ H)). eexists _, _. split; [done|].
      split; [by apply own_eq, getRunsList_hit|]. eauto.
  - destruct (sessionsList (CACHE w)) as [l|] eqn:H.
    + exists (Own l), w. rewrite (own_eq _ _ _ _ (getSessionsList_hit _ _ H)). eauto 10.
    + rewrite (own_eq _ _ _ _ (getSessionsList_miss _ H)). eexists _, _.
      split; [done|]. split; [by apply own_eq, getSessionsList_hit|]. eauto.
  - destruct (runStatuses (CACHE w) !! uuid) as [l|] eqn:H.
    + exists (Own l), w. rewrite (getRunStatus_hit _ _ _ H). eauto 10.
    + destruct (decide (uuid ∈ Object_prototype)) as [Hin|Hn].
      * exists (Inherited uuid), w. rewrite (getRunStatus_inherited _ _ H Hin).
        split; [done|]. split; [done|]. split; [by right|done].
      * rewrite (getRunStatus_miss _ _ H Hn). eexists _, _. split; [done|].
        split; [apply getRunStatus_hit; cbn; apply lookup_insert_eq|]. eauto.
  - destruct (sessionStatuses (CACHE w) !! uuid) as [l|] eqn:H.
    + exists (Own l), w. rewrite (getSessionStatus_hit _ _ _ H). eauto 10.
    + destruct (decide (uuid ∈ Object_prototype)) as [Hin|Hn].
      * exists (Inherited uuid), w. rewrite (getSessionStatus_inherited _ _ H Hin).
        split; [done|]. split; [done|]. split; [by right|done].
      * rewrite (getSessionStatus_miss _ _ H Hn). eexists _, _. split; [done|].
        split; [apply getSessionStatus_hit; cbn; apply lookup_insert_eq|]. eauto.
Qed.

Lemma Cache_lookup_memoized_witness :
  (∃ l w1, Cache_getRun "r1" (world0 [] 0) = Ret (Own l) w1
           ∧ Cache_getRun "r1" w1 = Ret (Own l) w1)
  ∧ Cache_getRun "constructor" (world0 [] 0) = Ret (Inherited "constructor") (world0 [] 0).
Proof.
  split.
  - destruct (Cache_lookup_memoized (world0 [] 0) "r1" (Cache_getRun "r1"))
      as (m & w1 & H1 & H2 & _ & H4).
    { unfold Cache_getters, Cache_lookups. apply elem_of_cons. right.
      apply elem_of_cons. left. reflexivity. }
    destruct H4 as [l ->].
    { apply (bool_decide_unpack _). vm_compute. exact I. }
    exists l, w1. split; assumption.
  - vm_compute. reflexivity.
Defined.

(** X2. A lookup of the registry sends nothing and writes no object: all it
    can do is allocate, at the end of the heap, the object it returns (and,
    for a run, the status of that run), each without a value, never updated
    and with an idle coalescer. *)
Theorem Cache_lookup_allocates_only (w : world) (uuid : string) (g : async member) :
  g ∈ Cache_getters uuid →
  ∃ m w1 h,
    g w = Ret m w1 ∧
    heap w1 = heap w ++ h ∧ length h ≤ 2 ∧
    Forall (λ o, o = new_CacheObject (cls o)) h ∧
    (h ≠ [] → ∃ l, m = Own l ∧ heap w1 !! l = last h) ∧
    promises w1 = promises w ∧ inflight w1 = inflight w ∧
    sent w1 = sent w ∧ clock w1 = clock w.
Proof.
  intros Hg.
  assert (Hone : ∀ c, (heap w ++ [new_CacheObject c]) !! length (heap w)
                      = last [new_CacheObject c]).
  { intros c. rewrite lookup_app_r by lia. by rewrite Nat.sub_diag. }
  assert (Hsame : ∀ m, ∃ m' w1 h,
            Ret m w = Ret m' w1 ∧ heap w1 = heap w ++ h ∧ length h ≤ 2 ∧
            Forall (λ o, o = new_CacheObject (cls o)) h ∧
            (h ≠ [] → ∃ l, m' = Own l ∧ heap w1 !! l = last h) ∧
            promises w1 = promises w ∧ inflight w1 = inflight w ∧
            sent w1 = sent w ∧ clock w1 = clock w).
  { intros m. exists m, w, []. rewrite app_nil_r. repeat split; auto. by intros Hn. }
  assert (Hmade : ∀ c f, ∃ m' w1 h,
            Ret (Own (length (heap w)))
              (set_CACHE f (set_heap (λ h, h ++ [new_CacheObject c]) w)) = Ret m' w1 ∧
            heap w1 = heap w ++ h ∧ length h ≤ 2 ∧
            Forall (λ o, o = new_CacheObject (cls o)) h ∧
            (h ≠ [] → ∃ l, m' = Own l ∧ heap w1 !! l = last h) ∧
            promises w1 = promises w ∧ inflight w1 = inflight w ∧
            sent w1 = sent w ∧ clock w1 = clock w).
  { intros c f. eexists _, _, [_]. split; [done|]. cbn. repeat split; auto.
    intros _. eexists. split; [done|]. apply Hone. }
  each_getter Hg.
  - destruct (user (CACHE w)) as [l|] eqn:H.
    + rewrite (own_eq _ _ _ _ (getUser_hit _ _ H)). apply Hsame.
    + rewrite (own_eq _ _ _ _ (getUser_miss _ H)). apply Hmade.
  - destruct (runs (CACHE w) !! uuid) as [l|] eqn:H.
    + rewrite (getRun_hit _ _ _ H). apply Hsame.
    + destruct (decide (uuid ∈ Object_prototype)) as [Hin|Hn].
      { rewrite (getRun_inherited _ _ H Hin). apply Hsame. }
      destruct (getRun_miss _ _ H Hn) as (sc & w1 & Hs & ->).
      destruct (runStatuses (CACHE w) !! uuid) as [sc'|] eqn:Hst.
      * rewrite (getRunStatus_hit _ _ _ Hst) in Hs. injection Hs as <- <-.
        apply Hmade.
      * rewrite (getRunStatus_miss _ _ Hst Hn) in Hs. injection Hs as <- <-.
        eexists _, _, [_; _]. split; [done|]. cbn.
        rewrite <- app_assoc. cbn. repeat split; auto.
        intros _. eexists. split; [done|]. rewrite length_app. cbn.
        rewrite (lookup_app_r (heap w)) by lia.
        replace (length (heap w) + 1 - length (heap w)) with 1 by lia. done.
  - destruct (sessions (CACHE w) !! uuid) as [l|] eqn:H.
    + rewrite (getSession_hit _ _ _ H). apply Hsame.
    + destruct (decide (uuid ∈ Object_prototype)) as [Hin|Hn].
      * rewrite (getSession_inherited _ _ H Hin). apply Hsame.
      * rewrite (getSession_miss _ _ H Hn). apply Hmade.
  - destruct (runsList (CACHE w)) as [l|] eqn:H.
    + rewrite (own_eq _ _ _ _ (getRunsList_hit _ _ H)). apply Hsame.
    + rewrite (own_eq _ _ _ _ (getRunsList_miss _ H)). apply Hmade.
  - destruct (sessionsList (CACHE w)) as [l|] eqn:H.
    + rewrite (own_eq _ _ _ _ (getSessionsList_hit _ _ H)). apply Hsame.
    + rewrite (own_eq _ _ _ _ (getSessionsList_miss _ H)). apply Hmade.
  - destruct (runStatuses (CACHE w) !! uuid) as [l|] eqn:H.
    + rewrite (getRunStatus_hit _ _ _ H). apply Hsame.
    + destruct (decide (uuid ∈ Object_prototype)) as [Hin|Hn].
      * rewrite (getRunStatus_inherited _ _ H Hin). apply Hsame.
      * rewrite (getRunStatus_miss _ _ H Hn). apply Hmade.
  - destruct (sessionStatuses (CACHE w) !! uuid) as [l|] eqn:H.
    + rewrite (getSessionStatus_hit _ _ _ H). apply Hsame.
    + destruct (decide (uuid ∈ Object_prototype)) as [Hin|Hn].
      * rewrite (getSessionStatus_inherited _ _ H Hin). apply Hsame.
      * rewrite (getSessionStatus_miss _ _ H Hn). apply Hmade.
Qed.

Lemma Cache_lookup_allocates_only_witness :
  ∃ m w1 h, Cache_getRun "r1" (world0 [] 0) = Ret m w1 ∧ heap w1 = [] ++ h ∧ length h ≤ 2.
Proof.
  destruct (Cache_lookup_allocates_only (world0 [] 0) "r1" (Cache_getRun "r1"))
    as (m & w1 & h & H1 & H2 & H3 & _).
  - unfold Cache_getters, Cache_lookups. apply elem_of_cons. right.
    apply elem_of_cons. left. reflexivity.
  - exists m, w1, h. repeat split; assumption.
Defined.

Lemma registry_ok_new_Cache h t : registry_ok (world0 h t).
Proof. split; cbn; intros; try done; by rewrite lookup_empty in *. Qed.

Lemma registry_ok_alloc w c :
  registry_ok w → registry_ok (set_heap (λ h, h ++ [new_CacheObject c]) w).
Proof.
  intros [H1 H2 H3 H4 H5 H6 H7]. split; cbn; intros.
  - destruct (H1 _ _ H) as (sc & Hc & Hs). exists sc. split; [|done].
    by apply (has_class_alloc w).
  - by apply (has_class_alloc w), H2.
  - by apply (has_class_alloc w), H3.
  - by apply (has_class_alloc w), H4.
  - by apply (has_class_alloc w), H5.
  - by apply (has_class_alloc w), H6.
  - by apply (has_class_alloc w), H7.
Qed.

Local Ltac insert_case H :=
  apply lookup_insert_Some in H as [[<- <-]|[? H]].

Lemma registry_ok_getRunStatus w uuid :
  registry_ok w →
  uuid ∉ Object_prototype →
  ∃ l w1, Cache_getRunStatus uuid w = Ret (Own l) w1 ∧ registry_ok w1
          ∧ runStatuses (CACHE w1) !! uuid = Some l
          ∧ runs (CACHE w1) = runs (CACHE w).
Proof.
  intros Hok Hn. destruct (runStatuses (CACHE w) !! uuid) as [l|] eqn:H.
  - exists l, w. by rewrite (getRunStatus_hit _ _ _ H).
  - rewrite (getRunStatus_miss _ _ H Hn). eexists _, _. split; [done|].
    split; [|split; [cbn; apply lookup_insert_eq|done]].
    pose proof (registry_ok_alloc w (RunStatusCache uuid) Hok) as [H1 H2 H3 H4 H5 H6 H7].
    split; unfold has_class in *; cbn in *; intros; auto.
    + destruct (H1 _ _ H0) as (sc & Hc & Hs). exists sc. split; [done|].
      rewrite lookup_insert_ne; [done|]. intros <-. congruence.
    + insert_case H0; [apply has_class_new|auto].
Qed.

(** X3. The registry stays well formed: if every field refers to an object
    of its class, made for its key, and every registered run is paired with
    the registered status of that run, the same holds after any lookup and
    after [invalidateCache].  Whatever object a lookup returns is allocated,
    and a lookup returns an object whenever the uuid names no member of
    [Object.prototype].  A new registry is well formed. *)
Theorem registry_ok_preserved (w : world) :
  registry_ok w →
  (∀ uuid g, g ∈ Cache_getters uuid →
     ∃ m w1, g w = Ret m w1 ∧ registry_ok w1 ∧
       (∀ l, m = Own l → ∃ c, has_class w1 l c) ∧
       (uuid ∉ Object_prototype → ∃ l, m = Own l)) ∧
  (∃ w1, Cache_invalidateCache w = Ret () w1 ∧ registry_ok w1) ∧
  (∀ h t, registry_ok (world0 h t)).
Proof.
  intros Hok. split; [|split]; [| |apply registry_ok_new_Cache].
  - intros uuid g Hg. pose proof Hok as [H1 H2 H3 H4 H5 H6 H7].
    assert (Hhit : ∀ l c, has_class w l c →
              ∃ m w1, Ret (Own l) w = Ret m w1 ∧ registry_ok w1 ∧
                (∀ l', m = Own l' → ∃ c', has_class w1 l' c') ∧
                (uuid ∉ Object_prototype → ∃ l', m = Own l')).
    { intros l c Hc. exists (Own l), w. split; [done|]. split; [done|].
      split; [intros l' [= <-]|]; eauto. }
    assert (Hinh : uuid ∈ Object_prototype →
              ∃ m w1, Ret (Inherited uuid) w = Ret m w1 ∧ registry_ok w1 ∧
                (∀ l', m = Own l' → ∃ c', has_class w1 l' c') ∧
                (uuid ∉ Object_prototype → ∃ l', m = Own l')).
    { intros Hin. exists (Inherited uuid), w. split; [done|]. split; [done|].
      split; [done|]. intros Hn. by destruct Hn. }
    assert (Hmade : ∀ c f,
              registry_ok (set_CACHE f (set_heap (λ h, h ++ [new_CacheObject c]) w)) →
              ∃ m w1, Ret (Own (length (heap w)))
                        (set_CACHE f (set_heap (λ h, h ++ [new_CacheObject c]) w))
                      = Ret m w1 ∧ registry_ok w1 ∧
                (∀ l', m = Own l' → ∃ c', has_class w1 l' c') ∧
                (uuid ∉ Object_prototype → ∃ l', m = Own l')).
    { intros c f Hok'. eexists _, _. split; [done|]. split; [done|].
      split; [intros l' [= <-]; exists c; apply has_class_new|]. eauto. }
    each_getter Hg.
    + destruct (user (CACHE w)) as [l|] eqn:H.
      * rewrite (own_eq _ _ _ _ (getUser_hit _ _ H)). by eapply Hhit, H5.
      * rewrite (own_eq _ _ _ _ (getUser_miss _ H)). apply Hmade.
        pose proof (registry_ok_alloc w UserCache Hok) as [? ? ? ? ? ? ?].
        split; unfold has_class in *; cbn in *; intros; auto.
        injection H0 as <-. apply has_class_new.
    + destruct (runs (CACHE w) !! uuid) as [l|] eqn:H.
      * destruct (H1 _ _ H) as (sc & Hc & _).
        rewrite (getRun_hit _ _ _ H). by eapply Hhit.
      * destruct (decide (uuid ∈ Object_prototype)) as [Hin|Hn].
        { rewrite (getRun_inherited _ _ H Hin). by apply Hinh. }
        destruct (getRun_miss _ _ H Hn) as (sc & w1 & Hs & ->).
        destruct (registry_ok_getRunStatus w uuid Hok Hn)
          as (sc' & w1' & Hs' & Hok1 & Hreg & Hruns).
        rewrite Hs in Hs'. injection Hs' as <- <-.
        eexists _, _. split; [done|].
        split; [|split; [intros l' [= <-]; eexists; apply has_class_new|eauto]].
        pose proof (registry_ok_alloc w1 (RunCache uuid sc) Hok1) as [G1 ? ? ? ? ? ?].
        split; unfold has_class in *; cbn in *; intros; auto.
        insert_case H0.
        -- exists sc. split; [apply has_class_new|done].
        -- apply G1. done.
    + destruct (sessions (CACHE w) !! uuid) as [l|] eqn:H.
      * rewrite (getSession_hit _ _ _ H). by eapply Hhit, H2.
      * destruct (decide (uuid ∈ Object_prototype)) as [Hin|Hn].
        { rewrite (getSession_inherited _ _ H Hin). by apply Hinh. }
        rewrite (getSession_miss _ _ H Hn). apply Hmade.
        pose proof (registry_ok_alloc w (SessionCache uuid) Hok) as [? ? ? ? ? ? ?].
        split; unfold has_class in *; cbn in *; intros; auto.
        insert_case H0; [apply has_class_new|auto].
    + destruct (runsList (CACHE w)) as [l|] eqn:H.
      * rewrite (own_eq _ _ _ _ (getRunsList_hit _ _ H)). by eapply Hhit, H6.
      * rewrite (own_eq _ _ _ _ (getRunsList_miss _ H)). apply Hmade.
        pose proof (registry_ok_alloc w RunsListCache Hok) as [? ? ? ? ? ? ?].
        split; unfold has_class in *; cbn in *; intros; auto.
        injection H0 as <-. apply has_class_new.
    + destruct (sessionsList (CACHE w)) as [l|] eqn:H.
      * rewrite (own_eq _ _ _ _ (getSessionsList_hit _ _ H)). by eapply Hhit, H7.
      * rewrite (own_eq _ _ _ _ (getSessionsList_miss _ H)). apply Hmade.
        pose proof (registry_ok_alloc w SessionsListCache Hok) as [? ? ? ? ? ? ?].
        split; unfold has_class in *; cbn in *; intros; auto.
        injection H0 as <-. apply has_class_new.
    + destruct (runStatuses (CACHE w) !! uuid) as [l|] eqn:H.
      * rewrite (getRunStatus_hit _ _ _ H). by eapply Hhit, H3.
      * destruct (decide (uuid ∈ Object_prototype)) as [Hin|Hn].
        { rewrite (getRunStatus_inherited _ _ H Hin). by apply Hinh. }
        destruct (registry_ok_getRunStatus w uuid Hok Hn)
          as (l & w1 & Hs & Hok1 & Hreg & _).
        exists (Own l), w1. split; [done|]. split; [done|].
        split; [|eauto]. intros l' [= <-]. eexists.
        destruct Hok1 as [_ _ G3 _ _ _ _]. by apply G3.
    + destruct (sessionStatuses (CACHE w) !! uuid) as [l|] eqn:H.
      * rewrite (getSessionStatus_hit _ _ _ H). by eapply Hhit, H4.
      * destruct (decide (uuid ∈ Object_prototype)) as [Hin|Hn].
        { rewrite (getSessionStatus_inherited _ _ H Hin). by apply Hinh. }
        rewrite (getSessionStatus_miss _ _ H Hn). apply Hmade.
        pose proof (registry_ok_alloc w (SessionStatusCache uuid) Hok)
          as [? ? ? ? ? ? ?].
        split; unfold has_class in *; cbn in *; intros; auto.
        insert_case H0; [apply has_class_new|auto].
  - rewrite invalidateCache_eq.
    2:{ intros u Hu. destruct (ok_user w Hok u Hu) as (o & -> & _). eauto. }
    eexists. split; [done|].
    split; cbn; intros; try (by rewrite lookup_empty in * ); try done.
    rewrite H. destruct (ok_user w Hok l H) as (o & Ho & Hc). rewrite Ho.
    exists (with_data None o). split; [|done].
    apply list_lookup_insert_eq. by eapply lookup_lt_Some.
Qed.

Lemma registry_ok_preserved_witness :
  ∃ m w1, Cache_getSession "s" (world0 [] 0) = Ret m w1 ∧ registry_ok w1.
Proof.
  destruct (proj1 (registry_ok_preserved (world0 [] 0) (registry_ok_new_Cache [] 0))
              "s" (Cache_getSession "s")) as (m & w1 & H1 & H2 & _).
  - unfold Cache_getters, Cache_lookups. apply elem_of_cons. right.
    apply elem_of_cons. right. apply elem_of_cons. left. reflexivity.
  - exists m, w1. split; assumption.
Defined.

(** X4. For a uuid that names no member of [Object.prototype], the run
    handed out by [getRun] is a [RunCache] of that uuid whose [statusCache]
    is the very object that [getRunStatus] hands out for the uuid; a status
    registered before the run is the one the run gets. *)
Theorem Cache_getRun_pairs_status (w : world) (uuid : string) :
  registry_ok w →
  uuid ∉ Object_prototype →
  ∃ l w1 sc,
    Cache_getRun uuid w = Ret (Own l) w1 ∧
    has_class w1 l (RunCache uuid sc) ∧
    has_class w1 sc (RunStatusCache uuid) ∧
    Cache_getRunStatus uuid w1 = Ret (Own sc) w1 ∧
    (∀ sc0, runStatuses (CACHE w) !! uuid = Some sc0 → sc = sc0).
Proof.
  intros Hok Hn. destruct (runs (CACHE w) !! uuid) as [l|] eqn:H.
  - destruct (ok_runs w Hok _ _ H) as (sc & Hc & Hs).
    exists l, w, sc. rewrite (getRun_hit _ _ _ H).
    split; [done|]. split; [done|]. split; [by apply (ok_runStatuses w Hok)|].
    split; [by apply getRunStatus_hit|]. intros sc0 Hsc0. congruence.
  - destruct (getRun_miss _ _ H Hn) as (sc & w1 & Hs & ->).
    destruct (registry_ok_getRunStatus w uuid Hok Hn)
      as (sc' & w1' & Hs' & Hok1 & Hreg & _).
    rewrite Hs in Hs'. injection Hs' as <- <-.
    eexists _, _, sc. split; [done|].
    split; [apply has_class_new|].
    split.
    { apply (has_class_alloc w1). by apply (ok_runStatuses w1 Hok1). }
    split; [by apply getRunStatus_hit|].
    intros sc0 Hsc0. rewrite (getRunStatus_hit _ _ _ Hsc0) in Hs. congruence.
Qed.

Lemma Cache_getRun_pairs_status_witness :
  ∃ l w1 sc, Cache_getRun "r1" (world0 [] 0) = Ret (Own l) w1
             ∧ has_class w1 l (RunCache "r1" sc)
             ∧ Cache_getRunStatus "r1" w1 = Ret (Own sc) w1.
Proof.
  destruct (Cache_getRun_pairs_status (world0 [] 0) "r1" (registry_ok_new_Cache [] 0))
    as (l & w1 & sc & H1 & H2 & _ & H4 & _).
  - apply (bool_decide_unpack _). vm_compute. exact I.
  - exists l, w1, sc. repeat split; assumption.
Defined.

(** ** [RunsListCache.get] without a filter *)

Lemma run_await_load net w this o arg0 :
  heap w !! this = Some o →
  broadcastPromise o = idle →
  inflight w = [] →
  let req := load_request (cls o) arg0 in
  let r := net (sent w ++ [req]) in
  run net (await_load this arg0 w) =
    (match body r with inl e => Threw e | inr v => Returned v end, answered w req r).
Proof.
  intros H Hidle Hq req r.
  destruct (await_load_eq _ _ _ arg0 H) as (w1 & k & Hk & Hload & _ & Hk').
  rewrite Hk. replace w1 with (world_of (load this arg0 w)) by (by rewrite Hload).
  rewrite (run_load net _ _ _ _ _ H Hidle Hq). fold req. fold r.
  rewrite Hk'. by destruct (body r).
Qed.

(** X5. [RunsListCache.get] without a filter, or with the empty string as
    filter, with nothing in flight.  It refreshes on the conditions of
    [CacheObject.get]; a successful refresh asks for the unfiltered list,
    stores it and stamps [lastUpdated] with the time of the answer.
    Otherwise the stored list is returned and the world is not written at
    all: unlike [CacheObject.get], this method never writes [lastUsed]. *)
Theorem RunsListCache_get_unfiltered (net : transport) (w : world) (this : loc)
    (o : CacheObject) (isRefresh : bool) (arg0 : option string) :
  heap w !! this = Some o →
  cls o = RunsListCache →
  broadcastPromise o = idle →
  inflight w = [] →
  arg0 = None ∨ arg0 = Some ""%string →
  let r := net (sent w ++ [getRuns None]) in
  run net (RunsListCache_get this isRefresh arg0 w) =
    if needs_refresh o isRefresh (clock w) then
      match body r with
      | inl e => (Threw e, answered w (getRuns None) r)
      | inr v =>
          (Returned (Some v),
           set_heap (<[this := with_lastUpdated (at_time r) (with_data (Some v) o)]>)
             (answered w (getRuns None) r))
      end
    else (Returned (data o), w).
Proof.
  intros H Hcls Hidle Hq Harg r. pose proof (lookup_lt_Some _ _ _ H) as Hlt.
  assert (Ht : truthy arg0 = false) by (by destruct Harg as [-> | ->]).
  unfold RunsListCache_get. rewrite Ht.
  unfold abind at 1. rewrite (refresh_condition _ _ _ _ H). cbn [bind].
  destruct (needs_refresh o isRefresh (clock w)).
  - unfold abind at 1 2. rewrite !run_bind.
    rewrite (run_await_load net _ _ _ None H Hidle Hq). rewrite Hcls. cbn [load_request].
    fold r. destruct (body r) as [e|v]; [done|].
    unfold set_data, set_lastUpdated, now, gets, abind.
    erewrite update_eq by (cbn; exact H). cbn.
    erewrite update_eq by (cbn; by apply list_lookup_insert_eq). cbn.
    erewrite get_data_eq
      by (cbn; rewrite list_insert_insert_eq; by apply list_lookup_insert_eq).
    cbn. f_equal. apply world_eq; cbn; try done.
    by rewrite list_insert_insert_eq.
  - unfold abind. cbn. by rewrite (get_data_eq _ _ _ H).
Qed.

Lemma RunsListCache_get_unfiltered_witness :
  let o := entry RunsListCache (Some (PRunsList [run_a])) 1000 in
  let w := world0 [o] 2000 in
  run (answers (inr PUndefined) 0) (RunsListCache_get 0 false (Some ""%string) w)
    = (Returned (Some (PRunsList [run_a])), w).
Proof.
  intros o w.
  exact (RunsListCache_get_unfiltered (answers (inr PUndefined) 0) w 0 o false
           (Some ""%string) eq_refl eq_refl eq_refl eq_refl (or_intror eq_refl)).
Defined.

(** ** [RunCache.get] and [AnalysisDataCache.get] *)

Lemma coupled_get_unfold w this o sc isRefresh :
  heap w !! this = Some o →
  is_coupled o sc →
  RunCache_get this isRefresh w
    = bind (CacheObject_get sc false w) (λ status, coupled_get_rest this sc status isRefresh)
  ∧ AnalysisDataCache_get this isRefresh w = RunCache_get this isRefresh w.
Proof.
  intros H Hcls. split; [|done].
  unfold RunCache_get, this_statusCache. unfold abind at 1 2.
  rewrite (read_eq _ _ _ H). cbn [bind].
  destruct Hcls as [(uuid & ->)|(uuid & url & ->)]; done.
Qed.

Lemma coupled_condition w this o (b isRefresh : bool) :
  heap w !! this = Some o →
  (data_is_null this
   ||| (status_isRunning (Some (PStatus b))
          &&& (lu ← get_lastUpdated this; isReloadTimeout lu))
   ||| (ret isRefresh &&& (lu ← get_lastUpdated this; isForceReloadTimeout lu))) w
  = Ret (coupled_needs_refresh o b isRefresh (clock w)) w.
Proof.
  intros H. unfold orelse, andalso, data_is_null, status_isRunning,
    isReloadTimeout, isForceReloadTimeout, now, gets, coupled_needs_refresh.
  unfold abind. rewrite (get_data_eq _ _ _ H). cbn.
  destruct (data o); cbn; [|done].
  destruct b; cbn.
  - rewrite (get_lastUpdated_eq _ _ _ H). cbn.
    destruct (bool_decide (clock w - lastUpdated o > RELOAD_TIMEOUT)%Z); cbn; [done|].
    destruct isRefresh; cbn; [|done]. by rewrite (get_lastUpdated_eq _ _ _ H).
  - destruct isRefresh; cbn; [|done]. by rewrite (get_lastUpdated_eq _ _ _ H).
Qed.

(** The rest of the method when nothing has to be loaded. *)
Lemma coupled_get_rest_fresh w this sc o b isRefresh :
  heap w !! this = Some o →
  coupled_needs_refresh o b isRefresh (clock w) = false →
  coupled_get_rest this sc (Some (PStatus b)) isRefresh w = Ret (data o) w.
Proof.
  intros H Hc. unfold coupled_get_rest. unfold abind at 1.
  rewrite (coupled_condition _ _ _ _ _ H), Hc. cbn.
  unfold abind. cbn. by rewrite (get_data_eq _ _ _ H).
Qed.

(** The rest of the method when the object is loaded. *)
Lemma coupled_get_rest_stale net w this sc o so b isRefresh :
  heap w !! this = Some o →
  heap w !! sc = Some so →
  sc ≠ this →
  broadcastPromise o = idle →
  broadcastPromise so = idle →
  inflight w = [] →
  coupled_needs_refresh o b isRefresh (clock w) = true →
  let req := load_request (cls o) None in
  let r := net (sent w ++ [req]) in
  run net (coupled_get_rest this sc (Some (PStatus b)) isRefresh w) =
    match body r with
    | inl e => (Threw e, answered w req r)
    | inr v =>
        let w2 := set_heap (<[this := with_lastUpdated (at_time r) (with_data (loaded (cls o) v) o)]>)
                    (answered w req r) in
        if isRefresh then
          if needs_refresh so true (at_time r) then
            let sreq := load_request (cls so) None in
            let r' := net (sent w2 ++ [sreq]) in
            match body r' with
            | inl e => (Threw e, answered w2 sreq r')
            | inr s =>
                (Returned (loaded (cls o) v),
                 set_heap (<[sc := with_lastUsed (at_time r')
                               (with_lastUpdated (at_time r') (with_data (loaded (cls so) s) so))]>)
                   (answered w2 sreq r'))
            end
          else (Returned (loaded (cls o) v), set_heap (<[sc := with_lastUsed (at_time r) so]>) w2)
        else (Returned (loaded (cls o) v), w2)
    end.
Proof.
  intros H Hsc Hne Hidle Hsidle Hq Hc req r.
  pose proof (lookup_lt_Some _ _ _ H) as Hlt.
  pose proof (lookup_lt_Some _ _ _ Hsc) as Hslt.
  unfold coupled_get_rest. unfold abind at 1.
  rewrite (coupled_condition _ _ _ _ _ H), Hc. cbn [bind].
  unfold abind at 1 2. rewrite !run_bind.
  rewrite (run_await_load net _ _ _ None H Hidle Hq). fold req. fold r.
  destruct (body r) as [e|v]; [done|].
  unfold set_loaded, set_lastUpdated, now, gets.
  unfold abind at 1. erewrite update_eq by (cbn; exact H). cbn [bind].
  unfold abind at 1. cbn [bind].
  unfold abind at 1. erewrite update_eq by (cbn; by apply list_lookup_insert_eq).
  cbn [bind]. unfold abind at 1.
  erewrite cascade_condition_after_refresh; cycle 1.
  { cbn. rewrite list_insert_insert_eq. by apply list_lookup_insert_eq. }
  { done. }
  cbn [bind].
  change (clock (set_heap <[this:=with_data (loaded (cls o) v) o]> (answered w req r)))
    with (at_time r).
  assert (Hw2 : set_heap <[this:=with_lastUpdated (at_time r) (with_data (loaded (cls o) v) o)]>
            (set_heap <[this:=with_data (loaded (cls o) v) o]> (answered w req r))
          = set_heap (<[this := with_lastUpdated (at_time r) (with_data (loaded (cls o) v) o)]>)
              (answered w req r)).
  { apply world_eq; cbn; try done. by rewrite list_insert_insert_eq. }
  rewrite Hw2. clear Hw2. cbn zeta.
  set (w2 := set_heap _ (answered w req r)).
  assert (H2 : heap w2 !! this
               = Some (with_lastUpdated (at_time r) (with_data (loaded (cls o) v) o)))
    by (cbn; by apply list_lookup_insert_eq).
  destruct isRefresh.
  - assert (Hsc2 : heap w2 !! sc = Some so)
      by (cbn; rewrite list_lookup_insert_ne by done; exact Hsc).
    unfold abind at 1. rewrite run_bind.
    rewrite (run_CacheObject_get net w2 sc so true Hsc2 Hsidle eq_refl).
    change (clock w2) with (at_time r).
    destruct (needs_refresh so true (at_time r)); cbn zeta.
    + destruct (body (net (sent w2 ++ [load_request (cls so) None]))) as [e|s] eqn:Hb.
      { reflexivity. }
      cbn [ret run].
      erewrite (get_data_eq _ this (with_lastUpdated (at_time r) (with_data (loaded (cls o) v) o)));
        [done|].
      cbn. rewrite list_lookup_insert_ne by done. by apply list_lookup_insert_eq.
    + cbn [ret run].
      erewrite (get_data_eq _ this (with_lastUpdated (at_time r) (with_data (loaded (cls o) v) o)));
        [done|].
      cbn. rewrite list_lookup_insert_ne by done. by apply list_lookup_insert_eq.
  - cbn [ret bind run]. by rewrite (get_data_eq _ _ _ H2).
Qed.

(** X6. Both methods ask the status first.  When the status has to be
    loaded and that load fails, the method fails with its error; the request
    of the status is the only one sent and no object is written. *)
Theorem coupled_get_fails_with_status (net : transport) (w : world) (this sc : loc)
    (o so : CacheObject) (isRefresh : bool) (e : error) :
  heap w !! this = Some o →
  heap w !! sc = Some so →
  is_coupled o sc →
  broadcastPromise so = idle →
  inflight w = [] →
  needs_refresh so false (clock w) = true →
  let sreq := load_request (cls so) None in
  body (net (sent w ++ [sreq])) = inl e →
  run net (RunCache_get this isRefresh w)
    = (Threw e, answered w sreq (net (sent w ++ [sreq]))) ∧
  run net (AnalysisDataCache_get this isRefresh w)
    = (Threw e, answered w sreq (net (sent w ++ [sreq]))) ∧
  heap (answered w sreq (net (sent w ++ [sreq]))) = heap w ∧
  sent (answered w sreq (net (sent w ++ [sreq]))) = sent w ++ [sreq].
Proof.
  intros H Hsc Hcp Hsidle Hq Hc sreq He.
  destruct (coupled_get_unfold w this o sc isRefresh H Hcp) as [Hr Ha].
  rewrite Ha, Hr, run_bind.
  rewrite (run_CacheObject_get net w sc so false Hsc Hsidle Hq), Hc. cbn zeta.
  fold sreq. rewrite He. done.
Qed.

Lemma coupled_get_fails_with_status_witness :
  let o := entry (RunCache "a" 1) (Some (PRun run_a)) 0 in
  let so := entry (RunStatusCache "a") None 0 in
  let net := answers (inl (NetworkError 500)) 10 in
  (run net (RunCache_get 0 true (world0 [o; so] 5))).1 = Threw (NetworkError 500).
Proof.
  intros o so net.
  assert (Hcp : is_coupled o 1) by (left; by exists "a"%string).
  destruct (coupled_get_fails_with_status net (world0 [o; so] 5) 0 1 o so true
              (NetworkError 500) eq_refl eq_refl Hcp eq_refl eq_refl eq_refl eq_refl)
    as [H _].
  by rewrite H.
Defined.

(** X7. With the status in store and a value in store, the methods return
    the stored value without any request unless the status says
    [isRunning] and the value is older than [RELOAD_TIMEOUT], or [isRefresh]
    is set and it is older than [FORCE_RELOAD_TIMEOUT].  So a value whose
    status is not running is never refreshed because of its age alone.  The
    only write is [lastUsed] of the status. *)
Theorem coupled_get_serves_stored (net : transport) (w : world) (this sc : loc)
    (o so : CacheObject) (b isRefresh : bool) :
  heap w !! this = Some o →
  heap w !! sc = Some so →
  sc ≠ this →
  is_coupled o sc →
  data so = Some (PStatus b) →
  needs_refresh so false (clock w) = false →
  data o ≠ None →
  (b = true → (clock w - lastUpdated o ≤ RELOAD_TIMEOUT)%Z) →
  (isRefresh = true → (clock w - lastUpdated o ≤ FORCE_RELOAD_TIMEOUT)%Z) →
  let w1 := set_heap (<[sc := with_lastUsed (clock w) so]>) w in
  run net (RunCache_get this isRefresh w) = (Returned (data o), w1) ∧
  run net (AnalysisDataCache_get this isRefresh w) = (Returned (data o), w1).
Proof.
  intros H Hsc Hne Hcp Hsd Hfresh Hd Hb Hr w1.
  destruct (coupled_get_unfold w this o sc isRefresh H Hcp) as [Hrun Ha].
  rewrite Ha, Hrun.
  enough (run net (bind (CacheObject_get sc false w)
            (λ status, coupled_get_rest this sc status isRefresh))
          = (Returned (data o), w1)) by done.
  rewrite (CacheObject_get_fresh _ _ _ _ Hsc Hfresh). cbn [bind]. rewrite Hsd.
  fold w1.
  assert (H1 : heap w1 !! this = Some o)
    by (cbn; rewrite list_lookup_insert_ne by done; exact H).
  rewrite (coupled_get_rest_fresh w1 this sc o b isRefresh H1); [done|].
  unfold coupled_needs_refresh. change (clock w1) with (clock w).
  rewrite (bool_decide_eq_false_2 (data o = None)) by done.
  destruct b, isRefresh; cbn;
    rewrite ?bool_decide_eq_false_2; try done; try (specialize (Hb eq_refl); lia);
    try (specialize (Hr eq_refl); lia).
Qed.

Lemma coupled_get_serves_stored_witness :
  let o := entry (RunCache "a" 1) (Some (PRun run_a)) 0 in
  let so := entry (RunStatusCache "a") (Some (PStatus false)) 999000 in
  let w := world0 [o; so] 1000000 in
  run backend (RunCache_get 0 false w)
    = (Returned (Some (PRun run_a)), set_heap (<[1 := with_lastUsed 1000000 so]>) w).
Proof.
  intros o so w.
  assert (Hcp : is_coupled o 1) by (left; by exists "a"%string).
  assert (Hne : 1 ≠ 0) by (clear; lia).
  destruct (coupled_get_serves_stored backend w 0 1 o so false false
              eq_refl eq_refl Hne Hcp eq_refl eq_refl) as [H _].
  - discriminate.
  - discriminate.
  - discriminate.
  - exact H.
Defined.

(** X8. With [isRefresh] the refresh is followed by [statusCache.get(true)].
    Take the status from the store at the time of the call and let the load
    of the object succeed at time [t].  If the status is then older than
    [FORCE_RELOAD_TIMEOUT] (or than [RELOAD_TIMEOUT]) it is loaded again,
    after the object; otherwise only its [lastUsed] is written.  When that
    second load fails the method fails, and the object keeps the value and
    the [lastUpdated] it has just been given. *)
Theorem coupled_get_cascade (net : transport) (w : world) (this sc : loc)
    (o so : CacheObject) (b : bool) (v : payload) :
  heap w !! this = Some o →
  heap w !! sc = Some so →
  sc ≠ this →
  is_coupled o sc →
  broadcastPromise o = idle →
  broadcastPromise so = idle →
  inflight w = [] →
  data so = Some (PStatus b) →
  needs_refresh so false (clock w) = false →
  coupled_needs_refresh o b true (clock w) = true →
  let req := load_request (cls o) None in
  let sreq := load_request (cls so) None in
  let r := net (sent w ++ [req]) in
  body r = inr v →
  let w2 := set_heap (<[this := with_lastUpdated (at_time r) (with_data (loaded (cls o) v) o)]>)
              (answered (set_heap (<[sc := with_lastUsed (clock w) so]>) w) req r) in
  let r' := net (sent w ++ [req; sreq]) in
  let result :=
    if needs_refresh so true (at_time r) then
      match body r' with
      | inl e => (Threw e, answered w2 sreq r')
      | inr s =>
          (Returned (loaded (cls o) v),
           set_heap (<[sc := with_lastUsed (at_time r')
                         (with_lastUpdated (at_time r') (with_data (loaded (cls so) s) so))]>)
             (answered w2 sreq r'))
      end
    else (Returned (loaded (cls o) v), set_heap (<[sc := with_lastUsed (at_time r) so]>) w2) in
  run net (RunCache_get this true w) = result ∧
  run net (AnalysisDataCache_get this true w) = result ∧
  heap (answered w2 sreq r') !! this
    = Some (with_lastUpdated (at_time r) (with_data (loaded (cls o) v) o)).
Proof.
  intros H Hsc Hne Hcp Hidle Hsidle Hq Hsd Hfresh Hc req sreq r Hv w2 r' result.
  pose proof (lookup_lt_Some _ _ _ H) as Hlt.
  pose proof (lookup_lt_Some _ _ _ Hsc) as Hslt.
  destruct (coupled_get_unfold w this o sc true H Hcp) as [Hrun Ha].
  rewrite Ha, Hrun.
  split; [|split]; [| |cbn; by apply list_lookup_insert_eq; rewrite length_insert].
  all: rewrite (CacheObject_get_fresh _ _ _ _ Hsc Hfresh); cbn [bind]; rewrite Hsd.
  all: set (w1 := set_heap (<[sc := with_lastUsed (clock w) so]>) w) in *.
  all: assert (H1 : heap w1 !! this = Some o)
         by (cbn; rewrite list_lookup_insert_ne by done; exact H).
  all: assert (Hsc1 : heap w1 !! sc = Some (with_lastUsed (clock w) so))
         by (cbn; by apply list_lookup_insert_eq).
  all: rewrite (coupled_get_rest_stale net w1 this sc o (with_lastUsed (clock w) so)
                  b true H1 Hsc1 Hne Hidle Hsidle Hq Hc).
  all: cbn zeta; change (sent w1) with (sent w); fold req; fold r; rewrite Hv.
  all: subst result; fold w2.
  all: change (needs_refresh (with_lastUsed (clock w) so) true (at_time r))
         with (needs_refresh so true (at_time r)).
  all: destruct (needs_refresh so true (at_time r)); [|done].
  all: change (cls (with_lastUsed (clock w) so)) with (cls so); fold sreq.
  all: change (sent w2) with (sent w ++ [req]).
  all: rewrite <- app_assoc; cbn [app]; fold r'.
  all: by destruct (body r').
Qed.

Lemma coupled_get_cascade_witness :
  let o := entry (RunCache "a" 1) (Some (PRun run_a)) 0 in
  let so := entry (RunStatusCache "a") (Some (PStatus true)) 51000 in
  let w := world0 [o; so] 61000 in
  sent (run backend (RunCache_get 0 true w)).2 = [getRun "a"; getRunStatus "a"].
Proof.
  intros o so w.
  assert (Hcp : is_coupled o 1) by (left; by exists "a"%string).
  assert (Hne : 1 ≠ 0) by (clear; lia).
  destruct (coupled_get_cascade backend w 0 1 o so true (PRun run_b)
              eq_refl eq_refl Hne Hcp eq_refl eq_refl eq_refl eq_refl eq_refl eq_refl
              eq_refl) as [H _].
  by rewrite H.
Defined.

(** ** [CacheObject.get]: composition *)

(** X9. Two calls of [get] within the staleness window make one request,
    provided the load resolved with a value.  After a [get] that has loaded
    at time [t] a value that is not [null], a second [get] at a time [t2]
    with [t2 - t <= RELOAD_TIMEOUT] (and, when it sets [isRefresh],
    [t2 - t <= FORCE_RELOAD_TIMEOUT]) returns the same value and sends
    nothing.  When the load resolved with [null], as a load without a
    constructor can, the second [get] sends the request again, at any
    time. *)
Theorem get_twice_one_request (net : transport) (w : world) (this : loc)
    (o : CacheObject) (f1 f2 : bool) (v : payload) (t2 : Z) :
  heap w !! this = Some o →
  broadcastPromise o = idle →
  inflight w = [] →
  needs_refresh o f1 (clock w) = true →
  let req := load_request (cls o) None in
  let r := net (sent w ++ [req]) in
  body r = inr v →
  let first := run net (CacheObject_get this f1 w) in
  let second := run net (CacheObject_get this f2 (set_clock t2 first.2)) in
  first.1 = Returned (loaded (cls o) v) ∧
  (loaded (cls o) v ≠ None →
   (t2 - at_time r ≤ RELOAD_TIMEOUT)%Z →
   (f2 = true → (t2 - at_time r ≤ FORCE_RELOAD_TIMEOUT)%Z) →
     second.1 = Returned (loaded (cls o) v) ∧
     sent second.2 = sent w ++ [req] ∧
     lastUpdated <$> heap second.2 !! this = Some (at_time r)) ∧
  (loaded (cls o) v = None → sent second.2 = sent w ++ [req; req]).
Proof.
  intros H Hidle Hq Hc req r Hv first second.
  pose proof (lookup_lt_Some _ _ _ H) as Hlt.
  subst second first.
  rewrite (run_CacheObject_get net w this o f1 H Hidle Hq), Hc. cbn zeta.
  fold req. fold r. rewrite Hv. cbn [fst snd]. split; [done|].
  set (o1 := with_lastUsed (at_time r)
               (with_lastUpdated (at_time r) (with_data (loaded (cls o) v) o))).
  set (w1 := set_clock t2 _).
  assert (H1 : heap w1 !! this = Some o1) by (cbn; by apply list_lookup_insert_eq).
  rewrite (run_CacheObject_get net w1 this o1 f2 H1 Hidle eq_refl).
  split.
  - intros Hd Ht Hf.
    assert (Hc1 : needs_refresh o1 f2 (clock w1) = false).
    { unfold needs_refresh. cbn.
      rewrite (bool_decide_eq_false_2 (loaded (cls o) v = None)) by done.
      rewrite (bool_decide_eq_false_2 (_ > RELOAD_TIMEOUT)%Z) by lia.
      destruct f2; cbn; [|done].
      rewrite bool_decide_eq_false_2; [done|]. specialize (Hf eq_refl). lia. }
    rewrite Hc1. cbn [fst snd]. split; [done|]. split; [done|].
    cbn. rewrite list_lookup_insert_eq; [done|]. by rewrite length_insert.
  - intros Hd.
    assert (Hc1 : needs_refresh o1 f2 (clock w1) = true).
    { unfold needs_refresh. cbn. by rewrite Hd. }
    rewrite Hc1. cbn zeta. change (cls o1) with (cls o). fold req.
    change (sent w1) with (sent w ++ [req]).
    destruct (body (net ((sent w ++ [req]) ++ [req]))); cbn [snd sent answered set_heap];
      change (sent w1) with (sent w ++ [req]); by rewrite <- app_assoc.
Qed.

Lemma get_twice_one_request_witness :
  let w := world0 [entry UserCache None 0] 1000 in
  let net := answers (inr (PUser 7)) 1200 in
  let first := run net (CacheObject_get 0 false w) in
  sent (run net (CacheObject_get 0 true (set_clock 6000 first.2))).2 = [getUser].
Proof.
  intros w net first.
  destruct (get_twice_one_request net w 0 (entry UserCache None 0) false true (PUser 7)
              6000 eq_refl eq_refl eq_refl eq_refl eq_refl) as (_ & Hone & _).
  destruct Hone as (_ & H & _).
  - discriminate.
  - cbn. unfold RELOAD_TIMEOUT. clear. lia.
  - intros _. cbn. unfold FORCE_RELOAD_TIMEOUT. clear. lia.
  - exact H.
Defined.

(** X10. What [isRefresh] changes.  [get(true)] loads exactly when the value
    is absent or older than [FORCE_RELOAD_TIMEOUT]: the longer timeout plays
    no part.  Whenever [get(false)] loads, [get(true)] loads too. *)
Theorem get_isRefresh_policy (w : world) (this : loc) (o : CacheObject) :
  heap w !! this = Some o →
  ((∃ p w1 k, CacheObject_get this true w = Await p w1 k)
   ↔ data o = None ∨ (clock w - lastUpdated o > FORCE_RELOAD_TIMEOUT)%Z) ∧
  ((∃ p w1 k, CacheObject_get this false w = Await p w1 k) →
   ∃ p w1 k, CacheObject_get this true w = Await p w1 k).
Proof.
  intros H.
  assert (Hiff : ∀ f, (∃ p w1 k, CacheObject_get this f w = Await p w1 k)
                      ↔ needs_refresh o f (clock w) = true).
  { intros f. split.
    - intros (p & w1 & k & Hk).
      destruct (needs_refresh o f (clock w)) eqn:Hc; [done|].
      rewrite (CacheObject_get_fresh _ _ _ _ H Hc) in Hk. done.
    - intros Hc. destruct (CacheObject_get_stale _ _ _ _ H Hc) as (k & Hk & _). eauto. }
  rewrite !Hiff, !needs_refresh_true. unfold RELOAD_TIMEOUT, FORCE_RELOAD_TIMEOUT.
  split.
  - split; [|intros [?|?]; [by left|right; right; split; [done|lia]]].
    intros [?|[?|[_ ?]]]; [by left|right; lia|by right].
  - intros [?|[?|[? _]]]; [by left|right; right; split; [done|lia]|done].
Qed.

Lemma get_isRefresh_policy_witness :
  let o := entry UserCache (Some (PUser 7)) 0 in
  (∃ p w1 k, CacheObject_get 0 true (world0 [o] 5001) = Await p w1 k)
  ↔ data o = None ∨ (5001 - 0 > FORCE_RELOAD_TIMEOUT)%Z.
Proof.
  intros o. exact (proj1 (get_isRefresh_policy (world0 [o] 5001) 0 o eq_refl)).
Defined.

(** X11. With nothing in flight, whatever [CacheObject.get] returns is the
    value the object holds afterwards.  It is [null] only when the call has
    loaded and the load resolved with [null], which takes a class whose
    [load] has no constructor and an empty response: a [get] that returns
    without loading, and a [get] on an object of any other class, never
    yield [null]. *)
Theorem get_returns_stored_value (net : transport) (w : world) (this : loc)
    (o : CacheObject) (isRefresh : bool) :
  heap w !! this = Some o →
  broadcastPromise o = idle →
  inflight w = [] →
  ∀ d w', run net (CacheObject_get this isRefresh w) = (Returned d, w') →
    data <$> heap w' !! this = Some d ∧
    (d = None →
       needs_refresh o isRefresh (clock w) = true ∧
       body (net (sent w ++ [load_request (cls o) None])) = inr PUndefined ∧
       ((∃ uuid url sc, cls o = AnalysisDataCache uuid url sc)
        ∨ (∃ uuid url, cls o = AnalysisPreferenceCache uuid url))).
Proof.
  intros H Hidle Hq d w'. pose proof (lookup_lt_Some _ _ _ H) as Hlt.
  rewrite (run_CacheObject_get net w this o isRefresh H Hidle Hq).
  destruct (needs_refresh o isRefresh (clock w)) eqn:Hc; cbn zeta.
  - destruct (body _) as [e|v] eqn:Hb; [done|]. intros [= <- <-]. split.
    + cbn. by rewrite list_lookup_insert_eq.
    + intros Hd. apply loaded_None in Hd as [-> Hcls]. done.
  - intros [= <- <-]. split.
    + cbn. by rewrite list_lookup_insert_eq.
    + intros Hd. unfold needs_refresh in Hc. rewrite Hd in Hc. done.
Qed.

Lemma get_returns_stored_value_witness :
  let w := world0 [entry (AnalysisPreferenceCache "a" "u") None 0] 1000 in
  let out := run (answers (inr PUndefined) 1200) (CacheObject_get 0 false w) in
  out.1 = Returned None ∧ data <$> heap out.2 !! 0 = Some None.
Proof.
  intros w out. split; [reflexivity|].
  exact (proj1 (get_returns_stored_value (answers (inr PUndefined) 1200) w 0
           (entry (AnalysisPreferenceCache "a" "u") None 0) false eq_refl eq_refl eq_refl
           None out.2 eq_refl)).
Defined.

(** ** [invalidate_cache] while a load is in flight *)

(** X12. An [invalidate_cache] that comes between a [get] and the answer to
    its load is undone by that load: the value is absent until the answer
    arrives, then what the load resolved with is stored and stamped as
    usual, so that, unless that is [null], the next [get] within the window
    serves it without a request. *)
Theorem invalidate_during_load_is_undone (w : world) (this : loc) (o : CacheObject)
    (isRefresh : bool) (r : response) (v : payload) :
  heap w !! this = Some o →
  broadcastPromise o = idle →
  needs_refresh o isRefresh (clock w) = true →
  body r = inr v →
  let l1 := calls [CacheObject_get this isRefresh] w in
  let w2 := world_of (invalidate_cache this l1.2) in
  let l3 := respond (length (inflight w)) r (l1.1, w2) in
  data <$> heap w2 !! this = Some None ∧
  l3.1 = [Done (loaded (cls o) v)] ∧
  data <$> heap l3.2 !! this = Some (loaded (cls o) v) ∧
  lastUpdated <$> heap l3.2 !! this = Some (at_time r) ∧
  (loaded (cls o) v ≠ None →
   ∀ o3 f, heap l3.2 !! this = Some o3 → needs_refresh o3 f (clock l3.2) = false).
Proof.
  intros H Hidle Hc Hv l1 w2 l3. pose proof (lookup_lt_Some _ _ _ H) as Hlt.
  destruct (get_first w this o isRefresh H Hidle Hc) as (k & Hk & Hk').
  set (req := load_request (cls o) None) in *.
  set (o1 := with_broadcastPromise
               {| isLoading := true;
                  resolvers := seq (length (promises w)) 1;
                  rejectors := seq (length (promises w)) 1 |} o).
  assert (H1 : heap (loading_n w this o req 1) !! this = Some o1)
    by (cbn; by apply list_lookup_insert_eq).
  assert (Hl1 : l1 = ([Blocked (length (promises w)) k], loading_n w this o req 1)).
  { subst l1. unfold calls, call. cbn [foldl fst snd]. by rewrite Hk. }
  assert (Hw2 : w2 = set_heap (<[this := with_data None o1]>) (loading_n w this o req 1)).
  { subst w2. rewrite Hl1. cbn [snd]. unfold invalidate_cache, set_data.
    by erewrite update_eq. }
  assert (H2 : heap w2 !! this = Some (with_data None o1)).
  { rewrite Hw2. cbn [heap set_heap loading_n]. apply list_lookup_insert_eq.
    by rewrite length_insert. }
  split; [by rewrite H2|].
  set (o3 := with_lastUsed (at_time r)
               (with_lastUpdated (at_time r)
                  (with_data (loaded (cls o) v)
                     (with_broadcastPromise idle (with_data None o1))))).
  assert (Hl3 : ∃ w3, l3 = ([Done (loaded (cls o) v)], w3) ∧ heap w3 !! this = Some o3
                      ∧ clock w3 = at_time r).
  { subst l3. rewrite Hl1. unfold respond. cbn [fst snd].
    erewrite (deliver_broadcast w2 _ req this (with_data None o1)); cycle 1.
    { rewrite Hw2. cbn. rewrite lookup_app_r by lia. by rewrite Nat.sub_diag. }
    { exact H2. }
    rewrite Hv. cbn [wake_all wake promises pstate_of].
    assert (Hp : foldl (settle_in (Fulfilled v)) (promises w2)
                   (resolvers (broadcastPromise (with_data None o1)))
                 !! length (promises w) = Some (Fulfilled v)).
    { apply settle_all_pending; [cbn; by left|].
      rewrite Hw2. cbn. rewrite lookup_app_r by lia. by rewrite Nat.sub_diag. }
    rewrite Hp, Hk'.
    erewrite after_load_ok; cycle 1.
    { cbn [heap]. apply list_lookup_insert_eq. by eapply lookup_lt_Some. }
    cbn [park]. eexists. split; [reflexivity|]. split; [|done].
    cbn [heap set_heap clock]. apply list_lookup_insert_eq.
    rewrite length_insert. by eapply lookup_lt_Some. }
  destruct Hl3 as (w3 & -> & H3 & Hclock). cbn [fst snd]. rewrite H3.
  split; [done|]. split; [done|]. split; [done|].
  intros Hd o3' f [= <-]. unfold needs_refresh. rewrite Hclock. cbn.
  rewrite (bool_decide_eq_false_2 (loaded (cls o) v = None)) by done.
  rewrite Z.sub_diag. by destruct f.
Qed.

Lemma invalidate_during_load_is_undone_witness :
  let w := world0 [entry UserCache None 0] 1000 in
  let r := {| body := inr (PUser 7); at_time := 1200 |} in
  let l1 := calls [CacheObject_get 0 false] w in
  let l3 := respond 0 r (l1.1, world_of (invalidate_cache 0 l1.2)) in
  data <$> heap l3.2 !! 0 = Some (Some (PUser 7)) ∧
  ∀ o3 f, heap l3.2 !! 0 = Some o3 → needs_refresh o3 f (clock l3.2) = false.
Proof.
  intros w r l1 l3.
  destruct (invalidate_during_load_is_undone w 0 (entry UserCache None 0) false r
              (PUser 7) eq_refl eq_refl eq_refl eq_refl) as (_ & _ & H3 & _ & H5).
  split; [exact H3|]. apply H5. discriminate.
Defined.

(** ** One load in flight for each [BroadcastPromise] *)

Lemma flights_delete_pos this (l : list (request * sink)) i x :
  l !! i = Some x → is_flight this x = true →
  length (filter (λ x, is_flight this x) l) ≠ 0.
Proof.
  intros Hi Hx Hz. apply length_zero_iff_nil in Hz.
  assert (Hin : x ∈ filter (λ x, is_flight this x) l).
  { apply list_elem_of_filter. split; [by rewrite Hx|].
    by eapply list_elem_of_lookup_2. }
  rewrite Hz in Hin. by apply elem_of_nil in Hin.
Qed.

Lemma flights_delete this (l : list (request * sink)) : ∀ i x,
  l !! i = Some x →
  length (filter (λ x, is_flight this x) (delete i l))
  = if is_flight this x then pred (length (filter (λ x, is_flight this x) l))
    else length (filter (λ x, is_flight this x) l).
Proof.
  induction l as [|y l IH]; intros i x Hi; [done|].
  destruct i as [|i]; cbn in Hi.
  - injection Hi as ->. change (delete 0 (x :: l)) with l. rewrite filter_cons.
    destruct (decide (is_flight this x)) as [Hx|Hx].
    + by rewrite (Is_true_true_1 _ Hx).
    + by rewrite (Is_true_false_1 _ Hx).
  - change (delete (S i) (y :: l)) with (y :: delete i l). rewrite !filter_cons.
    destruct (decide (is_flight this y)); cbn [length]; rewrite (IH i x Hi); [|done].
    destruct (is_flight this x) eqn:Hx; [|done].
    pose proof (flights_delete_pos this l i x Hi Hx). lia.
Qed.

Lemma is_flight_same this req : is_flight this (req, SinkBroadcast this) = true.
Proof. unfold is_flight. cbn. by apply bool_decide_eq_true_2. Qed.

Lemma is_flight_other t this req : t ≠ this → is_flight t (req, SinkBroadcast this) = false.
Proof. intros Hne. unfold is_flight. cbn. apply bool_decide_eq_false_2. congruence. Qed.

Lemma flights_one t (x : request * sink) :
  length (filter (λ x, is_flight t x) [x]) = if is_flight t x then 1 else 0.
Proof.
  rewrite filter_cons, filter_nil. destruct (decide (is_flight t x)) as [Hx|Hx].
  - by rewrite (Is_true_true_1 _ Hx).
  - by rewrite (Is_true_false_1 _ Hx).
Qed.

Lemma coalescer_ok_frame (w w' : world) :
  heap w' = heap w → inflight w' = inflight w → coalescer_ok w → coalescer_ok w'.
Proof.
  intros Hh Hi Hok this o Ho. rewrite Hh in Ho. unfold flights. rewrite Hi.
  by apply Hok.
Qed.

Lemma coalescer_ok_create w this load :
  coalescer_ok w → coalescer_ok (world_of (BroadcastPromise_create this load w)).
Proof.
  intros Hok. destruct (heap w !! this) as [o|] eqn:H.
  - pose proof (lookup_lt_Some _ _ _ H) as Hlt.
    rewrite (create_eq _ _ _ _ H). cbn [world_of].
    destruct (Hok this o H) as (Heq & Hiff & Hfl).
    intros t ot Ht. destruct (decide (t = this)) as [->|Hne].
    + assert (ot = with_broadcastPromise
                     (joined (length (promises w)) (broadcastPromise o)) o) as ->.
      { destruct (isLoading (broadcastPromise o)); cbn in Ht;
          rewrite list_lookup_insert_eq in Ht by done; congruence. }
      cbn. split; [by rewrite Heq|]. split.
      { split; [|done]. intros _ Hnil. by apply app_eq_nil in Hnil as [_ ?]. }
      unfold flights in *. destruct (isLoading (broadcastPromise o)) eqn:Hl; cbn.
      * done.
      * by rewrite filter_app, length_app, Hfl, flights_one, is_flight_same.
    + assert (Ht' : heap w !! t = Some ot).
      { destruct (isLoading (broadcastPromise o)); cbn in Ht;
          by rewrite list_lookup_insert_ne in Ht. }
      destruct (Hok t ot Ht') as (Heq' & Hiff' & Hfl').
      split; [done|]. split; [done|].
      unfold flights in *. destruct (isLoading (broadcastPromise o)); cbn; [done|].
      rewrite filter_app, length_app, Hfl', flights_one, is_flight_other by done. lia.
  - unfold BroadcastPromise_create, new_promise, BroadcastPromise_add, set_bp, update,
      read, abind, gets, modify. cbn. rewrite H. cbn.
    by apply (coalescer_ok_frame w).
Qed.

Lemma coalescer_ok_deliver w i r :
  coalescer_ok w → coalescer_ok (deliver i r w).
Proof.
  intros Hok. unfold deliver. destruct (inflight w !! i) as [[req to]|] eqn:Hi; [|done].
  set (w1 := set_clock (at_time r) (set_inflight (delete i) w)).
  assert (Hother : ∀ t, is_flight t (req, to) = false → flights w1 t = flights w t).
  { intros t Ht. unfold flights. cbn. by rewrite (flights_delete t _ _ _ Hi), Ht. }
  destruct to as [this|p].
  - destruct (heap w !! this) as [o|] eqn:H.
    + pose proof (lookup_lt_Some _ _ _ H) as Hlt.
      assert (H1 : heap w1 !! this = Some o) by exact H.
      assert (Hres : ∃ tbl, ∀ w',
                w' = match body r with
                     | inl e => world_of (BroadcastPromise_reject this e w1)
                     | inr v => world_of (BroadcastPromise_resolve this v w1)
                     end →
                heap w' = <[this := with_broadcastPromise idle o]> (heap w)
                ∧ inflight w' = delete i (inflight w) ∧ promises w' = tbl).
      { destruct (body r) as [e|v].
        - rewrite (reject_eq _ _ _ _ H1). eexists. by intros w' ->.
        - rewrite (resolve_eq _ _ _ _ H1). eexists. by intros w' ->. }
      destruct Hres as (tbl & Hres).
      match goal with |- coalescer_ok ?W => destruct (Hres W) as (Hh & Hin & _) end.
      { by destruct (body r). }
      intros t ot Ht. rewrite Hh in Ht. unfold flights. rewrite Hin.
      destruct (decide (t = this)) as [->|Hne].
      * rewrite list_lookup_insert_eq in Ht by done. injection Ht as <-. cbn.
        split; [done|]. split; [done|].
        rewrite (flights_delete this _ _ _ Hi), is_flight_same.
        destruct (Hok this o H) as (_ & _ & Hfl). unfold flights in Hfl. rewrite Hfl.
        by destruct (isLoading (broadcastPromise o)).
      * rewrite list_lookup_insert_ne in Ht by done.
        destruct (Hok t ot Ht) as (Heq' & Hiff' & Hfl').
        split; [done|]. split; [done|].
        rewrite (flights_delete t _ _ _ Hi), is_flight_other by done. exact Hfl'.
    + assert (Hw : ∀ w', w' = match body r with
                              | inl e => world_of (BroadcastPromise_reject this e w1)
                              | inr v => world_of (BroadcastPromise_resolve this v w1)
                              end → w' = w1).
      { intros w' ->. unfold BroadcastPromise_reject, BroadcastPromise_resolve, get_bp,
          read, abind. cbn. rewrite H. by destruct (body r). }
      match goal with |- coalescer_ok ?W => rewrite (Hw W) end.
      2:{ by destruct (body r). }
      intros t ot Ht. change (heap w1) with (heap w) in Ht.
      destruct (Hok t ot Ht) as (Heq' & Hiff' & Hfl').
      split; [done|]. split; [done|]. rewrite Hother; [done|].
      apply is_flight_other. intros ->. congruence.
  - intros t ot Ht. change (heap w !! t = Some ot) in Ht.
    destruct (Hok t ot Ht) as (Heq' & Hiff' & Hfl').
    split; [done|]. split; [done|].
    change (flights w1 t = (if isLoading (broadcastPromise ot) then 1 else 0)).
    by rewrite Hother.
Qed.

Lemma coalescer_ok_insert w this o o' :
  heap w !! this = Some o →
  broadcastPromise o' = broadcastPromise o →
  coalescer_ok w → coalescer_ok (set_heap (<[this := o']>) w).
Proof.
  intros H Hb Hok t ot Ht. pose proof (lookup_lt_Some _ _ _ H) as Hlt.
  cbn in Ht. change (flights (set_heap _ w) t) with (flights w t).
  destruct (decide (t = this)) as [->|Hne].
  - rewrite list_lookup_insert_eq in Ht by done. injection Ht as <-.
    rewrite Hb. by apply Hok.
  - rewrite list_lookup_insert_ne in Ht by done. by apply Hok.
Qed.

Lemma coalescer_ok_update w this f :
  (∀ o, broadcastPromise (f o) = broadcastPromise o) →
  coalescer_ok w → coalescer_ok (world_of (update this f w)).
Proof.
  intros Hf Hok. destruct (heap w !! this) as [o|] eqn:H.
  - rewrite (update_eq _ _ _ _ H). by apply (coalescer_ok_insert w this o).
  - unfold update, read, abind. by rewrite H.
Qed.

(** X13. At most one load is in flight for each [BroadcastPromise].  If in
    every object the two lists of callbacks are equal, [isLoading] is set
    exactly when they are non-empty, and one load of the object is in flight
    when it is set and none otherwise, then the same holds after [create],
    after any answer of the transport (which runs [resolve] or [reject]),
    after [invalidate_cache], and after each of the two halves of
    [CacheObject.get].  It holds when all coalescers are idle and nothing
    is in flight. *)
Theorem coalescer_ok_preserved (w : world) :
  coalescer_ok w →
  (∀ this load, coalescer_ok (world_of (BroadcastPromise_create this load w))) ∧
  (∀ i r, coalescer_ok (deliver i r w)) ∧
  (∀ this, coalescer_ok (world_of (invalidate_cache this w))) ∧
  (∀ this isRefresh, coalescer_ok (world_of (CacheObject_get this isRefresh w))) ∧
  (∀ this r, coalescer_ok (world_of (after_load this r w))) ∧
  (∀ h t, Forall (λ o, broadcastPromise o = idle) h → coalescer_ok (world0 h t)).
Proof.
  intros Hok. split; [|split; [|split; [|split; [|split]]]].
  - intros. by apply coalescer_ok_create.
  - intros. by apply coalescer_ok_deliver.
  - intros this. by apply coalescer_ok_update.
  - intros this isRefresh. destruct (heap w !! this) as [o|] eqn:H.
    + destruct (needs_refresh o isRefresh (clock w)) eqn:Hc.
      * destruct (CacheObject_get_stale _ _ _ _ H Hc) as (k & -> & _).
        cbn [world_of]. rewrite (load_eq _ _ _ _ H). by apply coalescer_ok_create.
      * rewrite (CacheObject_get_fresh _ _ _ _ H Hc). cbn [world_of].
        by apply (coalescer_ok_insert w this o).
    + unfold CacheObject_get, orelse, data_is_null, get_data, read, abind. by rewrite H.
  - intros this [e|v]; [done|]. destruct (heap w !! this) as [o|] eqn:H.
    + rewrite (after_load_ok _ _ _ _ H). by apply (coalescer_ok_insert w this o).
    + unfold after_load, set_loaded, update, read, abind. by rewrite H.
  - intros h t Hh this o Ho. cbn in Ho.
    rewrite Forall_forall in Hh. specialize (Hh o).
    rewrite Hh by (by eapply list_elem_of_lookup_2). done.
Qed.

Lemma coalescer_ok_preserved_witness :
  coalescer_ok (deliver 0 {| body := inr (PUser 7); at_time := 5 |}
     (world_of (BroadcastPromise_create 0 getUser (world0 [entry UserCache None 0] 0)))).
Proof.
  assert (H0 : coalescer_ok (world0 [entry UserCache None 0] 0)).
  { intros this o Ho. destruct this as [|[|this]]; [|done..].
    injection Ho as <-. cbn. repeat split; done. }
  apply coalescer_ok_preserved.
  by apply coalescer_ok_preserved.
Defined.

(** ** Methods that call the transport themselves *)

Lemma perform_lift {A} net srv (m : res A) :
  perform net srv (lift_res m) = ([], run net m).
Proof.
  induction m as [a w|e w|p w k IH]; cbn [lift_res perform run]; try done.
  destruct (promises _ !! p) as [[|v|e]|]; try done; apply IH.
Qed.

(** A method of the cache inside a [try], followed by more statements. *)
Lemma perform_lift_in_try {A B} net srv (m : res A) (f : A → action B)
    (h : error → action B) :
  perform net srv (act_catch (act_bind (lift_res m) f) h) =
    match run net m with
    | (Returned a, w') => perform net srv (act_catch (f a w') h)
    | (Threw e, w') => perform net srv (h e w')
    | (Waiting, w') => ([], (Waiting, w'))
    end.
Proof.
  induction m as [a w|e w|p w k IH]; cbn [lift_res act_bind act_catch perform run];
    try done.
  destruct (promises _ !! p) as [[|v|e]|]; try done; apply IH.
Qed.

Local Ltac mutation_then_invalidate srv H :=
  unfold RunsListCache_addRun, RunsListCache_claimRun, SessionsListCache_addSession,
    SessionsListCache_claimSession, action_bind, await_NETWORK, lift, invalidate_cache,
    set_data;
  cbn [act_bind perform];
  match goal with
  | |- context [srv ?c] => destruct (srv c) as [[?|?] ?]
  end; cbn [fst snd act_bind perform lift_res]; [done|];
  erewrite update_eq by (cbn; exact H); done.

(** X14. [addRun], [claimRun], [addSession] and [claimSession] make their
    call first and write nothing before it is answered.  When the call
    succeeds the value of the object is removed, and nothing else; when it
    fails the method fails with the error of the call and the object keeps
    its value. *)
Theorem mutation_invalidates_on_success (net : transport) (srv : service) (w : world)
    (this : loc) (o : CacheObject) (run : Run) (session : Session) :
  heap w !! this = Some o →
  let after (c : mutation) :=
    ([Called c],
     match (srv c).1 with
     | inl e => (Threw e, set_clock (srv c).2 w)
     | inr _ => (Returned (), set_heap (<[this := with_data None o]>) (set_clock (srv c).2 w))
     end) in
  perform net srv (RunsListCache_addRun this run w) = after (addRun (run_uuid run)) ∧
  perform net srv (RunsListCache_claimRun this run w) = after (claimRun (run_uuid run)) ∧
  perform net srv (SessionsListCache_addSession this session w)
    = after (addSession (session_uuid session)) ∧
  perform net srv (SessionsListCache_claimSession this session w)
    = after (claimSession (session_uuid session)).
Proof.
  intros H after. subst after. cbn beta.
  split; [|split; [|split]]; mutation_then_invalidate srv H.
Qed.

Lemma mutation_invalidates_on_success_witness :
  let o := entry RunsListCache (Some (PRunsList [run_a])) 0 in
  let srv : service :=
    λ _, (inr {| is_successful := true; reply_error := None; reply_rest := 0 |}, 7%Z) in
  perform (answers (inr PUndefined) 0) srv (RunsListCache_addRun 0 run_b (world0 [o] 5))
    = ([Called (addRun "b")],
       (Returned (), set_heap (<[0 := with_data None o]>) (set_clock 7 (world0 [o] 5)))).
Proof.
  intros o srv.
  exact (proj1 (mutation_invalidates_on_success (answers (inr PUndefined) 0) srv
                  (world0 [o] 5) 0 o run_b {| session_uuid := "s"; session_rest := 0 |}
                  eq_refl)).
Defined.

Lemma this_uuid_eq w this o uuid :
  heap w !! this = Some o →
  (∃ sc, cls o = RunCache uuid sc) ∨ cls o = SessionCache uuid
  ∨ (∃ url sc, cls o = AnalysisDataCache uuid url sc)
  ∨ (∃ url, cls o = AnalysisPreferenceCache uuid url) →
  this_uuid this w = Ret uuid w.
Proof.
  intros H Hc. unfold this_uuid, abind. rewrite (read_eq _ _ _ H). cbn.
  destruct Hc as [(sc & ->)|[->|[(url & sc & ->)|(url & ->)]]]; done.
Qed.

Lemma this_url_eq w this o url :
  heap w !! this = Some o →
  (∃ uuid sc, cls o = AnalysisDataCache uuid url sc)
  ∨ (∃ uuid, cls o = AnalysisPreferenceCache uuid url) →
  this_url this w = Ret url w.
Proof.
  intros H Hc. unfold this_url, abind. rewrite (read_eq _ _ _ H). cbn.
  destruct Hc as [(uuid & sc & ->)|(uuid & ->)]; done.
Qed.

(** X15. The setters and the two job starters write nothing in the cache:
    whatever the transport answers, the world afterwards differs from the
    one before by the clock alone, and the method fails exactly when its
    call does.  The object is neither updated nor invalidated, so a [get]
    that follows a successful [setUser] within the window still returns the
    value stored before, without a request. *)
Theorem setters_leave_cache (net : transport) (srv : service) (w : world) (this : loc)
    (o : CacheObject) :
  heap w !! this = Some o →
  let after {A} (c : mutation) (f : reply → A) : list event * (outcome A * world) :=
    ([Called c],
     (match (srv c).1 with inl e => Threw e | inr res => Returned (f res) end,
      set_clock (srv c).2 w)) in
  (∀ u, perform net srv (UserCache_setUser this u w) = after (setUser u) (λ _, ())) ∧
  (∀ cu rs, perform net srv (RunsListCache_startTensorBoard this cu rs w)
            = after (startTensorBoard cu rs) new_Job) ∧
  (∀ cu rs, perform net srv (RunsListCache_clearCheckPoints this cu rs w)
            = after (clearCheckPoints cu rs) new_Job) ∧
  (∀ uuid sc r, cls o = RunCache uuid sc →
     perform net srv (RunCache_setRun this r w) = after (setRun uuid r) (λ _, ())) ∧
  (∀ uuid s, cls o = SessionCache uuid →
     perform net srv (SessionCache_setSession this s w)
       = after (setSession uuid s) (λ _, ())) ∧
  (∀ uuid url sc d, cls o = AnalysisDataCache uuid url sc →
     perform net srv (AnalysisDataCache_setAnalysis this d w)
       = after (setAnalysis url uuid d) (λ _, ())) ∧
  (∀ uuid url p, cls o = AnalysisPreferenceCache uuid url →
     perform net srv (AnalysisPreferenceCache_setPreference this p w)
       = after (updatePreferences url uuid p) (λ _, ())) ∧
  (∀ u res, (srv (setUser u)).1 = inr res →
     needs_refresh o false (srv (setUser u)).2 = false →
     (run net (CacheObject_get this false
                 (perform net srv (UserCache_setUser this u w)).2.2)).1
       = Returned (data o)
     ∧ sent (run net (CacheObject_get this false
                 (perform net srv (UserCache_setUser this u w)).2.2)).2 = sent w).
Proof.
  intros H after. subst after. cbn beta.
  assert (Huser : ∀ u, perform net srv (UserCache_setUser this u w)
                       = ([Called (setUser u)],
                          (match (srv (setUser u)).1 with
                           | inl e => Threw e | inr _ => Returned () end,
                           set_clock (srv (setUser u)).2 w))).
  { intros u. unfold UserCache_setUser, action_bind, await_NETWORK, action_ret.
    cbn [act_bind perform]. by destruct (srv (setUser u)) as [[?|?] ?]. }
  split; [exact Huser|].
  split.
  { intros cu rs. unfold RunsListCache_startTensorBoard, action_bind, await_NETWORK,
      action_ret. cbn [act_bind perform].
    by destruct (srv (startTensorBoard cu rs)) as [[?|?] ?]. }
  split.
  { intros cu rs. unfold RunsListCache_clearCheckPoints, action_bind, await_NETWORK,
      action_ret. cbn [act_bind perform].
    by destruct (srv (clearCheckPoints cu rs)) as [[?|?] ?]. }
  split.
  { intros uuid sc r Hc. unfold RunCache_setRun, action_bind, lift at 1.
    rewrite (this_uuid_eq w this o uuid H) by (left; eauto).
    unfold await_NETWORK, action_ret. cbn [lift_res act_bind perform].
    by destruct (srv (setRun uuid r)) as [[?|?] ?]. }
  split.
  { intros uuid s Hc. unfold SessionCache_setSession, action_bind, lift at 1.
    rewrite (this_uuid_eq w this o uuid H) by (right; left; eauto).
    unfold await_NETWORK, action_ret. cbn [lift_res act_bind perform].
    by destruct (srv (setSession uuid s)) as [[?|?] ?]. }
  split.
  { intros uuid url sc d Hc. unfold AnalysisDataCache_setAnalysis, action_bind.
    unfold lift at 1. rewrite (this_url_eq w this o url H) by (left; eauto).
    cbn [lift_res act_bind]. unfold lift at 1.
    rewrite (this_uuid_eq w this o uuid H) by (right; right; left; eauto).
    unfold await_NETWORK, action_ret. cbn [lift_res act_bind perform].
    by destruct (srv (setAnalysis url uuid d)) as [[?|?] ?]. }
  split.
  { intros uuid url p Hc. unfold AnalysisPreferenceCache_setPreference, action_bind.
    unfold lift at 1. rewrite (this_url_eq w this o url H) by (right; eauto).
    cbn [lift_res act_bind]. unfold lift at 1.
    rewrite (this_uuid_eq w this o uuid H) by (right; right; right; eauto).
    unfold await_NETWORK, action_ret. cbn [lift_res act_bind perform].
    by destruct (srv (updatePreferences url uuid p)) as [[?|?] ?]. }
  intros u res Hres Hc. rewrite Huser. cbn [fst snd].
  assert (H1 : heap (set_clock (srv (setUser u)).2 w) !! this = Some o) by exact H.
  rewrite (CacheObject_get_fresh _ _ _ _ H1 Hc). done.
Qed.

Lemma setters_leave_cache_witness :
  let o := entry UserCache (Some (PUser 7)) 0 in
  let w := world0 [o] 5 in
  let net := answers (inr (PUser 8)) 200 in
  let srv : service :=
    λ _, (inr {| is_successful := true; reply_error := None; reply_rest := 0 |}, 100%Z) in
  let after := (perform net srv (UserCache_setUser 0 8 w)).2.2 in
  (run net (CacheObject_get 0 false after)).1 = Returned (Some (PUser 7))
  ∧ sent (run net (CacheObject_get 0 false after)).2 = [].
Proof.
  intros o w net srv after.
  exact (proj2 (proj2 (proj2 (proj2 (proj2 (proj2 (proj2
           (setters_leave_cache net srv w 0 o eq_refl))))))) 8
           {| is_successful := true; reply_error := None; reply_rest := 0 |}
           eq_refl eq_refl).
Defined.

(** ** Signing in and out *)

Lemma needs_refresh_no_data o isRefresh t :
  needs_refresh (with_data None o) isRefresh t = true.
Proof. done. Qed.

Lemma run_set_data net w this o d :
  heap w !! this = Some o →
  run net (set_data this d w) = (Returned (), set_heap (<[this := with_data d o]>) w).
Proof. intros H. unfold set_data. by rewrite (update_eq _ _ _ _ H). Qed.

Lemma run_invalidateCache net w this o :
  heap w !! this = Some o →
  user (CACHE w) = Some this →
  run net (Cache_invalidateCache w) = (Returned (), invalidated w this o (clock w)).
Proof.
  intros H Hu. rewrite invalidateCache_eq.
  - rewrite Hu, H. done.
  - intros u Hu'. rewrite Hu in Hu'. injection Hu' as <-. eauto.
Qed.

(** X16. [signIn] never fails and never waits for ever: it returns [false]
    after showing a message when the call fails or is answered as not
    successful, and then the cache is as it was.  When the call succeeds the
    value of the user is removed and the registry emptied before the user is
    fetched again.  With no load of the user in flight that is one [getUser]
    request: if it fails the method shows the error and returns [false]
    with the cache already emptied, and if it succeeds the method returns
    [true] with the new user stored.  With a load of the user in flight the
    method sends no request: it joins that load, and what it stores is the
    answer to the request sent before the sign-in. *)
Theorem UserCache_signIn_outcome (net : transport) (srv : service) (w : world)
    (this : loc) (o : CacheObject) (d : nat) :
  heap w !! this = Some o →
  cls o = UserCache →
  user (CACHE w) = Some this →
  let c := signIn d in
  let t := (srv c).2 in
  let out := perform net srv (UserCache_signIn this d w) in
  (∀ e, (srv c).1 = inl e →
     out = ([Called c; Shown (describe e)], (Returned false, set_clock t w))) ∧
  (∀ res, (srv c).1 = inr res → is_successful res = false →
     out = ([Called c; Shown (ResponseError (reply_error res))],
            (Returned false, set_clock t w))) ∧
  (∀ res, (srv c).1 = inr res → is_successful res = true →
     broadcastPromise o = idle → inflight w = [] →
     let r := net (sent w ++ [getUser]) in
     out = match body r with
           | inl e =>
               ([Called c; Shown (describe e)],
                (Returned false, answered (invalidated w this o t) getUser r))
           | inr v =>
               ([Called c],
                (Returned true,
                 set_heap (<[this := with_lastUsed (at_time r)
                               (with_lastUpdated (at_time r) (with_data (Some v) o))]>)
                   (answered (invalidated w this o t) getUser r)))
           end) ∧
  (∀ res, (srv c).1 = inr res → is_successful res = true →
     isLoading (broadcastPromise o) = true →
     ∀ req0, inflight w = [(req0, SinkBroadcast this)] →
     let r := net (sent w) in
     let w1 := joined_answered (invalidated w this o t) this (with_data None o) r in
     sent out.2.2 = sent w ∧
     out = match body r with
           | inl e => ([Called c; Shown (describe e)], (Returned false, w1))
           | inr v =>
               ([Called c],
                (Returned true,
                 set_heap (<[this := with_lastUsed (at_time r)
                               (with_lastUpdated (at_time r)
                                  (with_data (Some v) (with_broadcastPromise idle o)))]>)
                   w1))
           end).
Proof.
  intros H Hcls Hu c t out.
  pose proof (lookup_lt_Some _ _ _ H) as Hlt.
  split; [|split; [|split]].
  1: intros e Hs.
  2: intros res Hs Hok.
  3: intros res Hs Hok Hidle Hq r.
  4: intros res Hs Hok Hl req0 Hq r w1;
     match goal with
     | |- _ ∧ out = ?rhs =>
         enough (Hout : out = rhs)
           by (split; [rewrite Hout; by destruct (body r)|exact Hout])
     end.
  all: subst out t c.
  all: unfold UserCache_signIn, try_catch, action_bind at 1, await_NETWORK.
  all: cbn [act_bind act_catch perform].
  all: destruct (srv (signIn d)) as [[e0|res0] t]; cbn [fst snd act_bind act_catch] in *.
  all: try discriminate.
  all: injection Hs as ->.
  1: { unfold action_bind, showError, action_ret. done. }
  all: rewrite Hok; cbn [negb].
  1: { unfold action_bind, showError, action_ret. done. }
  all: unfold action_bind at 1, lift at 1; rewrite perform_lift_in_try.
  all: rewrite (run_set_data _ _ _ o) by exact H.
  all: unfold action_bind at 1, lift at 1; rewrite perform_lift_in_try.
  all: rewrite (run_invalidateCache _ _ this (with_data None o))
         by first [exact Hu | cbn; by apply list_lookup_insert_eq].
  all: unfold action_bind at 1, lift at 1; rewrite perform_lift_in_try.
  - rewrite (run_CacheObject_get _ _ _ (with_data None o))
      by first [exact Hidle | exact Hq
               | cbn; rewrite list_insert_insert_eq; by apply list_lookup_insert_eq].
    rewrite needs_refresh_no_data. cbn [cls with_data sent invalidated set_heap set_clock].
    rewrite Hcls. cbn [load_request loaded]. fold r.
    destruct (body r) as [e|v] eqn:Hr.
    + cbn. do 3 f_equal. apply world_eq; cbn; try done.
      by rewrite list_insert_insert_eq.
    + cbn. do 3 f_equal. apply world_eq; cbn; try done.
      by rewrite !list_insert_insert_eq.
  - rewrite (run_CacheObject_get_joins _ _ _ (with_data None o) false req0)
      by first [exact Hl | exact Hq | apply needs_refresh_no_data
               | cbn; rewrite list_insert_insert_eq; by apply list_lookup_insert_eq].
    cbn [cls with_data sent invalidated set_heap set_clock].
    rewrite Hcls. cbn [loaded]. fold r.
    assert (Hw1 : joined_answered
                    (invalidated (set_heap <[this:=with_data None o]> (set_clock t w)) this
                       (with_data None o)
                       (clock (set_heap <[this:=with_data None o]> (set_clock t w))))
                    this (with_data None o) r = w1).
    { apply world_eq; cbn; try done. by rewrite list_insert_insert_eq. }
    rewrite Hw1.
    destruct (body r) as [e|v] eqn:Hr; cbn; done.
Qed.

Lemma UserCache_signIn_outcome_witness :
  let w := world_of (Cache_getUser (world0 [] 0)) in
  let srv : service :=
    λ _, (inr {| is_successful := true; reply_error := None; reply_rest := 0 |}, 10%Z) in
  let net := answers (inr (PUser 7)) 20 in
  let out := perform net srv (UserCache_signIn 0 1 w) in
  let w_l := loading_n w 0 (new_CacheObject UserCache) getUser 1 in
  let out_l := perform net srv (UserCache_signIn 0 1 w_l) in
  (out.1 = [Called (signIn 1)] ∧ out.2.1 = Returned true ∧ sent out.2.2 = [getUser])
  ∧ (sent w_l = [getUser] ∧ out_l.2.1 = Returned true ∧ sent out_l.2.2 = [getUser]).
Proof.
  intros w srv net out w_l out_l. split.
  - subst out.
    rewrite (proj1 (proj2 (proj2 (UserCache_signIn_outcome net srv w 0
               (new_CacheObject UserCache) 1 eq_refl eq_refl eq_refl)))
               _ eq_refl eq_refl eq_refl eq_refl).
    repeat split; reflexivity.
  - subst out_l.
    destruct (proj2 (proj2 (proj2 (UserCache_signIn_outcome net srv w_l 0
                (with_broadcastPromise
                   {| isLoading := true; resolvers := [0]; rejectors := [0] |}
                   (new_CacheObject UserCache)) 1 eq_refl eq_refl eq_refl)))
                _ eq_refl eq_refl eq_refl getUser eq_refl) as [Hsent Hout].
    split; [reflexivity|]. split; [by rewrite Hout|exact Hsent].
Defined.

(** X17. [signUp] fetches the user before it empties the registry, and
    [invalidateCache] then removes the value just fetched: after a
    successful [signUp] the user object holds no value, although the method
    returns [true].  With no load of the user in flight the fetch is one
    [getUser] request; with one in flight the method sends nothing and
    joins it.  When the fetch fails the registry is not emptied: the method
    shows the error and returns [false] with only the value of the user
    removed.  When the call itself fails or is answered as not successful
    the cache is as it was. *)
Theorem UserCache_signUp_outcome (net : transport) (srv : service) (w : world)
    (this : loc) (o : CacheObject) (d : nat) :
  heap w !! this = Some o →
  cls o = UserCache →
  user (CACHE w) = Some this →
  let c := signUp d in
  let t := (srv c).2 in
  let w0 := set_heap (<[this := with_data None o]>) (set_clock t w) in
  let out := perform net srv (UserCache_signUp this d w) in
  (∀ e, (srv c).1 = inl e →
     out = ([Called c; Shown (describe e)], (Returned false, set_clock t w))) ∧
  (∀ res, (srv c).1 = inr res → is_successful res = false →
     out = ([Called c; Shown (ResponseError (reply_error res))],
            (Returned false, set_clock t w))) ∧
  (∀ res, (srv c).1 = inr res → is_successful res = true →
     broadcastPromise o = idle → inflight w = [] →
     let r := net (sent w ++ [getUser]) in
     out = match body r with
           | inl e =>
               ([Called c; Shown (describe e)], (Returned false, answered w0 getUser r))
           | inr v =>
               ([Called c],
                (Returned true,
                 invalidated (answered w getUser r) this
                   (with_lastUsed (at_time r) (with_lastUpdated (at_time r) o))
                   (at_time r)))
           end) ∧
  (∀ res, (srv c).1 = inr res → is_successful res = true →
     isLoading (broadcastPromise o) = true →
     ∀ req0, inflight w = [(req0, SinkBroadcast this)] →
     let r := net (sent w) in
     let w1 := joined_answered w0 this (with_data None o) r in
     sent out.2.2 = sent w ∧
     out = match body r with
           | inl e => ([Called c; Shown (describe e)], (Returned false, w1))
           | inr v =>
               ([Called c],
                (Returned true,
                 invalidated w1 this
                   (with_lastUsed (at_time r)
                      (with_lastUpdated (at_time r) (with_broadcastPromise idle o)))
                   (at_time r)))
           end).
Proof.
  intros H Hcls Hu c t w0 out.
  pose proof (lookup_lt_Some _ _ _ H) as Hlt.
  split; [|split; [|split]].
  1: intros e Hs.
  2: intros res Hs Hok.
  3: intros res Hs Hok Hidle Hq r.
  4: intros res Hs Hok Hl req0 Hq r w1;
     match goal with
     | |- _ ∧ out = ?rhs =>
         enough (Hout : out = rhs)
           by (split; [rewrite Hout; by destruct (body r)|exact Hout])
     end.
  all: subst out w0 t c.
  all: unfold UserCache_signUp, try_catch, action_bind at 1, await_NETWORK.
  all: cbn [act_bind act_catch perform].
  all: destruct (srv (signUp d)) as [[e0|res0] t]; cbn [fst snd act_bind act_catch] in *.
  all: try discriminate.
  all: injection Hs as ->.
  1: { unfold action_bind, showError, action_ret. done. }
  all: rewrite Hok; cbn [negb].
  1: { unfold action_bind, showError, action_ret. done. }
  all: unfold action_bind at 1, lift at 1; rewrite perform_lift_in_try.
  all: rewrite (run_set_data _ _ _ o) by exact H.
  all: unfold action_bind at 1, lift at 1; rewrite perform_lift_in_try.
  - rewrite (run_CacheObject_get _ _ _ (with_data None o))
      by first [exact Hidle | exact Hq | cbn; by apply list_lookup_insert_eq].
    rewrite needs_refresh_no_data. cbn [cls with_data sent set_heap set_clock].
    rewrite Hcls. cbn [load_request loaded]. fold r.
    destruct (body r) as [e|v] eqn:Hr.
    + cbn. unfold action_bind, showError, action_ret. done.
    + cbn zeta. unfold action_bind at 1, lift at 1. rewrite perform_lift_in_try.
      rewrite (run_invalidateCache _ _ this
                 (with_lastUsed (at_time r)
                    (with_lastUpdated (at_time r)
                       (with_data (Some v) (with_data None o)))))
        by first [exact Hu
                 | cbn; rewrite list_insert_insert_eq; by apply list_lookup_insert_eq].
      cbn. do 2 f_equal. apply world_eq; cbn; try done.
      by rewrite !list_insert_insert_eq.
  - rewrite (run_CacheObject_get_joins _ _ _ (with_data None o) false req0)
      by first [exact Hl | exact Hq | apply needs_refresh_no_data
               | cbn; by apply list_lookup_insert_eq].
    cbn [cls with_data sent set_heap set_clock].
    rewrite Hcls. cbn [loaded]. fold r. fold w1.
    destruct (body r) as [e|v] eqn:Hr.
    + cbn. unfold action_bind, showError, action_ret. done.
    + cbn zeta. unfold action_bind at 1, lift at 1. rewrite perform_lift_in_try.
      rewrite (run_invalidateCache _ _ this
                 (with_lastUsed (at_time r)
                    (with_lastUpdated (at_time r)
                       (with_data (Some v) (with_broadcastPromise idle (with_data None o))))))
        by first [exact Hu
                 | cbn; rewrite !list_insert_insert_eq; by apply list_lookup_insert_eq].
      cbn. do 2 f_equal. apply world_eq; cbn; try done.
      by rewrite !list_insert_insert_eq.
Qed.

Lemma UserCache_signUp_outcome_witness :
  let w := world_of (Cache_getUser (world0 [] 0)) in
  let srv : service :=
    λ _, (inr {| is_successful := true; reply_error := None; reply_rest := 0 |}, 10%Z) in
  let out := perform (answers (inr (PUser 7)) 20) srv (UserCache_signUp 0 1 w) in
  out.2.1 = Returned true ∧ (data <$> heap out.2.2 !! 0) = Some None.
Proof.
  intros w srv out. subst out.
  rewrite (proj1 (proj2 (proj2 (UserCache_signUp_outcome (answers (inr (PUser 7)) 20)
             srv w 0 (new_CacheObject UserCache) 1 eq_refl eq_refl eq_refl)))
             _ eq_refl eq_refl eq_refl eq_refl).
  split; reflexivity.
Defined.

(** X18. [resetPassword] and [signOut] never fail.  When the call succeeds
    they remove the value of the user, empty the registry, send no request
    and return [true]; otherwise they return [false] and the cache is as it
    was.  [resetPassword] shows a message in both failing cases; [signOut]
    shows one only for an answer that is not successful, and swallows a
    failed call without a message. *)
Theorem resetPassword_signOut_outcome (net : transport) (srv : service) (w : world)
    (this : loc) (o : CacheObject) :
  heap w !! this = Some o →
  user (CACHE w) = Some this →
  let after (c : mutation) (silent : bool) : list event * (outcome bool * world) :=
    match (srv c).1 with
    | inl e =>
        (if silent then [Called c] else [Called c; Shown (describe e)],
         (Returned false, set_clock (srv c).2 w))
    | inr res =>
        if is_successful res then
          ([Called c], (Returned true, invalidated w this o (srv c).2))
        else
          ([Called c; Shown (ResponseError (reply_error res))],
           (Returned false, set_clock (srv c).2 w))
    end in
  (∀ d, perform net srv (UserCache_resetPassword this d w) = after (passwordReset d) false)
  ∧ perform net srv (UserCache_signOut this w) = after signOut true.
Proof.
  intros H Hu after. subst after. cbn beta.
  pose proof (lookup_lt_Some _ _ _ H) as Hlt.
  split; [intros d|].
  - unfold UserCache_resetPassword, try_catch, action_bind at 1, await_NETWORK.
    cbn [act_bind act_catch perform].
    destruct (srv (passwordReset d)) as [[e|res] t]; cbn [fst snd act_bind act_catch].
    { unfold action_bind, showError, action_ret. done. }
    destruct (is_successful res); cbn [negb].
    2: { unfold action_bind, showError, action_ret. done. }
    unfold action_bind at 1, lift at 1. rewrite perform_lift_in_try.
    rewrite (run_set_data _ _ _ o) by exact H.
    unfold action_bind at 1, lift at 1. rewrite perform_lift_in_try.
    rewrite (run_invalidateCache _ _ this (with_data None o))
      by first [exact Hu | cbn; by apply list_lookup_insert_eq].
    cbn. do 2 f_equal. apply world_eq; cbn; try done.
    by rewrite list_insert_insert_eq.
  - unfold UserCache_signOut, try_catch, action_bind at 1, await_NETWORK.
    cbn [act_bind act_catch perform].
    destruct (srv signOut) as [[e|res] t]; cbn [fst snd act_bind act_catch].
    { unfold action_ret. done. }
    destruct (is_successful res); cbn [negb].
    2: { unfold action_bind, showError, action_ret. done. }
    unfold action_bind at 1, lift at 1. rewrite perform_lift_in_try.
    unfold invalidate_cache. rewrite (run_set_data _ _ _ o) by exact H.
    unfold action_bind at 1, lift at 1. rewrite perform_lift_in_try.
    rewrite (run_invalidateCache _ _ this (with_data None o))
      by first [exact Hu | cbn; by apply list_lookup_insert_eq].
    cbn. do 2 f_equal. apply world_eq; cbn; try done.
    by rewrite list_insert_insert_eq.
Qed.

Lemma resetPassword_signOut_outcome_witness :
  let w := world_of (Cache_getUser (world0 [] 0)) in
  let srv : service := λ _, (inl (NetworkError 500), 10%Z) in
  perform (answers (inr (PUser 7)) 20) srv (UserCache_signOut 0 w)
    = ([Called signOut], (Returned false, set_clock 10 w)).
Proof.
  intros w srv.
  exact (proj2 (resetPassword_signOut_outcome (answers (inr (PUser 7)) 20) srv w 0
                  (new_CacheObject UserCache) eq_refl eq_refl)).
Defined.
